(** * Boltz MCP server: job orchestration, submit tools and prediction scripts

    A shallow embedding of [src/server.py], [scripts/structure_prediction.py]
    and [scripts/affinity_prediction.py], together with a model of the job
    manager ([jobs/manager.py]) that the server imports. *)

From Stdlib Require Import ZArith NArith Lia Ascii String.
From stdpp Require Import base option list gmap strings pretty.

#[local] Set Warnings "-register-all".

(** Outcome of a fallible call: a value, or the failure that replaced it. *)
Inductive res (E A : Type) : Type :=
| Ok (a : A)
| Fail (e : E).
Arguments Ok {E A} a.
Arguments Fail {E A} e.

(* ===================================================================== *)
(** * Part I. The job manager *)
(* ===================================================================== *)

Module Jobs.

(** The job manager ([jobs/manager.py], imported by [server.py] as
    [job_manager]) is not among the source files; this module follows the
    specification: the data model of section 3, the registry of section 4.2,
    the executor of section 4.3, the log sink of section 4.4 and the facade
    of section 4.5. *)

(** Modelled from the spec: section 3, the five values of [status]. *)
Inductive Status := pending | running | completed | failed | cancelled.

#[global] Instance Status_eq_dec : EqDecision Status.
Proof. solve_decision. Defined.

(** Modelled from the spec: glossary, terminal state. *)
Definition is_terminal (s : Status) : bool :=
  match s with
  | completed | failed | cancelled => true
  | pending | running => false
  end.

(** Modelled from the spec: section 4.2, the terminal statuses, which are
    those [markTerminal] sets. *)
Inductive Final := FCompleted | FFailed | FCancelled.

(** Modelled from the spec: the status a terminal mark stands for. *)
Definition final_status (f : Final) : Status :=
  match f with
  | FCompleted => completed
  | FFailed => failed
  | FCancelled => cancelled
  end.

(** Modelled from the spec: section 4.2, the edges of the state machine
    [pending -> running -> {completed | failed | cancelled}] and
    [pending -> cancelled]. *)
Definition transition (s s' : Status) : bool :=
  match s, s' with
  | pending, running => true
  | pending, cancelled => true
  | running, completed => true
  | running, failed => true
  | running, cancelled => true
  | _, _ => false
  end.

(** Modelled from the spec: sections 4.3 (5) and 7, the edge a job takes
    when its process cannot be spawned: it becomes failed without ever
    reaching running. The list of section 4.2 does not have this edge. *)
Definition spawn_failure_edge (s s' : Status) : bool :=
  match s, s' with
  | pending, failed => true
  | _, _ => false
  end.

(** Modelled from the spec: every edge a record can take, those of section
    4.2 and the one of section 4.3 (5). *)
Definition moves (s s' : Status) : bool :=
  transition s s' || spawn_failure_edge s s'.

(** Modelled from the spec: section 3, the value of an argument key: a
    string, a presence-only boolean flag (Python's [True]), or None. *)
Inductive ArgValue :=
| ANone
| AFlag
| AStr (s : string).

(** Modelled from the spec: section 3, [command]: the program path and the
    mapping of argument keys to values, in insertion order. *)
Record Command := mkCommand {
  scriptPath : string;
  args : list (string * ArgValue)
}.

(** Modelled from the spec: section 7, the error kinds returned to the
    caller of an operation. *)
Inductive ApiError :=
| NotFound
| InvalidArgument
| InvalidTransition
| NotReady.

(** Modelled from the spec: section 4.2, the [result|error] argument of
    [markTerminal]. *)
Inductive Payload :=
| PResult (r : string)
| PError (e : string).

(** Modelled from the spec: section 3, [JobRecord]. *)
Record JobRecord := mkJob {
  job_id : string;
  job_name : string;
  command : Command;
  status : Status;
  createdAt : nat;
  startedAt : option nat;
  finishedAt : option nat;
  processHandle : option nat;
  exitCode : option Z;
  result : option string;
  error : option string;
  logHandle : string
}.

(** Modelled from the spec: sections 4.1 and 4.2, the registry: the map from
    identifier to record and the counter of the identifier generator. *)
Record Registry := mkRegistry {
  jobs : gmap string JobRecord;
  issued : nat
}.

(** Modelled from the spec: the registry at service start-up. *)
Definition empty : Registry := mkRegistry ∅ 0.

(** Modelled from the spec: section 4.1, identifiers from a monotonically
    increasing counter (the random suffix is left out). *)
Definition newId (k : nat) : string := "job-" +:+ pretty k.

(** Modelled from the spec: section 4.2, [create(command, name)]. *)
Definition create (cmd : Command) (name : string) (now : nat) (r : Registry)
  : JobRecord * Registry :=
  let i := newId (issued r) in
  let j := mkJob i name cmd pending now None None None None None None i in
  (j, mkRegistry (<[i := j]> (jobs r)) (S (issued r))).

(** Modelled from the spec: section 4.2, [get(id)]. *)
Definition get (id : string) (r : Registry) : res ApiError JobRecord :=
  match jobs r !! id with
  | Some j => Ok j
  | None => Fail NotFound
  end.

(** Modelled from the spec: section 4.2, [markRunning(id, processHandle)]. *)
Definition markRunning (id : string) (h : nat) (now : nat) (r : Registry)
  : res ApiError Registry :=
  match jobs r !! id with
  | None => Fail NotFound
  | Some j =>
      match status j with
      | pending =>
          let j' := mkJob (job_id j) (job_name j) (command j) running
                      (createdAt j) (Some now) (finishedAt j) (Some h)
                      (exitCode j) (result j) (error j) (logHandle j) in
          Ok (mkRegistry (<[id := j']> (jobs r)) (issued r))
      | _ => Fail InvalidTransition
      end
  end.

(** Modelled from the spec: the guard of [markTerminal]. By section 4.2 the
    record is running, or it is pending and the call is direct: the direct
    cancellation of section 4.2 or the direct [markTerminal(failed)] that
    section 4.3 (5) prescribes when spawning fails (section 7: a
    [SpawnFailure] is surfaced as job status failed). *)
Definition may_finish (s : Status) (f : Final) : bool :=
  match s, f with
  | running, _ => true
  | pending, FCancelled => true
  | pending, FFailed => true
  | _, _ => false
  end.

(** Modelled from the spec: section 4.2,
    [markTerminal(id, status, exitCode, result|error)]. *)
Definition markTerminal (id : string) (f : Final) (code : option Z)
    (p : Payload) (now : nat) (r : Registry) : res ApiError Registry :=
  match jobs r !! id with
  | None => Fail NotFound
  | Some j =>
      if may_finish (status j) f then
        let j' := mkJob (job_id j) (job_name j) (command j) (final_status f)
                    (createdAt j) (startedAt j) (Some now) None code
                    (match p with PResult x => Some x | PError _ => result j end)
                    (match p with PError e => Some e | PResult _ => error j end)
                    (logHandle j) in
        Ok (mkRegistry (<[id := j']> (jobs r)) (issued r))
      else Fail InvalidTransition
  end.

(** Modelled from the spec: section 4.2, [list(statusFilter?)]. *)
Definition list_records (filter : option Status) (r : Registry) : list JobRecord :=
  List.filter
    (fun j => match filter with
              | None => true
              | Some s => bool_decide (status j = s)
              end)
    (snd <$> map_to_list (jobs r)).

(** ** Executor *)

(** Modelled from the spec: sections 4.3 (1) and 6, one entry of the args
    mapping flattened: a string value gives [--key value], a true boolean
    gives a bare [--key], None gives nothing. *)
Definition flatten_arg (kv : string * ArgValue) : list string :=
  match snd kv with
  | ANone => []
  | AFlag => ["--" +:+ fst kv]
  | AStr v => ["--" +:+ fst kv; v]
  end.

(** Modelled from the spec: section 6, the command line
    [<scriptPath> [--key value | --flag]...]. *)
Definition command_line (c : Command) : list string :=
  scriptPath c :: flat_map flatten_arg (args c).

(** Modelled from the spec: section 4.3 (5), what the executor does when
    the process cannot be spawned: [markTerminal(failed)] on the record,
    which is still pending, with the reason as its error. *)
Definition spawn_failed (id : string) (reason : string) (now : nat)
    (r : Registry) : res ApiError Registry :=
  markTerminal id FFailed None (PError reason) now r.

(** Modelled from the spec: section 3, the [error] description stored with
    a cancelled job; the specification leaves its wording open. *)
Definition cancel_message : string := "cancelled".

(** Modelled from the spec: section 4.3, [cancel(record)]: a terminal record
    is reported as it is, a pending or running one is marked cancelled (the
    signal sent to the operating-system process is outside the registry). *)
Definition cancel (id : string) (now : nat) (r : Registry)
  : res ApiError Status * Registry :=
  match jobs r !! id with
  | None => (Fail NotFound, r)
  | Some j =>
      if is_terminal (status j) then (Ok (status j), r)
      else
        match markTerminal id FCancelled None (PError cancel_message) now r with
        | Ok r' => (Ok cancelled, r')
        | Fail e => (Fail e, r)
        end
  end.

(** ** Log sink *)

(** Modelled from the spec: section 4.4, [append(jobId, bytes)], with the
    bytes already split into lines. *)
Definition append (id : string) (ls : list string)
    (sink : gmap string (list string)) : gmap string (list string) :=
  <[id := default [] (sink !! id) ++ ls]> sink.

(** Modelled from the spec: section 4.4, [tail(jobId, n)]; [n = 0] means all
    lines, [n > 0] the last [n] lines. *)
Definition tail (id : string) (n : nat) (sink : gmap string (list string))
  : list string :=
  let l := default [] (sink !! id) in
  match n with
  | 0 => l
  | S _ => drop (length l - n) l
  end.

(** ** Facade *)

(** Modelled from the spec: section 2, the facade composes the registry and
    the log sink. *)
Record Orchestrator := mkOrchestrator {
  registry : Registry;
  logsink : gmap string (list string)
}.

(** Modelled from the spec: the facade at service start-up. *)
Definition fresh_orchestrator : Orchestrator := mkOrchestrator empty ∅.

(** Modelled from the spec: section 4.5, [submitJob(scriptPath, args, jobName)]. *)
Definition submitJob (script : string) (a : list (string * ArgValue))
    (name : string) (now : nat) (o : Orchestrator)
  : res ApiError string * Orchestrator :=
  if bool_decide (script = "") then (Fail InvalidArgument, o)
  else
    let '(j, r') := create (mkCommand script a) name now (registry o) in
    (Ok (job_id j), mkOrchestrator r' (<[logHandle j := []]> (logsink o))).

(** Modelled from the spec: section 4.5, what [getJobStatus] returns. *)
Record StatusView := mkStatusView {
  sv_status : Status;
  sv_createdAt : nat;
  sv_startedAt : option nat;
  sv_finishedAt : option nat
}.

(** Modelled from the spec: section 4.5, [getJobStatus(jobId)]. *)
Definition getJobStatus (id : string) (o : Orchestrator) : res ApiError StatusView :=
  match get id (registry o) with
  | Fail e => Fail e
  | Ok j => Ok (mkStatusView (status j) (createdAt j) (startedAt j) (finishedAt j))
  end.

(** Modelled from the spec: section 4.5, what [getJobResult] returns: the
    result of a completed job, or the stored error of a failed or cancelled
    one. *)
Inductive JobResult :=
| Result (r : option string)
| StoredError (e : option string).

(** Modelled from the spec: section 4.5, [getJobResult(jobId)]. *)
Definition getJobResult (id : string) (o : Orchestrator) : res ApiError JobResult :=
  match get id (registry o) with
  | Fail e => Fail e
  | Ok j =>
      match status j with
      | pending | running => Fail NotReady
      | completed => Ok (Result (result j))
      | failed | cancelled => Ok (StoredError (error j))
      end
  end.

(** Modelled from the spec: section 4.5, what [getJobLog] returns. *)
Record LogView := mkLogView {
  lines : list string;
  totalLines : nat
}.

(** Modelled from the spec: section 4.5, [getJobLog(jobId, tail)]. *)
Definition getJobLog (id : string) (n : nat) (o : Orchestrator) : res ApiError LogView :=
  match get id (registry o) with
  | Fail e => Fail e
  | Ok j =>
      Ok (mkLogView (tail (logHandle j) n (logsink o))
                    (length (tail (logHandle j) 0 (logsink o))))
  end.

(** Modelled from the spec: section 4.5, [cancelJob(jobId)]. *)
Definition cancelJob (id : string) (now : nat) (o : Orchestrator)
  : res ApiError Status * Orchestrator :=
  let '(s, r') := cancel id now (registry o) in
  (s, mkOrchestrator r' (logsink o)).

(** Modelled from the spec: section 4.5, [listJobs(statusFilter?)]. *)
Definition listJobs (filter : option Status) (o : Orchestrator)
  : list (string * string * Status * nat) :=
  (fun j => (job_id j, job_name j, status j, createdAt j))
    <$> list_records filter (registry o).

(** ** Runs of the registry *)

(** Modelled from the spec: sections 4.2 and 4.3, the operations that write
    a job record. *)
Inductive Op :=
| Create (cmd : Command) (name : string) (now : nat)
| MarkRunning (id : string) (h : nat) (now : nat)
| MarkTerminal (id : string) (f : Final) (code : option Z) (p : Payload) (now : nat)
| Cancel (id : string) (now : nat).

(** Modelled from the spec: one operation applied to the registry; an
    operation that fails leaves the registry as it was. *)
Definition step (r : Registry) (o : Op) : Registry :=
  match o with
  | Create cmd name now => snd (create cmd name now r)
  | MarkRunning id h now =>
      match markRunning id h now r with Ok r' => r' | Fail _ => r end
  | MarkTerminal id f code p now =>
      match markTerminal id f code p now r with Ok r' => r' | Fail _ => r end
  | Cancel id now => snd (cancel id now r)
  end.

(** Modelled from the spec: the status a poll of [id] shows, if the job
    exists. *)
Definition status_of (id : string) (r : Registry) : option Status :=
  status <$> jobs r !! id.

(** Modelled from the spec: section 8, the statuses of job [id] seen by
    polling before and after every operation of a run. *)
Fixpoint history (id : string) (r : Registry) (ops : list Op) : list Status :=
  option_list (status_of id r) ++
  match ops with
  | [] => []
  | o :: ops' => history id (step r o) ops'
  end.

(** Modelled from the spec: section 8, a sequence of statuses that, from
    [s] on, stays or moves along an edge of the machine [edge] at every
    step. *)
Fixpoint follows (edge : Status -> Status -> bool) (s : Status)
    (l : list Status) : bool :=
  match l with
  | [] => true
  | s' :: l' => (bool_decide (s = s') || edge s s') && follows edge s' l'
  end.

(** Modelled from the spec: section 8, a sequence of statuses that starts
    at pending and follows the machine [edge]. *)
Definition lifecycle (edge : Status -> Status -> bool) (l : list Status) : bool :=
  match l with
  | [] => true
  | s :: l' => bool_decide (s = pending) && follows edge s l'
  end.

(** ** Invariants of a run *)

(** Identifiers not yet issued are absent from the job table. *)
Definition ids_fresh (r : Registry) : Prop :=
  ∀ k, issued r ≤ k → jobs r !! newId k = None.

(** What one operation can do to the table: nothing, restate a record, move
    one record along an edge, or add a pending record under a fresh id. *)
Inductive effect (r r' : Registry) : Prop :=
| eff_none : r' = r → effect r r'
| eff_move id j j' :
    jobs r !! id = Some j → moves (status j) (status j') = true →
    jobs r' = <[id := j']> (jobs r) → issued r' = issued r → effect r r'
| eff_new j :
    jobs r' = <[newId (issued r) := j]> (jobs r) → status j = pending →
    issued r' = S (issued r) → effect r r'.

End Jobs.

(* ===================================================================== *)
(** * Part II. Python values *)
(* ===================================================================== *)

Module Py.

(** The Python values that occur in the tools' dictionaries. *)
Inductive PyVal :=
| PNone
| PBool (b : bool)
| PInt (z : Z)
| PStr (s : string)
| PList (l : list PyVal)
| PDict (d : gmap string PyVal).

(** The exceptions the scripts raise or let through. *)
Inductive PyExc :=
| ValueError (msg : string)
| FileNotFoundError (msg : string)
| TypeError (msg : string)
| KeyError (msg : string)
| ZeroDivisionError (msg : string)
| OSError (msg : string).

(** Truth value of an object, as tested by [if x:] and [not x]. *)
Definition truthy (v : PyVal) : bool :=
  match v with
  | PNone => false
  | PBool b => b
  | PInt z => negb (z =? 0)%Z
  | PStr s => negb (bool_decide (s = ""))
  | PList l => match l with [] => false | _ => true end
  | PDict d => negb (bool_decide (d = ∅))
  end.

(** Truth value of an [Optional[str]] argument: None and the empty string
    are false. *)
Definition given (o : option string) : bool :=
  match o with
  | Some s => negb (bool_decide (s = ""))
  | None => false
  end.

(** [x or d] for an [Optional[str]] [x]. *)
Definition or_else (o : option string) (d : string) : string :=
  match o with
  | Some s => if bool_decide (s = "") then d else s
  | None => d
  end.

(** The string carried by an [Optional[str]] argument that tests true. *)
Definition if_given (o : option string) : option string :=
  match o with
  | Some s => if bool_decide (s = "") then None else Some s
  | None => None
  end.

Definition of_option (o : option string) : PyVal :=
  match o with
  | Some s => PStr s
  | None => PNone
  end.

(** [d[k] = v] on a dictionary that keeps insertion order. *)
Fixpoint dict_set {V : Type} (k : string) (v : V) (d : list (string * V))
  : list (string * V) :=
  match d with
  | [] => [(k, v)]
  | (k', v') :: d' =>
      if bool_decide (k = k') then (k, v) :: d' else (k', v') :: dict_set k v d'
  end.

(** [d.get(k, dflt)]. *)
Definition dict_get (d : gmap string PyVal) (k : string) (dflt : PyVal) : PyVal :=
  default dflt (d !! k).

(** [{**a, **b}]: the entries of [b] win. *)
Definition dict_merge (a b : gmap string PyVal) : gmap string PyVal := b ∪ a.

End Py.

(* ===================================================================== *)
(** * Part III. The prediction scripts *)
(* ===================================================================== *)

Module Scripts.
Import Py.

(** ** The world outside the scripts *)

(** What a run does to the world, in the order it happens. *)
Inductive Event :=
| Mkdir (p : string)
| WriteYaml (p : string) (config : PyVal)
| RunProcess (cmd : list string)
| Unlink (p : string).

(** An external process that ran to its end. *)
Record Completed := mkCompleted {
  returncode : Z;
  stdout : string;
  stderr : string
}.

(** The file system, the process table and the library functions the
    scripts call. An answer may depend on everything done so far. *)
Record World := mkWorld {
  (** [str(Path(s))] *)
  path_str : string -> string;
  (** [str(Path(a) / b)] *)
  path_join : string -> string -> string;
  (** [Path(p).exists()] *)
  path_exists : list Event -> string -> bool;
  (** [Path(p).mkdir(parents=True, exist_ok=True)]: the error raised, if any *)
  mkdir : list Event -> string -> option PyExc;
  (** [open(p, 'w')] followed by [yaml.dump] *)
  dump_yaml : list Event -> string -> PyVal -> option PyExc;
  (** the process started by [subprocess.run]: how it ended, or why it did
      not start *)
  spawn : list Event -> list string -> res PyExc Completed;
  (** the directory scan of [find_output_files] *)
  scan_output_files : list Event -> string -> res PyExc PyVal;
  (** the directory scan of [parse_affinity_results] *)
  scan_affinity_results : list Event -> string -> res PyExc (gmap string PyVal);
  (** [Path(p).unlink()] *)
  unlink : list Event -> string -> option PyExc;
  (** [str(v)] for a value that is not a string *)
  str_other : PyVal -> string;
  (** [str(e)] for the [CalledProcessError] of a command and exit status *)
  str_CalledProcessError : list string -> Z -> string
}.

(** A computation that may raise and that extends the trace of events. *)
Definition M (A : Type) : Type := list Event -> res PyExc A * list Event.

Definition ret {A : Type} (a : A) : M A := fun t => (Ok a, t).

Definition raise {A : Type} (e : PyExc) : M A := fun t => (Fail e, t).

Definition bind {A B : Type} (c : M A) (k : A -> M B) : M B :=
  fun t =>
    match c t with
    | (Ok a, t') => k a t'
    | (Fail e, t') => (Fail e, t')
    end.

Notation "'let*' x ':=' c 'in' k" := (bind c (fun x => k))
  (at level 10, x pattern, c at level 100, k at level 200).

(** An action on the world: recorded, then failed or not as the world says. *)
Definition act (ev : Event) (outcome : list Event -> option PyExc) : M unit :=
  fun t =>
    match outcome t with
    | Some e => (Fail e, t ++ [ev])
    | None => (Ok tt, t ++ [ev])
    end.

(** A question to the world; nothing is recorded. *)
Definition ask {A : Type} (q : list Event -> A) : M A := fun t => (Ok (q t), t).

Definition ask_or_raise {A : Type} (q : list Event -> res PyExc A) : M A :=
  fun t => (q t, t).

(** [d[k]] *)
Definition index (d : gmap string PyVal) (k : string) : M PyVal :=
  match d !! k with
  | Some v => ret v
  | None => raise (KeyError k)
  end.

(** [str(v)] *)
Definition py_str (w : World) (v : PyVal) : string :=
  match v with
  | PStr s => s
  | _ => str_other w v
  end.

(** The command elements as [subprocess.run] needs them: all strings. *)
Fixpoint as_strings (cmd : list PyVal) : option (list string) :=
  match cmd with
  | [] => Some []
  | PStr s :: cmd' => option_map (cons s) (as_strings cmd')
  | _ :: _ => None
  end.

(** [subprocess.run(cmd, capture_output=True, text=True, check=True)] up to
    the point where the exit status is looked at. *)
Definition subprocess_run (w : World) (cmd : list PyVal) : M (list string * Completed) :=
  match as_strings cmd with
  | None => raise (TypeError "expected str, bytes or os.PathLike object")
  | Some argv =>
      fun t =>
        match spawn w t argv with
        | Ok c => (Ok (argv, c), t ++ [RunProcess argv])
        | Fail e => (Fail e, t ++ [RunProcess argv])
        end
  end.

(** ** structure_prediction.py *)

Definition DEFAULT_CONFIG : gmap string PyVal :=
  <["temp_prefix" := PStr "temp_input"]>
  (<["output_format" := PStr "pdb"]>
  (<["use_potentials" := PBool false]>
  {["use_msa_server" := PBool true]})).

Definition create_protein_yaml (w : World) (sequence : PyVal)
    (output_path : string) (use_msa_server : PyVal) : M string :=
  let protein := <["sequence" := sequence]> {["id" := PStr "A"]} in
  let protein := if negb (truthy use_msa_server)
                 then <["msa" := PStr "empty"]> protein
                 else protein in
  let config :=
    PDict (<["sequences" := PList [PDict {["protein" := PDict protein]}]]>
           {["version" := PInt 1]}) in
  let output_path := path_str w output_path in
  let* _ := act (WriteYaml output_path config)
                (fun t => dump_yaml w t output_path config) in
  ret output_path.

(** The list [cmd] built by [run_boltz_command] and, word for word the
    same, by [run_boltz_affinity_command]. *)
Definition boltz_cmd (input_yaml output_dir : string)
    (use_msa_server use_potentials output_format : PyVal) : list PyVal :=
  let cmd := [PStr "boltz"; PStr "predict"; PStr input_yaml;
              PStr "--out_dir"; PStr output_dir;
              PStr "--output_format"; output_format] in
  let cmd := if truthy use_msa_server then cmd ++ [PStr "--use_msa_server"] else cmd in
  let cmd := if truthy use_potentials then cmd ++ [PStr "--use_potentials"] else cmd in
  cmd.

(** The dictionary returned when the process exits with status 0. *)
Definition success_record (argv : list string) (c : Completed) : gmap string PyVal :=
  <["command" := PStr (String.concat " " argv)]>
  (<["stderr" := PStr (stderr c)]>
  (<["stdout" := PStr (stdout c)]>
  {["success" := PBool true]})).

(** The dictionary built in the [except subprocess.CalledProcessError]
    clause, reached on any other exit status. *)
Definition failure_record (w : World) (argv : list string) (c : Completed)
  : gmap string PyVal :=
  <["command" := PStr (String.concat " " argv)]>
  (<["stderr" := PStr (stderr c)]>
  (<["error" := PStr (str_CalledProcessError w argv (returncode c))]>
  {["success" := PBool false]})).

(** The body shared by the two functions. *)
Definition boltz_predict (w : World) (input_yaml output_dir : string)
    (use_msa_server use_potentials output_format : PyVal)
  : M (gmap string PyVal) :=
  let cmd := boltz_cmd input_yaml output_dir use_msa_server use_potentials
               output_format in
  let* (argv, c) := subprocess_run w cmd in
  if (returncode c =? 0)%Z then ret (success_record argv c)
  else ret (failure_record w argv c).

Definition run_boltz_command := boltz_predict.

Definition find_output_files (w : World) (output_dir : string) : M PyVal :=
  ask_or_raise (fun t => scan_output_files w t output_dir).

(** [sequence if sequence and len(sequence) < 100 else
     f"{sequence[:50]}..." if sequence else None] *)
Definition abbreviated (sequence : option string) : PyVal :=
  match if_given sequence with
  | Some q =>
      if String.length q <? 100 then PStr q
      else PStr (String.substring 0 50 q +:+ "...")
  | None => PNone
  end.

(** The lines that attach the failure to the record returned. *)
Definition with_failure (prediction_result result : gmap string PyVal)
  : gmap string PyVal :=
  <["stderr" := dict_get prediction_result "stderr" (PStr "")]>
  (<["error" := dict_get prediction_result "error" (PStr "Unknown error")]> result).

Definition run_structure_prediction (w : World)
    (input_file sequence output_dir : option string)
    (config : option (gmap string PyVal)) (kwargs : gmap string PyVal)
  : M (gmap string PyVal) :=
  let config := dict_merge (dict_merge DEFAULT_CONFIG (default ∅ config)) kwargs in
  if negb (given input_file) && negb (given sequence) then
    raise (ValueError "Must provide either input_file or sequence")
  else if given input_file && given sequence then
    raise (ValueError "Provide either input_file OR sequence, not both")
  else
    let output_dir := path_str w (or_else output_dir "./boltz_structure_output") in
    let* _ := act (Mkdir output_dir) (fun t => mkdir w t output_dir) in
    let* (input_yaml_path, cleanup_temp) :=
      match if_given input_file with
      | Some f =>
          let f := path_str w f in
          let* there := ask (fun t => path_exists w t f) in
          if there then ret (f, false)
          else raise (FileNotFoundError ("Input file not found: " +:+ f))
      | None =>
          let* prefix := index config "temp_prefix" in
          let temp_yaml := path_join w output_dir (py_str w prefix +:+ ".yaml") in
          let* msa := index config "use_msa_server" in
          let* p := create_protein_yaml w (of_option sequence) temp_yaml msa in
          ret (p, true)
      end in
    let* msa := index config "use_msa_server" in
    let* potentials := index config "use_potentials" in
    let* format := index config "output_format" in
    let* prediction_result :=
      run_boltz_command w input_yaml_path output_dir msa potentials format in
    let* output_files := find_output_files w output_dir in
    let* _ :=
      if cleanup_temp then
        let* there := ask (fun t => path_exists w t input_yaml_path) in
        if there then act (Unlink input_yaml_path) (fun t => unlink w t input_yaml_path)
        else ret tt
      else ret tt in
    let* success := index prediction_result "success" in
    let result :=
      <["metadata" := PDict
          (<["sequence" := abbreviated sequence]>
          (<["input_file" := match if_given input_file with
                             | Some f => PStr (path_str w f)
                             | None => PNone
                             end]>
          {["config" := PDict config]}))]>
      (<["output_files" := output_files]>
      (<["output_dir" := PStr output_dir]>
      (<["result" := PDict
          (<["input_source" := PStr (if given sequence then "sequence" else "file")]>
          (<["sequence_length" := match if_given sequence with
                                  | Some q => PInt (Z.of_nat (String.length q))
                                  | None => PNone
                                  end]>
          (<["command_used" := dict_get prediction_result "command" (PStr "")]>
          {["command_output" := dict_get prediction_result "stdout" (PStr "")]})))]>
      {["success" := success]}))) in
    if negb (truthy success) then ret (with_failure prediction_result result)
    else ret result.

(** The option strings of the parser built in [main] (lines 270-291), with
    the [-h] and [--help] that [argparse] adds. *)
Definition structure_options : list string :=
  ["-h"; "--help"; "--input"; "-i"; "--sequence"; "-s"; "--output"; "-o";
   "--config"; "-c"; "--no-msa-server"; "--use-potentials"; "--output-format"].

(** ** affinity_prediction.py *)

Definition AFFINITY_DEFAULT_CONFIG : gmap string PyVal :=
  <["ligand_id" := PStr "B"]>
  (<["protein_id" := PStr "A"]>
  (<["temp_prefix" := PStr "temp_affinity"]>
  (<["output_format" := PStr "pdb"]>
  (<["use_potentials" := PBool false]>
  {["use_msa_server" := PBool true]})))).

Definition create_affinity_yaml (w : World) (protein_sequence ligand_smiles : PyVal)
    (output_path : string) (ligand_ccd protein_id ligand_id : PyVal) : M string :=
  let ligand : gmap string PyVal := {["id" := ligand_id]} in
  let ligand := if truthy ligand_ccd
                then <["ccd" := ligand_ccd]> ligand
                else <["smiles" := ligand_smiles]> ligand in
  let config :=
    PDict (<["properties" := PList [PDict {["affinity" := PDict {["binder" := ligand_id]}]}]]>
          (<["sequences" :=
               PList [PDict {["protein" :=
                                PDict (<["sequence" := protein_sequence]>
                                       {["id" := protein_id]})]};
                      PDict {["ligand" := PDict ligand]}]]>
          {["version" := PInt 1]})) in
  let output_path := path_str w output_path in
  let* _ := act (WriteYaml output_path config)
                (fun t => dump_yaml w t output_path config) in
  ret output_path.

Definition run_boltz_affinity_command := boltz_predict.

Definition parse_affinity_results (w : World) (output_dir : string)
  : M (gmap string PyVal) :=
  ask_or_raise (fun t => scan_affinity_results w t output_dir).

Definition run_affinity_prediction (w : World)
    (input_file protein_sequence ligand_smiles ligand_ccd output_dir : option string)
    (config : option (gmap string PyVal)) (kwargs : gmap string PyVal)
  : M (gmap string PyVal) :=
  let config := dict_merge (dict_merge AFFINITY_DEFAULT_CONFIG (default ∅ config)) kwargs in
  if given input_file
     && (given protein_sequence || given ligand_smiles || given ligand_ccd) then
    raise (ValueError "Provide either input_file OR (protein_sequence + ligand), not both")
  else if negb (given input_file) && negb (given protein_sequence) then
    raise (ValueError "Must provide protein_sequence when not using input_file")
  else if negb (given input_file)
          && (negb (given ligand_smiles) && negb (given ligand_ccd)) then
    raise (ValueError
             "Must provide either ligand_smiles or ligand_ccd when not using input_file")
  else
    let output_dir := path_str w (or_else output_dir "./boltz_affinity_output") in
    let* _ := act (Mkdir output_dir) (fun t => mkdir w t output_dir) in
    let* (input_yaml_path, cleanup_temp) :=
      match if_given input_file with
      | Some f =>
          let f := path_str w f in
          let* there := ask (fun t => path_exists w t f) in
          if there then ret (f, false)
          else raise (FileNotFoundError ("Input file not found: " +:+ f))
      | None =>
          let* prefix := index config "temp_prefix" in
          let temp_yaml := path_join w output_dir (py_str w prefix +:+ ".yaml") in
          let* protein_id := index config "protein_id" in
          let* ligand_id := index config "ligand_id" in
          let* p := create_affinity_yaml w (of_option protein_sequence)
                      (of_option ligand_smiles) temp_yaml (of_option ligand_ccd)
                      protein_id ligand_id in
          ret (p, true)
      end in
    let* msa := index config "use_msa_server" in
    let* potentials := index config "use_potentials" in
    let* format := index config "output_format" in
    let* prediction_result :=
      run_boltz_affinity_command w input_yaml_path output_dir msa potentials format in
    let* affinity_results := parse_affinity_results w output_dir in
    let* output_files := find_output_files w output_dir in
    let* _ :=
      if cleanup_temp then
        let* there := ask (fun t => path_exists w t input_yaml_path) in
        if there then act (Unlink input_yaml_path) (fun t => unlink w t input_yaml_path)
        else ret tt
      else ret tt in
    let* success := index prediction_result "success" in
    let result :=
      <["metadata" := PDict
          (<["ligand_ccd" := of_option ligand_ccd]>
          (<["ligand_smiles" := of_option ligand_smiles]>
          (<["protein_sequence" := abbreviated protein_sequence]>
          (<["input_file" := match if_given input_file with
                             | Some f => PStr (path_str w f)
                             | None => PNone
                             end]>
          {["config" := PDict config]}))))]>
      (<["output_files" := output_files]>
      (<["output_dir" := PStr output_dir]>
      (<["result" := PDict
          (<["input_source" :=
               PStr (if given protein_sequence then "sequence+ligand" else "file")]>
          (<["ligand_type" := if given ligand_smiles then PStr "smiles"
                              else if given ligand_ccd then PStr "ccd" else PNone]>
          (<["ligand_input" := if given ligand_smiles then of_option ligand_smiles
                               else of_option ligand_ccd]>
          (<["protein_length" := match if_given protein_sequence with
                                 | Some q => PInt (Z.of_nat (String.length q))
                                 | None => PNone
                                 end]>
          (<["affinity_values" := dict_get affinity_results "affinity_values" (PDict ∅)]>
          (<["command_used" := dict_get prediction_result "command" (PStr "")]>
          {["command_output" := dict_get prediction_result "stdout" (PStr "")]}))))))]>
      {["success" := success]}))) in
    if negb (truthy success) then ret (with_failure prediction_result result)
    else ret result.

(** The option strings of the parser built in [main] (lines 358-386). *)
Definition affinity_options : list string :=
  ["-h"; "--help"; "--input"; "-i"; "--protein-seq"; "--ligand-smiles";
   "--ligand-ccd"; "--output"; "-o"; "--config"; "-c"; "--no-msa-server";
   "--use-potentials"; "--output-format"].

(** ** What [argparse] takes for an option *)

(** A flag [--name] (without [=]) is taken when it is one of the option
    strings, or when it is the beginning of exactly one of them. *)
Definition recognised (options : list string) (flag : string) : bool :=
  bool_decide (flag ∈ options)
  || (length (List.filter (String.prefix flag) options) =? 1).

End Scripts.

(* ===================================================================== *)
(** * Part IV. The tools of server.py *)
(* ===================================================================== *)

Module Server.
Import Py.

(** Modelled from the spec: [job_manager.submit_job] of the absent
    [jobs/manager.py], section 4.5 [submitJob(scriptPath, args, jobName) ->
    {jobId}]; it runs the script under the command line of section 6. *)
Definition submit_job (script_path : string) (args : list (string * Jobs.ArgValue))
    (job_name : string) (now : nat) (o : Jobs.Orchestrator)
  : res Jobs.ApiError (gmap string PyVal) * Jobs.Orchestrator :=
  match Jobs.submitJob script_path args job_name now o with
  | (Ok id, o') => (Ok {["job_id" := PStr id]}, o')
  | (Fail e, o') => (Fail e, o')
  end.

(** [get_job_status], [get_job_result], [get_job_log], [cancel_job] and
    [list_jobs] (lines 28-92) hand their arguments to the job manager
    unchanged. The [tail] of [get_job_log] is a number of lines; the job
    manager gives a meaning to 0 and to positive numbers only. *)
Definition get_job_status (job_id : string) (o : Jobs.Orchestrator) :=
  Jobs.getJobStatus job_id o.

Definition get_job_result (job_id : string) (o : Jobs.Orchestrator) :=
  Jobs.getJobResult job_id o.

Definition get_job_log (job_id : string) (tail : nat) (o : Jobs.Orchestrator) :=
  Jobs.getJobLog job_id tail o.

Definition cancel_job (job_id : string) (now : nat) (o : Jobs.Orchestrator) :=
  Jobs.cancelJob job_id now o.

Definition list_jobs (status : option Jobs.Status) (o : Jobs.Orchestrator) :=
  Jobs.listJobs status o.

(** The dictionary [{"status": "error", "error": msg}]. *)
Definition error_dict (msg : string) : gmap string PyVal :=
  <["error" := PStr msg]> {["status" := PStr "error"]}.

(** [str(SCRIPTS_DIR / name)]. *)
Definition script_in (SCRIPTS_DIR name : string) : string :=
  SCRIPTS_DIR +:+ "/" +:+ name.

(** The flags added at lines 237-245 and 303-311: the output directory and
    the two switches. *)
Definition common_args (output_dir : option string)
    (use_msa_server use_potentials : bool)
    (args : list (string * Jobs.ArgValue)) : list (string * Jobs.ArgValue) :=
  let args := match if_given output_dir with
              | Some d => dict_set "output" (Jobs.AStr d) args
              | None => args
              end in
  let args := if negb use_msa_server
              then dict_set "no-msa-server" (Jobs.AFlag) args
              else args in
  let args := if use_potentials
              then dict_set "use-potentials" (Jobs.AFlag) args
              else args in
  args.

(** The args mapping built by [submit_structure_prediction] (lines 225-245);
    [None] stands for the early return of the error dictionary. *)
Definition structure_args (input_file sequence output_dir : option string)
    (use_msa_server use_potentials : bool) (output_format : string)
  : option (list (string * Jobs.ArgValue)) :=
  let args := [("output_format", Jobs.AStr output_format)] in
  match if_given input_file with
  | Some f =>
      Some (common_args output_dir use_msa_server use_potentials
              (dict_set "input" (Jobs.AStr f) args))
  | None =>
      match if_given sequence with
      | Some q =>
          Some (common_args output_dir use_msa_server use_potentials
                  (dict_set "sequence" (Jobs.AStr q) args))
      | None => None
      end
  end.

Definition submit_structure_prediction (SCRIPTS_DIR : string)
    (input_file sequence output_dir : option string)
    (use_msa_server use_potentials : bool) (output_format : string)
    (job_name : option string) (now : nat) (o : Jobs.Orchestrator)
  : res Jobs.ApiError (gmap string PyVal) * Jobs.Orchestrator :=
  let script_path := script_in SCRIPTS_DIR "structure_prediction.py" in
  match structure_args input_file sequence output_dir
          use_msa_server use_potentials output_format with
  | None => (Ok (error_dict "Must provide either input_file or sequence"), o)
  | Some args =>
      submit_job script_path args (or_else job_name "structure_prediction") now o
  end.

(** The args mapping built by [submit_affinity_prediction] (lines 287-311). *)
Definition affinity_args
    (input_file protein_sequence ligand_smiles ligand_ccd output_dir : option string)
    (use_msa_server use_potentials : bool) (output_format : string)
  : option (list (string * Jobs.ArgValue)) :=
  let args := [("output_format", Jobs.AStr output_format)] in
  match if_given input_file with
  | Some f =>
      Some (common_args output_dir use_msa_server use_potentials
              (dict_set "input" (Jobs.AStr f) args))
  | None =>
      match if_given protein_sequence with
      | Some q =>
          if given ligand_smiles || given ligand_ccd then
            let args := dict_set "protein-seq" (Jobs.AStr q) args in
            let args := match if_given ligand_smiles with
                        | Some l => dict_set "ligand-smiles" (Jobs.AStr l) args
                        | None => args
                        end in
            let args := match if_given ligand_ccd with
                        | Some l => dict_set "ligand-ccd" (Jobs.AStr l) args
                        | None => args
                        end in
            Some (common_args output_dir use_msa_server use_potentials args)
          else None
      | None => None
      end
  end.

Definition submit_affinity_prediction (SCRIPTS_DIR : string)
    (input_file protein_sequence ligand_smiles ligand_ccd output_dir : option string)
    (use_msa_server use_potentials : bool) (output_format : string)
    (job_name : option string) (now : nat) (o : Jobs.Orchestrator)
  : res Jobs.ApiError (gmap string PyVal) * Jobs.Orchestrator :=
  let script_path := script_in SCRIPTS_DIR "affinity_prediction.py" in
  match affinity_args input_file protein_sequence ligand_smiles ligand_ccd
          output_dir use_msa_server use_potentials output_format with
  | None =>
      (Ok (error_dict "Must provide either input_file OR (protein_sequence + ligand)"), o)
  | Some args =>
      submit_job script_path args (or_else job_name "affinity_prediction") now o
  end.

(** [str(e)] *)
Definition exc_str (e : PyExc) : string :=
  match e with
  | ValueError m | FileNotFoundError m | TypeError m
  | ZeroDivisionError m | OSError m => m
  | KeyError k => "'" +:+ k +:+ "'"
  end.

(** [simple_structure_prediction] (lines 121-138): the synchronous tool. *)
Definition simple_structure_prediction (w : Scripts.World)
    (input_file sequence output_dir : option string)
    (use_msa_server : bool) (output_format : string)
    (t : list Scripts.Event) : gmap string PyVal * list Scripts.Event :=
  let kwargs : gmap string PyVal :=
    <["output_format" := PStr output_format]>
    {["use_msa_server" := PBool use_msa_server]} in
  match Scripts.run_structure_prediction w input_file sequence output_dir None kwargs t with
  | (Ok result, t') => (dict_merge {["status" := PStr "success"]} result, t')
  | (Fail (FileNotFoundError m), t') => (error_dict ("File not found: " +:+ m), t')
  | (Fail (ValueError m), t') => (error_dict ("Invalid input: " +:+ m), t')
  | (Fail e, t') => (error_dict (exc_str e), t')
  end.

(** [simple_affinity_prediction] (lines 167-186). *)
Definition simple_affinity_prediction (w : Scripts.World)
    (input_file protein_sequence ligand_smiles ligand_ccd output_dir : option string)
    (use_msa_server : bool) (output_format : string)
    (t : list Scripts.Event) : gmap string PyVal * list Scripts.Event :=
  let kwargs : gmap string PyVal :=
    <["output_format" := PStr output_format]>
    {["use_msa_server" := PBool use_msa_server]} in
  match Scripts.run_affinity_prediction w input_file protein_sequence ligand_smiles
          ligand_ccd output_dir None kwargs t with
  | (Ok result, t') => (dict_merge {["status" := PStr "success"]} result, t')
  | (Fail (FileNotFoundError m), t') => (error_dict ("File not found: " +:+ m), t')
  | (Fail (ValueError m), t') => (error_dict ("Invalid input: " +:+ m), t')
  | (Fail e, t') => (error_dict (exc_str e), t')
  end.

(** ** validate_protein_sequence *)

(** The argument is a string of characters with code points 0 to 255. A
    Python string is taken as the sequence of its code points, because the
    upper-case form of such an argument can hold code points beyond 255. *)
Definition code_points (s : string) : list N :=
  N_of_ascii <$> list_ascii_of_string s.

(** Python's floating-point numbers and the three operations the tool
    applies to them. *)
Record Floats := mkFloats {
  float : Type;
  (** [a / b] for integers [a] and [b], [b] not zero *)
  true_div : Z -> Z -> float;
  (** [x * n] for an integer [n] *)
  mul_int : float -> Z -> float;
  (** [round(x, ndigits)] *)
  round : float -> Z -> float
}.

(** [c.upper()] for a character [c] with a code point up to 255. The
    letters a to z (97 to 122) and the accented letters 224 to 254, of
    which 247, the division sign, is none, move down by 32; the sharp s
    (223) becomes the two letters SS; the micro sign (181) becomes the
    capital mu (924) and the y with diaeresis (255) its capital (376);
    every other character stays. *)
Definition upper_char (c : ascii) : list N :=
  let n := N_of_ascii c in
  if ((97 <=? n) && (n <=? 122))%N then [(n - 32)%N]
  else if (n =? 181)%N then [924%N]
  else if (n =? 223)%N then [83%N; 83%N]
  else if ((224 <=? n) && (n <=? 254) && negb (n =? 247))%N then [(n - 32)%N]
  else if (n =? 255)%N then [376%N]
  else [n].

(** [s.upper()] *)
Fixpoint upper (s : string) : list N :=
  match s with
  | EmptyString => []
  | String c s' => upper_char c ++ upper s'
  end.

(** The class [\s] of a pattern on [str]: the characters for which
    [str.isspace] holds, which are tab to carriage return (9 to 13), the
    four separators and the space (28 to 32), the next-line control (133),
    the no-break space (160), and eighteen code points beyond 255. *)
Definition is_space (n : N) : bool :=
  (((9 <=? n) && (n <=? 13)) || ((28 <=? n) && (n <=? 32))
   || (n =? 133) || (n =? 160) || (n =? 5760)
   || ((8192 <=? n) && (n <=? 8202))
   || (n =? 8232) || (n =? 8233) || (n =? 8239) || (n =? 8287)
   || (n =? 12288))%N.

(** [re.sub(r'\s+', '', s)] *)
Fixpoint remove_whitespace (s : list N) : list N :=
  match s with
  | [] => []
  | c :: s' =>
      if is_space c then remove_whitespace s' else c :: remove_whitespace s'
  end.

(** [s.count(aa)] for a single character [aa]. *)
Fixpoint count_char (aa : N) (s : list N) : nat :=
  match s with
  | [] => 0
  | c :: s' => (if bool_decide (c = aa) then 1 else 0) + count_char aa s'
  end.

Definition valid_aa : list N := code_points "ACDEFGHIKLMNPQRSTVWY".

Record Share (fl : Floats) := mkShare {
  count : nat;
  percentage : float fl
}.
Arguments mkShare {fl} count percentage.
Arguments count {fl} s.
Arguments percentage {fl} s.

(** The dictionary returned on success; [invalid_characters] holds the
    elements of the list, whose order Python leaves open. *)
Record Validation (fl : Floats) := mkValidation {
  sequence_length : nat;
  valid : bool;
  clean_sequence : list N;
  invalid_characters : gset N;
  composition : gmap N (Share fl)
}.
Arguments mkValidation {fl} _ _ _ _ _.
Arguments sequence_length {fl} v.
Arguments valid {fl} v.
Arguments clean_sequence {fl} v.
Arguments invalid_characters {fl} v.
Arguments composition {fl} v.

(** [count / len(clean_seq)]: raises on a zero length. *)
Definition divide (fl : Floats) (count len : nat) : res PyExc (float fl) :=
  if len =? 0 then Fail (ZeroDivisionError "division by zero")
  else Ok (true_div fl (Z.of_nat count) (Z.of_nat len)).

(** The entry the loop writes for a letter that occurs in the sequence. *)
Definition share_of (fl : Floats) (clean_seq : list N) (aa : N) : Share fl :=
  mkShare (count_char aa clean_seq)
    (round fl
       (mul_int fl
          (true_div fl (Z.of_nat (count_char aa clean_seq))
             (Z.of_nat (length clean_seq)))
          100)
       2).

(** The loop [for aa in valid_aa] (lines 412-418). *)
Fixpoint compose (fl : Floats) (clean_seq : list N) (letters : list N)
    (composition : gmap N (Share fl)) : res PyExc (gmap N (Share fl)) :=
  match letters with
  | [] => Ok composition
  | aa :: letters' =>
      let count := count_char aa clean_seq in
      if 0 <? count then
        match divide fl count (length clean_seq) with
        | Fail e => Fail e
        | Ok q =>
            compose fl clean_seq letters'
              (<[aa := mkShare count (round fl (mul_int fl q 100) 2)]> composition)
        end
      else compose fl clean_seq letters' composition
  end.

(** [validate_protein_sequence] (lines 390-423): [Ok] is the dictionary with
    status "success", [Fail] the one with status "error" and the message. *)
Definition validate_protein_sequence (fl : Floats) (sequence : string)
  : res string (Validation fl) :=
  let clean_seq := remove_whitespace (upper sequence) in
  let invalid_chars : gset N :=
    list_to_set clean_seq ∖ list_to_set valid_aa in
  match compose fl clean_seq valid_aa ∅ with
  | Ok composition =>
      Ok (mkValidation (length clean_seq)
            (size invalid_chars =? 0)
            clean_seq
            invalid_chars
            composition)
  | Fail e => Fail (exc_str e)
  end.

End Server.

(* ===================================================================== *)
(** * Sample data *)
(* ===================================================================== *)

Module Demo.
Import Py Jobs Scripts Server.

Definition demo_command : Command :=
  mkCommand "/srv/boltz/scripts/structure_prediction.py"
    [("output_format", AStr "pdb"); ("sequence", AStr "MVLS");
     ("no-msa-server", AFlag); ("output", ANone)].

(** A job that is created, started, fails with exit status 1, and is then
    cancelled. *)
Definition demo_ops : list Op :=
  [Create demo_command "demo" 0;
   MarkRunning "job-0" 7 1;
   MarkTerminal "job-0" FFailed (Some 1%Z) (PError "exit status 1") 2;
   Cancel "job-0" 3].

Definition demo_job : JobRecord :=
  mkJob "job-0" "demo" demo_command failed 0 (Some 1) (Some 2) None
    (Some 1%Z) None (Some "exit status 1") "job-0".

(** A job that is created and whose process cannot be spawned. *)
Definition spawn_failure_ops : list Op :=
  [Create demo_command "demo" 0;
   MarkTerminal "job-0" FFailed None (PError "boltz: command not found") 1].

(** The job manager after [demo_ops], the job having written three lines. *)
Definition finished : Orchestrator :=
  mkOrchestrator (fold_left step demo_ops empty)
    (append "job-0" ["loading"; "predicting"; "failed"] ∅).

(** The job manager with one job just submitted. *)
Definition submitted : Orchestrator :=
  snd (submitJob "/srv/boltz/scripts/structure_prediction.py"
         [("output_format", AStr "pdb"); ("sequence", AStr "MVLS")]
         "demo" 0 fresh_orchestrator).

(** A world in which every path exists, every file operation succeeds, the
    scans find nothing, and the process exits with [code] after writing
    [out] and [err]. *)
Definition world (code : Z) (out err : string) : World :=
  mkWorld
    (fun p => p)
    (fun a b => a +:+ "/" +:+ b)
    (fun _ _ => true)
    (fun _ _ => None)
    (fun _ _ _ => None)
    (fun _ _ => Ok (mkCompleted code out err))
    (fun _ _ => Ok (PDict ∅))
    (fun _ _ => Ok ∅)
    (fun _ _ => None)
    (fun _ => "")
    (fun argv code => "Command returned non-zero exit status " +:+ pretty code).

Definition demo_argv : list string :=
  ["boltz"; "predict"; "in.yaml"; "--out_dir"; "out"; "--output_format"; "pdb";
   "--use_msa_server"].

(** The string of one character, the sharp s (code point 223), and the
    string made of A, a no-break space (code point 160) and C. *)
Definition sharp_s : string := String "223"%char EmptyString.

Definition spaced : string :=
  String "A"%char (String "160"%char (String "C"%char EmptyString)).

(** Floating-point results kept as the expression that produced them. *)
Inductive Sym :=
| SDiv (a b : Z)
| SMul (x : Sym) (n : Z)
| SRound (x : Sym) (ndigits : Z).

Definition symbolic : Floats := mkFloats Sym SDiv SMul SRound.

End Demo.

(* ===================================================================== *)
(** * Further definitions: traces, output scans, batch submission *)
(* ===================================================================== *)

Module Traces.
Import Py Scripts.

(** Events that neither create nor remove a file. *)
Definition leaves_files (ev : Event) : Prop :=
  match ev with
  | Mkdir _ | RunProcess _ => True
  | WriteYaml _ _ | Unlink _ => False
  end.

(** A computation that, however it ends, adds only events satisfying [P]
    to the trace. *)
Definition emits {A : Type} (P : Event -> Prop) (c : M A) : Prop :=
  forall t r t', c t = (r, t') -> exists evs, t' = t ++ evs /\ Forall P evs.

End Traces.

Module Outputs.

(** What [json.load] gives; [F] stands for Python's floats. *)
Inductive Json (F : Type) :=
| JNull
| JBool (b : bool)
| JInt (z : Z)
| JFloat (x : F)
| JStr (s : string)
| JList (l : list (Json F))
| JDict (d : gmap string (Json F)).
Arguments JNull {F}.
Arguments JBool {F} b.
Arguments JInt {F} z.
Arguments JFloat {F} x.
Arguments JStr {F} s.
Arguments JList {F} l.
Arguments JDict {F} d.

(** One path yielded by [pred_dir.rglob("*")], with what the loops ask of
    it: [file.is_file()], [str(file.relative_to(output_dir))], [file.name],
    [file.suffix], and the outcome of opening the file and loading it as
    JSON ([None] when either raises). *)
Record Entry (F : Type) := mkEntry {
  is_file : bool;
  rel_path : string;
  name : string;
  suffix : string;
  content : option (Json F)
}.
Arguments mkEntry {F} _ _ _ _ _.
Arguments is_file {F} e.
Arguments rel_path {F} e.
Arguments name {F} e.
Arguments suffix {F} e.
Arguments content {F} e.

(** [needle in hay] for strings. *)
Fixpoint contains (needle hay : string) : bool :=
  String.prefix needle hay
  || match hay with
     | EmptyString => false
     | String _ hay' => contains needle hay'
     end.

(** [file.suffix in ['.pdb', '.cif']] *)
Definition is_structure {F : Type} (e : Entry F) : bool :=
  bool_decide (suffix e = ".pdb") || bool_decide (suffix e = ".cif").

(** [isinstance(value, (int, float))]; a Python bool is an int. *)
Definition is_number {F : Type} (v : Json F) : bool :=
  match v with
  | JBool _ | JInt _ | JFloat _ => true
  | _ => false
  end.

Module Structure.

(** The dictionary returned by [find_output_files] of
    structure_prediction.py. *)
Record Files := mkFiles {
  structures : list string;
  confidence : list string;
  other : list string
}.

(** The body of the loop (lines 138-145). *)
Definition add {F : Type} (files : Files) (file : Entry F) : Files :=
  if is_file file then
    if is_structure file then
      mkFiles (structures files ++ [rel_path file]) (confidence files) (other files)
    else if contains "confidence" (name file) && bool_decide (suffix file = ".json") then
      mkFiles (structures files) (confidence files ++ [rel_path file]) (other files)
    else
      mkFiles (structures files) (confidence files) (other files ++ [rel_path file])
  else files.

(** [find_output_files] (lines 127-147), given whether the predictions
    directory exists and what its recursive listing yields. *)
Definition find_output_files {F : Type} (pred_dir_exists : bool)
    (listing : list (Entry F)) : Files :=
  let files := mkFiles [] [] [] in
  if pred_dir_exists then fold_left add listing files else files.

End Structure.

Module Affinity.

(** The dictionary returned by [find_output_files] of
    affinity_prediction.py. *)
Record Files := mkFiles {
  structures : list string;
  affinity : list string;
  confidence : list string;
  other : list string
}.

(** The body of the loop (lines 207-216). *)
Definition add {F : Type} (files : Files) (file : Entry F) : Files :=
  if is_file file then
    if is_structure file then
      mkFiles (structures files ++ [rel_path file]) (affinity files)
        (confidence files) (other files)
    else if contains "affinity" (name file) && bool_decide (suffix file = ".json") then
      mkFiles (structures files) (affinity files ++ [rel_path file])
        (confidence files) (other files)
    else if contains "confidence" (name file) && bool_decide (suffix file = ".json") then
      mkFiles (structures files) (affinity files)
        (confidence files ++ [rel_path file]) (other files)
    else
      mkFiles (structures files) (affinity files) (confidence files)
        (other files ++ [rel_path file])
  else files.

(** [find_output_files] (lines 195-218). *)
Definition find_output_files {F : Type} (pred_dir_exists : bool)
    (listing : list (Entry F)) : Files :=
  let files := mkFiles [] [] [] [] in
  if pred_dir_exists then fold_left add listing files else files.

(** The dictionary returned by [parse_affinity_results]. *)
Record Results (F : Type) := mkResults {
  affinity_files : list string;
  affinity_values : gmap string (Json F);
  confidence_files : list string;
  structure_files : list string
}.
Arguments mkResults {F} _ _ _ _.
Arguments affinity_files {F} r.
Arguments affinity_values {F} r.
Arguments confidence_files {F} r.
Arguments structure_files {F} r.

(** The [try] block (lines 170-178): the numeric entries of a file that
    loads as a dictionary are stored over the values collected so far. *)
Definition read_values {F : Type} (values : gmap string (Json F))
    (file : Entry F) : gmap string (Json F) :=
  match content file with
  | Some (JDict data) => filter (λ kv, is_number kv.2 = true) data ∪ values
  | _ => values
  end.

(** The body of the loop (lines 163-182). *)
Definition record {F : Type} (results : Results F) (file : Entry F) : Results F :=
  if is_file file then
    if bool_decide (suffix file = ".json") then
      if contains "affinity" (name file) && negb (contains "confidence" (name file)) then
        mkResults (affinity_files results ++ [rel_path file])
          (read_values (affinity_values results) file)
          (confidence_files results) (structure_files results)
      else if contains "confidence" (name file) then
        mkResults (affinity_files results) (affinity_values results)
          (confidence_files results ++ [rel_path file]) (structure_files results)
      else results
    else if is_structure file then
      mkResults (affinity_files results) (affinity_values results)
        (confidence_files results) (structure_files results ++ [rel_path file])
    else results
  else results.

(** [parse_affinity_results] (lines 148-184). *)
Definition parse_affinity_results {F : Type} (pred_dir_exists : bool)
    (listing : list (Entry F)) : Results F :=
  let results := mkResults [] ∅ [] [] in
  if negb pred_dir_exists then results else fold_left record listing results.

End Affinity.

End Outputs.

Module Batch.
Import Py Server.

(** The args mapping built by [submit_batch_structure_prediction] (lines
    357-367). *)
Definition batch_args (temp_sequences_file : string) (output_dir : option string)
    (use_msa_server use_potentials : bool) (output_format : string)
  : list (string * Jobs.ArgValue) :=
  common_args output_dir use_msa_server use_potentials
    [("batch-sequences-file", Jobs.AStr temp_sequences_file);
     ("output_format", Jobs.AStr output_format)].

(** [submit_batch_structure_prediction] (lines 344-373). The temporary
    identifier comes from [generate_temp_id], the job manager's
    [_generate_temp_id], which may change the job manager; [write_json]
    stands for [open] and [json.dump] and says whether they raise. The
    third component lists the files written. *)
Definition submit_batch_structure_prediction (SCRIPTS_DIR : string)
    (generate_temp_id : Jobs.Orchestrator -> string * Jobs.Orchestrator)
    (write_json : string -> PyVal -> option PyExc)
    (sequences : list string) (output_dir : option string)
    (use_msa_server use_potentials : bool) (output_format : string)
    (job_name : option string) (now : nat) (o : Jobs.Orchestrator)
  : res PyExc (res Jobs.ApiError (gmap string PyVal))
    * Jobs.Orchestrator * list (string * PyVal) :=
  match sequences with
  | [] => (Ok (Ok (error_dict "No sequences provided")), o, [])
  | _ :: _ =>
      let script_path := script_in SCRIPTS_DIR "structure_prediction.py" in
      let '(temp_id, o) := generate_temp_id o in
      let temp_sequences_file := "/tmp/batch_sequences_" +:+ temp_id +:+ ".json" in
      let content : PyVal := PDict {["sequences" := PList (PStr <$> sequences)]} in
      match write_json temp_sequences_file content with
      | Some e => (Fail e, o, [(temp_sequences_file, content)])
      | None =>
          let args := batch_args temp_sequences_file output_dir use_msa_server
                        use_potentials output_format in
          let '(r, o) :=
            submit_job script_path args
              (or_else job_name
                 ("batch_structure_" +:+ pretty (length sequences) +:+ "_sequences"))
              now o in
          (Ok r, o, [(temp_sequences_file, content)])
      end
  end.

End Batch.

Module Demo2.
Import Py Jobs Scripts Server Outputs.

(** The args mapping of a structure submission for a sequence, without the
    MSA server and with potentials. *)
Definition sequence_args : list (string * ArgValue) :=
  [("output_format", AStr "pdb"); ("sequence", AStr "MVLS");
   ("no-msa-server", AFlag); ("use-potentials", AFlag)].

(** The args mapping of an affinity submission for a protein and a SMILES
    string. *)
Definition ligand_args : list (string * ArgValue) :=
  [("output_format", AStr "pdb"); ("protein-seq", AStr "MVLS");
   ("ligand-smiles", AStr "CCO"); ("output", AStr "out")].

(** A world like [Demo.world] in which the program cannot be started. *)
Definition no_program : World :=
  mkWorld
    (fun p => p)
    (fun a b => a +:+ "/" +:+ b)
    (fun _ _ => true)
    (fun _ _ => None)
    (fun _ _ _ => None)
    (fun _ _ => Fail (FileNotFoundError "[Errno 2] No such file or directory: 'boltz'"))
    (fun _ _ => Ok (PDict ∅))
    (fun _ _ => Ok ∅)
    (fun _ _ => None)
    (fun _ => "")
    (fun argv code => "").

(** A world like [Demo.world] in which no path exists. *)
Definition empty_disk : World :=
  mkWorld
    (fun p => p)
    (fun a b => a +:+ "/" +:+ b)
    (fun _ _ => false)
    (fun _ _ => None)
    (fun _ _ _ => None)
    (fun _ _ => Ok (mkCompleted 0 "" ""))
    (fun _ _ => Ok (PDict ∅))
    (fun _ _ => Ok ∅)
    (fun _ _ => None)
    (fun _ => "")
    (fun argv code => "").

(** A predictions directory with a structure, an affinity file, a file
    whose name says both "affinity" and "confidence", and a directory. *)
Definition listing : list (Entry Z) :=
  [mkEntry true "predictions/x/x_model_0.pdb" "x_model_0.pdb" ".pdb" None;
   mkEntry true "predictions/x/affinity_x.json" "affinity_x.json" ".json"
     (Some (JDict (<["affinity_pred_value" := JFloat 2%Z]>
                   {["converged" := JBool true; "note" := JStr "ok"]})));
   mkEntry true "predictions/x/confidence_affinity_x.json"
     "confidence_affinity_x.json" ".json" (Some (JDict {["score" := JInt 1]}));
   mkEntry false "predictions/x" "x" "" None].

(** A sequence of 100 residues. *)
Definition long_sequence : string :=
  "MVLSEGEWQLVLHVWAKVEAMVLSEGEWQLVLHVWAKVEAMVLSEGEWQLVLHVWAKVEAMVLSEGEWQLVLHVWAKVEAMVLSEGEWQLVLHVWAKVEA".

End Demo2.

(* ===================================================================== *)
(** * Part V. Properties of the job manager *)
(* ===================================================================== *)

Section JobLifecycle.
Import Jobs.

Lemma newId_inj (a b : nat) : newId a = newId b → a = b.
Proof.
  unfold newId. intros H. simpl in H.
  injection H as H. by apply (inj (pretty : nat → string)).
Qed.

Lemma ids_fresh_empty : ids_fresh empty.
Proof. intros k _. apply lookup_empty. Qed.

Lemma markRunning_spec id h now r r' :
  markRunning id h now r = Ok r' →
  ∃ j j', jobs r' = <[id := j']> (jobs r) ∧ jobs r !! id = Some j
          ∧ status j = pending ∧ status j' = running ∧ issued r' = issued r.
Proof.
  unfold markRunning. destruct (jobs r !! id) as [j|] eqn:Hj; [|done].
  destruct (status j) eqn:Hs; try done.
  intros [= <-]. eexists j, _. split; [reflexivity|done].
Qed.

Lemma markTerminal_spec id f code p now r r' :
  markTerminal id f code p now r = Ok r' →
  ∃ j j', jobs r' = <[id := j']> (jobs r) ∧ jobs r !! id = Some j
          ∧ may_finish (status j) f = true
          ∧ status j' = final_status f ∧ issued r' = issued r.
Proof.
  unfold markTerminal. destruct (jobs r !! id) as [j|] eqn:Hj; [|done].
  destruct (may_finish (status j) f) eqn:Hg; [|done].
  intros [= <-]. eexists j, _. split; [reflexivity|done].
Qed.

Lemma may_finish_moves s f :
  may_finish s f = true → moves s (final_status f) = true.
Proof. by destruct s, f. Qed.

Lemma step_effect r o : effect r (step r o).
Proof.
  destruct o as [cmd name now|id h now|id f code p now|id now]; simpl.
  - by eapply eff_new.
  - destruct (markRunning id h now r) as [r'|e] eqn:H; [|by apply eff_none].
    apply markRunning_spec in H as (j & j' & Hr & Hj & Hs & Hs' & Hi).
    eapply eff_move; eauto. by rewrite Hs, Hs'.
  - destruct (markTerminal id f code p now r) as [r'|e] eqn:H; [|by apply eff_none].
    apply markTerminal_spec in H as (j & j' & Hr & Hj & Hg & Hs' & Hi).
    eapply eff_move; eauto. rewrite Hs'. by apply may_finish_moves.
  - unfold cancel. destruct (jobs r !! id) as [j|] eqn:Hj; [|by apply eff_none].
    destruct (is_terminal (status j)); [by apply eff_none|].
    destruct (markTerminal _ _ _ _ _ r) as [r'|e] eqn:H; [|by apply eff_none].
    apply markTerminal_spec in H as (j0 & j' & Hr & Hj0 & Hg & Hs' & Hi).
    eapply eff_move; eauto. rewrite Hs'. by apply may_finish_moves.
Qed.

Lemma effect_fresh r r' : effect r r' → ids_fresh r → ids_fresh r'.
Proof.
  intros [-> |id j j' Hj _ Hr Hi|j Hr _ Hi] Hf k Hk; [by apply Hf|..].
  - rewrite Hr. rewrite Hi in Hk.
    destruct (decide (id = newId k)) as [-> |Hne].
    + rewrite (Hf k Hk) in Hj. done.
    + rewrite lookup_insert_ne by done. by apply Hf.
  - rewrite Hr. rewrite Hi in Hk.
    rewrite lookup_insert_ne; [apply Hf; lia|].
    intros Heq%newId_inj. lia.
Qed.

Lemma effect_known r r' id s :
  effect r r' → ids_fresh r → status_of id r = Some s →
  ∃ s', status_of id r' = Some s' ∧ (s = s' ∨ moves s s' = true).
Proof.
  unfold status_of.
  intros [-> |id0 j j' Hj Ht Hr Hi|j Hr _ Hi] Hf Hs.
  - exists s. auto.
  - rewrite Hr. destruct (decide (id0 = id)) as [-> |Hne].
    + rewrite lookup_insert_eq. rewrite Hj in Hs. simplify_eq/=. eauto.
    + rewrite lookup_insert_ne by done. eauto.
  - rewrite Hr. destruct (decide (newId (issued r) = id)) as [<-|Hne].
    + rewrite (Hf (issued r)) in Hs by lia. done.
    + rewrite lookup_insert_ne by done. eauto.
Qed.

Lemma effect_unknown r r' id :
  effect r r' → status_of id r = None →
  status_of id r' = None ∨ status_of id r' = Some pending.
Proof.
  unfold status_of.
  intros [-> |id0 j j' Hj Ht Hr Hi|j Hr Hp Hi] Hs.
  - auto.
  - rewrite Hr. destruct (decide (id0 = id)) as [-> |Hne].
    + rewrite Hj in Hs. done.
    + rewrite lookup_insert_ne by done. auto.
  - rewrite Hr. destruct (decide (newId (issued r) = id)) as [<-|Hne].
    + rewrite lookup_insert_eq. simpl. rewrite Hp. auto.
    + rewrite lookup_insert_ne by done. auto.
Qed.

Lemma history_known id r ops s :
  status_of id r = Some s →
  history id r ops =
    s :: match ops with [] => [] | o :: ops' => history id (step r o) ops' end.
Proof. intros H. destruct ops; simpl; by rewrite H. Qed.

Lemma history_follows id ops : ∀ r s,
  ids_fresh r → status_of id r = Some s → follows moves s (history id r ops) = true.
Proof.
  induction ops as [|o ops IH]; intros r s Hf Hs.
  - rewrite (history_known _ _ _ _ Hs). simpl.
    by rewrite bool_decide_eq_true_2.
  - rewrite (history_known _ _ _ _ Hs). cbn [follows].
    rewrite bool_decide_eq_true_2 by done. simpl.
    destruct (effect_known _ _ id s (step_effect r o) Hf Hs) as (s' & Hs' & Hedge).
    specialize (IH (step r o) s' (effect_fresh _ _ (step_effect r o) Hf) Hs').
    rewrite (history_known _ _ _ _ Hs') in IH |- *.
    cbn [follows] in IH |- *.
    rewrite bool_decide_eq_true_2 in IH by done. simpl in IH. rewrite IH.
    destruct Hedge as [-> | ->].
    + by rewrite bool_decide_eq_true_2.
    + by rewrite orb_true_r.
Qed.

Lemma history_lifecycle id ops : ∀ r,
  ids_fresh r → status_of id r = None → lifecycle moves (history id r ops) = true.
Proof.
  induction ops as [|o ops IH]; intros r Hf Hs; simpl; rewrite Hs; simpl; [done|].
  destruct (effect_unknown _ _ id (step_effect r o) Hs) as [Hn|Hp].
  - apply IH; [|done]. by eapply effect_fresh, Hf; apply step_effect.
  - pose proof (history_follows id ops (step r o) pending
                  (effect_fresh _ _ (step_effect r o) Hf) Hp) as H.
    rewrite (history_known _ _ _ _ Hp) in H |- *.
    cbn [follows] in H. simpl.
    rewrite bool_decide_eq_true_2 in H by done. done.
Qed.

Lemma follows_inside edge s l1 s' l2 :
  follows edge s (l1 ++ s' :: l2) = true → follows edge s' l2 = true.
Proof.
  revert s. induction l1 as [|x l1 IH]; intros s; simpl.
  - by intros [_ ?]%andb_prop.
  - intros [_ ?]%andb_prop. eauto.
Qed.

Lemma follows_terminal s l :
  is_terminal s = true → follows moves s l = true → ∀ s', s' ∈ l → s' = s.
Proof.
  intros Ht. induction l as [|x l IH]; simpl; intros H s' Hin.
  - by apply elem_of_nil in Hin.
  - apply andb_prop in H as [Hx Hl].
    assert (x = s) as ->.
    { apply orb_prop in Hx as [Hx|Hx].
      - by apply bool_decide_eq_true in Hx.
      - by destruct s, x. }
    apply elem_of_cons in Hin as [-> |Hin]; [done|]. by apply IH.
Qed.

(** C1, as amended. From an empty registry, whatever operations are issued,
    the statuses a job shows start at pending and move only along
    pending -> running, pending -> cancelled, running -> completed, failed
    or cancelled, and pending -> failed, the edge of a job whose process
    could not be spawned; once a terminal status is shown every later
    status is that same status, so neither pending nor running is seen
    again. *)
Theorem job_lifecycle (ops : list Op) (id : string) :
  lifecycle moves (history id empty ops) = true
  ∧ (∀ s s', moves s s' = true ↔
       transition s s' = true ∨ (s = pending ∧ s' = failed))
  ∧ (∀ l1 s l2, history id empty ops = l1 ++ s :: l2 →
       is_terminal s = true →
       ∀ s', s' ∈ l2 → s' = s ∧ s' ≠ pending ∧ s' ≠ running).
Proof.
  assert (lifecycle moves (history id empty ops) = true) as Hl.
  { apply history_lifecycle; [apply ids_fresh_empty|]. done. }
  split; [done|].
  split.
  { intros s s'. unfold moves. rewrite orb_true_iff.
    split; (intros [H|H]; [by left|right]).
    - by destruct s, s'.
    - by destruct H as [-> ->]. }
  intros l1 s l2 Heq Ht s' Hin.
  rewrite Heq in Hl.
  assert (follows moves s l2 = true) as Hf.
  { destruct l1 as [|x l1]; simpl in Hl; apply andb_prop in Hl as [_ Hl].
    - done.
    - by eapply follows_inside. }
  rewrite (follows_terminal s l2 Ht Hf s' Hin).
  by destruct s.
Qed.

Lemma effect_issued r r' :
  effect r r' →
  (∀ id, is_Some (jobs r !! id) → ∃ k, k < issued r ∧ id = newId k) →
  ∀ id, is_Some (jobs r' !! id) → ∃ k, k < issued r' ∧ id = newId k.
Proof.
  intros [-> | id0 j j' Hj _ Hr Hi | j Hr _ Hi] Hinv id; [by apply Hinv|..];
    rewrite Hr, Hi.
  - destruct (decide (id0 = id)) as [<- | Hne].
    + intros _. apply Hinv. by rewrite Hj.
    + rewrite lookup_insert_ne by done. apply Hinv.
  - destruct (decide (newId (issued r) = id)) as [<- | Hne].
    + intros _. exists (issued r). split; [lia|done].
    + rewrite lookup_insert_ne by done. intros (k & Hk & ->)%Hinv.
      exists k. split; [lia|done].
Qed.

(** In a registry reached from the empty one, every record sits under an
    identifier that the generator has issued. *)
Lemma records_issued ops : ∀ r,
  (∀ id, is_Some (jobs r !! id) → ∃ k, k < issued r ∧ id = newId k) →
  ∀ id, is_Some (jobs (fold_left step ops r) !! id) →
        ∃ k, k < issued (fold_left step ops r) ∧ id = newId k.
Proof.
  induction ops as [|o ops IH]; intros r Hinv; simpl; [done|].
  apply IH. by apply (effect_issued r), Hinv; apply step_effect.
Qed.

End JobLifecycle.

Section JobTools.
Import Jobs Server.

Lemma cancel_terminal id now r j :
  jobs r !! id = Some j → is_terminal (status j) = true →
  cancel id now r = (Ok (status j), r).
Proof. intros Hj Ht. unfold cancel. by rewrite Hj, Ht. Qed.

Lemma cancel_live id now r j :
  jobs r !! id = Some j → is_terminal (status j) = false →
  ∃ r' j', cancel id now r = (Ok cancelled, r')
           ∧ jobs r' !! id = Some j' ∧ status j' = cancelled.
Proof.
  intros Hj Ht. unfold cancel, markTerminal. rewrite Hj, Ht.
  assert (may_finish (status j) FCancelled = true) as -> by (by destruct (status j)).
  eexists _, _. split; [reflexivity|]. simpl.
  by rewrite lookup_insert_eq.
Qed.

(** C3. Cancelling a job whose record is terminal returns that status and
    changes nothing; and for any known job, two cancellations in a row
    return the same terminal status, the second leaving the records as the
    first left them. *)
Theorem cancel_job_idempotent (id : string) (now now' : nat)
    (o : Orchestrator) (j : JobRecord) :
  jobs (registry o) !! id = Some j →
  (is_terminal (status j) = true → cancel_job id now o = (Ok (status j), o))
  ∧ ∃ s o', is_terminal s = true
            ∧ cancel_job id now o = (Ok s, o')
            ∧ cancel_job id now' o' = (Ok s, o').
Proof.
  intros Hj. destruct o as [r sink]. simpl in Hj.
  unfold cancel_job, cancelJob. simpl. split.
  - intros Ht. by rewrite (cancel_terminal _ _ _ _ Hj Ht).
  - destruct (is_terminal (status j)) eqn:Ht.
    + exists (status j), (mkOrchestrator r sink). simpl.
      by rewrite (cancel_terminal id now r j Hj Ht),
                 (cancel_terminal id now' r j Hj Ht).
    + destruct (cancel_live id now r j Hj Ht) as (r' & j' & Hc & Hj' & Hs').
      exists cancelled, (mkOrchestrator r' sink). simpl. rewrite Hc.
      split; [done|]. split; [done|].
      rewrite (cancel_terminal id now' r' j' Hj') by (by rewrite Hs').
      by rewrite Hs'.
Qed.

(** C4. [get_job_result] fails with NotFound on an id that has no record,
    as is every id the generator has not issued in a job manager reached
    from start-up; it fails with NotReady on a pending or running job; and
    for a failed or cancelled job it succeeds with the error stored in the
    record. *)
Theorem get_job_result_cases (id : string) (o : Orchestrator) :
  (jobs (registry o) !! id = None → get_job_result id o = Fail NotFound)
  ∧ (∀ ops, registry o = fold_left step ops empty →
       (∀ k, k < issued (registry o) → id ≠ newId k) →
       get_job_result id o = Fail NotFound)
  ∧ (∀ j, jobs (registry o) !! id = Some j →
       (status j = pending ∨ status j = running →
          get_job_result id o = Fail NotReady)
       ∧ (status j = failed ∨ status j = cancelled →
            get_job_result id o = Ok (StoredError (error j)))).
Proof.
  unfold get_job_result, getJobResult, get. split; [by intros ->|]. split.
  - intros ops Hops Hfresh.
    destruct (jobs (registry o) !! id) as [j|] eqn:Hj; [|done].
    exfalso. rewrite Hops in Hj, Hfresh.
    destruct (records_issued ops empty) with (id := id) as (k & Hk & ->).
    + intros i [x Hx]. unfold empty in Hx. simpl in Hx.
      by rewrite lookup_empty in Hx.
    + by rewrite Hj.
    + by apply (Hfresh k).
  - intros j ->. split; intros [-> | ->]; done.
Qed.

Lemma tail_suffix id n sink : tail id n sink `suffix_of` tail id 0 sink.
Proof.
  unfold tail. destruct n; [done|]. apply suffix_drop.
Qed.

Lemma tail_length id n sink : 0 < n → length (tail id n sink) ≤ n.
Proof.
  unfold tail. destruct n; [lia|]. intros _. rewrite length_drop. lia.
Qed.

Lemma tail_exact id n sink :
  0 < n →
  length (tail id n sink) = n `min` length (default [] (sink !! id)).
Proof.
  unfold tail. destruct n; [lia|]. intros _. rewrite length_drop. lia.
Qed.

Lemma submitJob_log script a name now o0 id o n :
  submitJob script a name now o0 = (Ok id, o) →
  getJobLog id n o = Ok (mkLogView [] 0).
Proof.
  unfold submitJob. case_bool_decide; [done|]. unfold create. simpl.
  intros [= <- <-]. unfold getJobLog, get, tail. simpl.
  rewrite !lookup_insert_eq. simpl. by destruct n.
Qed.

(** C5. The full log of a known job, which [get_job_log id 0] returns, is
    the sequence of lines the log sink holds for it, and appending output
    extends it at the end. For [n > 0], [get_job_log id n] returns the last
    [n] of these lines, or all of them when there are fewer: at most [n]
    lines, and a suffix of the full log. When the sink holds no line for
    the job, as for a job that has just been submitted, the call succeeds
    with no lines. *)
Theorem get_job_log_tail (id : string) (n : nat) (o : Orchestrator)
    (j : JobRecord) :
  jobs (registry o) !! id = Some j →
  let held := default [] (logsink o !! logHandle j) in
  ∃ ls,
    get_job_log id 0 o = Ok (mkLogView held (length held))
    ∧ get_job_log id n o = Ok (mkLogView ls (length held))
    ∧ (0 < n → length ls ≤ n ∧ length ls = n `min` length held
               ∧ ls `suffix_of` held)
    ∧ (held = [] → ls = [])
    ∧ (∀ output,
         get_job_log id 0
           (mkOrchestrator (registry o) (append (logHandle j) output (logsink o)))
         = Ok (mkLogView (held ++ output) (length (held ++ output))))
    ∧ (∀ script a name now o0,
         submitJob script a name now o0 = (Ok id, o) →
         held = [] ∧ get_job_log id n o = Ok (mkLogView [] 0)).
Proof.
  intros Hj held. unfold get_job_log, getJobLog, get. rewrite Hj. simpl.
  rewrite Hj.
  exists (tail (logHandle j) n (logsink o)).
  split; [reflexivity|]. split; [reflexivity|]. split; [|split; [|split]].
  - intros Hn. split; [by apply tail_length|].
    split; [by apply tail_exact | apply tail_suffix].
  - intros Hall. pose proof (tail_suffix (logHandle j) n (logsink o)) as Hs.
    unfold tail at 2 in Hs. fold held in Hs. rewrite Hall in Hs.
    by apply suffix_nil_inv in Hs.
  - intros output. unfold tail, append. by rewrite lookup_insert_eq.
  - intros script a name now o0 Hsub.
    pose proof (submitJob_log _ _ _ _ _ _ _ n Hsub) as Hn.
    pose proof (submitJob_log _ _ _ _ _ _ _ 0 Hsub) as H0.
    unfold getJobLog, get in Hn, H0. rewrite Hj in Hn, H0.
    split; [|done].
    unfold tail in H0. fold held in H0. by injection H0 as ->.
Qed.

End JobTools.

(* ===================================================================== *)
(** * Part VI. Properties of the submit tools *)
(* ===================================================================== *)

Section SubmitTools.
Import Py Jobs Server.

Lemma given_if_given o : given o = false → if_given o = None.
Proof.
  destruct o as [s|]; simpl; [|done].
  by destruct (bool_decide (s = "")).
Qed.

Lemma given_true_if_given o : given o = true → ∃ s, if_given o = Some s ∧ o = Some s.
Proof.
  destruct o as [s|]; simpl; [|done].
  destruct (bool_decide (s = "")); [done|]. eauto.
Qed.

Lemma dict_set_other {V : Type} (k k' : string) (v v' : V) (d : list (string * V)) :
  k' ≠ k → (k', v') ∈ dict_set k v d ↔ (k', v') ∈ d.
Proof.
  intros Hne. induction d as [|[k0 v0] d IH]; simpl.
  - rewrite list_elem_of_singleton. split; [|by intros ?%elem_of_nil].
    intros [= ? ?]. done.
  - case_bool_decide as Hk.
    + subst k0. rewrite !elem_of_cons. split; intros [[= ? ?]|?]; auto; done.
    + rewrite !elem_of_cons, IH. done.
Qed.

Lemma dict_set_here {V : Type} (k : string) (v : V) (d : list (string * V)) :
  (k, v) ∈ dict_set k v d.
Proof.
  induction d as [|[k0 v0] d IH]; simpl.
  - apply list_elem_of_here.
  - case_bool_decide; [apply list_elem_of_here|by apply list_elem_of_further].
Qed.

Lemma common_args_other od msa pot args k v :
  k ≠ "output" → k ≠ "no-msa-server" → k ≠ "use-potentials" →
  (k, v) ∈ common_args od msa pot args ↔ (k, v) ∈ args.
Proof.
  intros H1 H2 H3. unfold common_args.
  destruct (if_given od), msa, pot; simpl;
    rewrite ?dict_set_other by done; done.
Qed.

(** The structure tool always hands over an [output_format] entry. *)
Lemma structure_args_output_format inf seq od msa pot fmt args :
  structure_args inf seq od msa pot fmt = Some args →
  ("output_format", AStr fmt) ∈ args.
Proof.
  unfold structure_args.
  destruct (if_given inf) as [f|]; [|destruct (if_given seq) as [q|]; [|done]];
    intros [= <-]; apply common_args_other; try done;
    simpl; apply list_elem_of_here.
Qed.

(** C6. A structure submission with neither [input_file] nor [sequence],
    and an affinity submission with neither [input_file] nor a protein
    sequence together with a ligand, return the error dictionary at once and
    leave the job manager exactly as it was: no job is created. *)
Theorem malformed_submission_rejected (SCRIPTS_DIR : string)
    (input_file sequence protein_sequence ligand_smiles ligand_ccd
       output_dir : option string)
    (use_msa_server use_potentials : bool) (output_format : string)
    (job_name : option string) (now : nat) (o : Orchestrator) :
  given input_file = false →
  (given sequence = false →
     submit_structure_prediction SCRIPTS_DIR input_file sequence output_dir
       use_msa_server use_potentials output_format job_name now o
     = (Ok (error_dict "Must provide either input_file or sequence"), o))
  ∧ (given protein_sequence && (given ligand_smiles || given ligand_ccd) = false →
     submit_affinity_prediction SCRIPTS_DIR input_file protein_sequence
       ligand_smiles ligand_ccd output_dir
       use_msa_server use_potentials output_format job_name now o
     = (Ok (error_dict
              "Must provide either input_file OR (protein_sequence + ligand)"), o)).
Proof.
  intros Hf. split.
  - intros Hs. unfold submit_structure_prediction, structure_args.
    by rewrite (given_if_given _ Hf), (given_if_given _ Hs).
  - intros Hp. unfold submit_affinity_prediction, affinity_args.
    rewrite (given_if_given _ Hf).
    destruct (given protein_sequence) eqn:Hq; simpl in Hp.
    + rewrite Hp. by destruct (if_given protein_sequence).
    + by rewrite (given_if_given _ Hq).
Qed.

Lemma script_in_nonempty d n : script_in d n ≠ "".
Proof.
  unfold script_in. destruct d; simpl; done.
Qed.

Lemma submit_job_creates script args name now o :
  script ≠ "" →
  ∃ j o', submit_job script args name now o = (Ok {["job_id" := PStr (job_id j)]}, o')
          ∧ jobs (registry o') !! job_id j = Some j
          ∧ command j = mkCommand script args
          ∧ status j = pending.
Proof.
  intros Hne. unfold submit_job, submitJob.
  rewrite bool_decide_eq_false_2 by done. simpl.
  eexists (mkJob _ _ _ _ _ _ _ _ _ _ _ _), _. split; [reflexivity|]. simpl.
  by rewrite lookup_insert_eq.
Qed.

(** C9. With both [input_file] and [sequence] given, the submit tool creates
    a job whose arguments carry the input file and no sequence, exactly as
    if [sequence] had not been passed; the synchronous path raises
    ValueError before doing anything, which [simple_structure_prediction]
    returns as an error dictionary. *)
Theorem both_inputs_given (SCRIPTS_DIR : string)
    (input_file sequence output_dir : option string)
    (use_msa_server use_potentials : bool) (output_format : string)
    (job_name : option string) (now : nat) (o : Orchestrator) :
  given input_file = true → given sequence = true →
  (∃ f args j o',
      input_file = Some f
      ∧ submit_structure_prediction SCRIPTS_DIR input_file sequence output_dir
          use_msa_server use_potentials output_format job_name now o
        = (Ok {["job_id" := PStr (job_id j)]}, o')
      ∧ jobs (registry o') !! job_id j = Some j
      ∧ status j = pending
      ∧ command j = mkCommand (script_in SCRIPTS_DIR "structure_prediction.py") args
      ∧ ("input", AStr f) ∈ args
      ∧ (∀ v, ("sequence", v) ∉ args)
      ∧ submit_structure_prediction SCRIPTS_DIR input_file None output_dir
          use_msa_server use_potentials output_format job_name now o
        = (Ok {["job_id" := PStr (job_id j)]}, o'))
  ∧ (∀ w config kwargs t,
       Scripts.run_structure_prediction w input_file sequence output_dir
         config kwargs t
       = (Fail (ValueError "Provide either input_file OR sequence, not both"), t))
  ∧ (∀ w t,
       simple_structure_prediction w input_file sequence output_dir
         use_msa_server output_format t
       = (error_dict "Invalid input: Provide either input_file OR sequence, not both",
          t)).
Proof.
  intros Hf Hs.
  assert (∀ w config kwargs t,
       Scripts.run_structure_prediction w input_file sequence output_dir
         config kwargs t
       = (Fail (ValueError "Provide either input_file OR sequence, not both"), t))
    as Hsync.
  { intros. unfold Scripts.run_structure_prediction. by rewrite Hf, Hs. }
  split; [|split; [done|]].
  - destruct (given_true_if_given _ Hf) as (f & Hif & ->).
    unfold submit_structure_prediction, structure_args. rewrite Hif.
    set (args := common_args _ _ _ _).
    destruct (submit_job_creates (script_in SCRIPTS_DIR "structure_prediction.py")
                args (or_else job_name "structure_prediction") now o
                (script_in_nonempty _ _)) as (j & o' & Hsub & Hj & Hc & Hp).
    exists f, args, j, o'. rewrite Hsub. split_and!; try done.
    + apply common_args_other; try done. apply dict_set_here.
    + intros v Hin. apply common_args_other in Hin; try done.
      apply dict_set_other in Hin; [|done].
      apply list_elem_of_singleton in Hin. done.
  - intros w t. unfold simple_structure_prediction. by rewrite Hsync.
Qed.

End SubmitTools.

Section CommandLine.
Import Py Jobs Server.

(** The three shapes of a flattened entry. *)
Lemma flatten_arg_shape (k v : string) :
  flatten_arg (k, AFlag) = ["--" +:+ k]
  ∧ flatten_arg (k, AStr v) = ["--" +:+ k; v]
  ∧ flatten_arg (k, ANone) = [].
Proof. done. Qed.

Lemma flatten_member k v (args : list (string * ArgValue)) :
  (k, AStr v) ∈ args → "--" +:+ k ∈ flat_map flatten_arg args.
Proof.
  intros Hin. apply list_elem_of_In, in_flat_map.
  exists (k, AStr v). split; [by apply list_elem_of_In|]. simpl. auto.
Qed.

(** Every job submitted by the structure tool is started with the flag
    [--output_format] on its command line. *)
Lemma structure_job_has_output_format script inf seq od msa pot fmt args :
  structure_args inf seq od msa pot fmt = Some args →
  "--output_format" ∈ command_line (mkCommand script args).
Proof.
  intros H%structure_args_output_format. unfold command_line. simpl.
  apply list_elem_of_further. by apply (flatten_member "output_format" fmt).
Qed.

(** C2. The job submitted for a sequence is started as
    [<script> --output_format pdb --sequence <seq>], and the one submitted
    for a protein and a ligand as [<script> --output_format pdb --protein-seq
    <seq> --ligand-smiles <smiles>]; the parsers of the two scripts take
    [--sequence], [--protein-seq] and [--ligand-smiles] but not
    [--output_format]: the option they declare is [--output-format]. *)
Theorem output_format_flag_not_accepted :
  let s := submit_structure_prediction "/srv/boltz/scripts"
             None (Some "MVLSEGEWQLV") None true false "pdb" None 0
             fresh_orchestrator in
  let a := submit_affinity_prediction "/srv/boltz/scripts"
             None (Some "MVLSEGEWQLV") (Some "CCO") None None true false "pdb"
             None 0 fresh_orchestrator in
  fst s = Ok {["job_id" := PStr "job-0"]}
  ∧ (command_line ∘ command) <$> jobs (registry (snd s)) !! "job-0"
    = Some ["/srv/boltz/scripts/structure_prediction.py";
            "--output_format"; "pdb"; "--sequence"; "MVLSEGEWQLV"]
  ∧ Scripts.recognised Scripts.structure_options "--sequence" = true
  ∧ Scripts.recognised Scripts.structure_options "--output-format" = true
  ∧ Scripts.recognised Scripts.structure_options "--output_format" = false
  ∧ fst a = Ok {["job_id" := PStr "job-0"]}
  ∧ (command_line ∘ command) <$> jobs (registry (snd a)) !! "job-0"
    = Some ["/srv/boltz/scripts/affinity_prediction.py";
            "--output_format"; "pdb"; "--protein-seq"; "MVLSEGEWQLV";
            "--ligand-smiles"; "CCO"]
  ∧ Scripts.recognised Scripts.affinity_options "--protein-seq" = true
  ∧ Scripts.recognised Scripts.affinity_options "--ligand-smiles" = true
  ∧ Scripts.recognised Scripts.affinity_options "--output_format" = false.
Proof. vm_compute. repeat split. Qed.

End CommandLine.

(* ===================================================================== *)
(** * Part VII. Properties of the prediction scripts *)
(* ===================================================================== *)

Section Predictions.
Import Py Scripts.

Lemma bind_ok {A B : Type} (c : M A) (k : A → M B) t b t' :
  bind c k t = (Ok b, t') → ∃ a t1, c t = (Ok a, t1) ∧ k a t1 = (Ok b, t').
Proof.
  unfold bind. destruct (c t) as [[a|e] t1]; [eauto|done].
Qed.

Lemma index_ok d k t v t' :
  index d k t = (Ok v, t') → d !! k = Some v ∧ t' = t.
Proof.
  unfold index. destruct (d !! k); [|done]. by intros [= -> ->].
Qed.

Lemma subprocess_run_ok w cmd t argv c t' :
  subprocess_run w cmd t = (Ok (argv, c), t') →
  as_strings cmd = Some argv ∧ spawn w t argv = Ok c ∧ t' = t ++ [RunProcess argv].
Proof.
  unfold subprocess_run. destruct (as_strings cmd) as [a|]; [|done].
  destruct (spawn w t a) as [c0|e] eqn:Hs; [|done].
  intros [= -> -> <-]. done.
Qed.

Lemma boltz_predict_ok w iy od msa pot fmt t d t' :
  boltz_predict w iy od msa pot fmt t = (Ok d, t') →
  ∃ argv c,
    as_strings (boltz_cmd iy od msa pot fmt) = Some argv
    ∧ spawn w t argv = Ok c
    ∧ t' = t ++ [RunProcess argv]
    ∧ d = if (returncode c =? 0)%Z then success_record argv c
          else failure_record w argv c.
Proof.
  unfold boltz_predict. intros ([argv c] & t1 & Hrun & Hk)%bind_ok.
  apply subprocess_run_ok in Hrun as (Hcmd & Hsp & ->).
  exists argv, c.
  destruct (returncode c =? 0)%Z; by injection Hk as <- <-.
Qed.

(** C7. When the external process runs to its end, [run_boltz_command] and
    [run_boltz_affinity_command] return a dictionary: on exit status 0 it is
    marked successful and holds the captured stdout; on any other status it
    is marked failed and holds the text of the exit error, made of the
    command and the status, together with the captured stderr. *)
Theorem process_exit_outcome (w : World) (input_yaml output_dir : string)
    (use_msa_server use_potentials output_format : PyVal)
    (t : list Event) (argv : list string) (c : Completed) :
  as_strings (boltz_cmd input_yaml output_dir use_msa_server use_potentials
                output_format) = Some argv →
  spawn w t argv = Ok c →
  ∃ d,
    run_boltz_command w input_yaml output_dir use_msa_server use_potentials
      output_format t = (Ok d, t ++ [RunProcess argv])
    ∧ run_boltz_affinity_command w input_yaml output_dir use_msa_server
        use_potentials output_format t = (Ok d, t ++ [RunProcess argv])
    ∧ (returncode c = 0%Z →
         d !! "success" = Some (PBool true)
         ∧ d !! "stdout" = Some (PStr (stdout c))
         ∧ d !! "error" = None)
    ∧ (returncode c ≠ 0%Z →
         d !! "success" = Some (PBool false)
         ∧ d !! "error" = Some (PStr (str_CalledProcessError w argv (returncode c)))
         ∧ d !! "stderr" = Some (PStr (stderr c))
         ∧ d !! "stdout" = None).
Proof.
  intros Hcmd Hsp.
  unfold run_boltz_command, run_boltz_affinity_command, boltz_predict, bind,
    subprocess_run.
  rewrite Hcmd, Hsp.
  destruct (returncode c =? 0)%Z eqn:Hrc.
  - apply Z.eqb_eq in Hrc. eexists. split; [reflexivity|]. split; [reflexivity|].
    split; [|done]. intros _. unfold success_record. by simplify_map_eq.
  - apply Z.eqb_neq in Hrc. eexists. split; [reflexivity|]. split; [reflexivity|].
    split; [done|]. intros _. unfold failure_record. by simplify_map_eq.
Qed.

Lemma success_record_success argv c :
  success_record argv c !! "success" = Some (PBool true).
Proof. unfold success_record. by simplify_map_eq. Qed.

Lemma failure_record_success w argv c :
  failure_record w argv c !! "success" = Some (PBool false).
Proof. unfold failure_record. by simplify_map_eq. Qed.

Ltac unbind H :=
  let a := fresh "a" in
  let t := fresh "t" in
  let Hc := fresh "Hc" in
  apply bind_ok in H as (a & t & Hc & H).

Lemma act_ok ev outcome t a t' :
  act ev outcome t = (Ok a, t') → outcome t = None ∧ t' = t ++ [ev].
Proof. unfold act. destruct (outcome t); [done|]. by intros [= _ <-]. Qed.

Lemma ask_ok {A} (q : list Event → A) t a t' :
  ask q t = (Ok a, t') → a = q t ∧ t' = t.
Proof. by intros [= <- <-]. Qed.

Lemma ask_or_raise_ok {A} (q : list Event → res PyExc A) t a t' :
  ask_or_raise q t = (Ok a, t') → q t = Ok a ∧ t' = t.
Proof. unfold ask_or_raise. by intros [= -> <-]. Qed.

Lemma cleanup_ok w p (cleanup : bool) t a t' :
  (if cleanup
   then bind (ask (λ t, path_exists w t p))
          (λ there, if there then act (Unlink p) (λ t, unlink w t p) else ret ())
   else ret ()) t = (Ok a, t') →
  t' = t ++ (if cleanup && path_exists w t p then [Unlink p] else []).
Proof.
  destruct cleanup; simpl.
  - intros (there & t1 & [-> ->]%ask_ok & Hk)%bind_ok.
    destruct (path_exists w t p) eqn:Hex.
    + by apply act_ok in Hk as [_ ->].
    + injection Hk as <-. by rewrite app_nil_r.
  - intros [= <-]. by rewrite app_nil_r.
Qed.

Lemma outcome_command w argv c :
  dict_get (if (returncode c =? 0)%Z then success_record argv c
            else failure_record w argv c) "command" (PStr "")
  = PStr (String.concat " " argv).
Proof.
  unfold dict_get, success_record, failure_record.
  destruct (returncode c =? 0)%Z; by simplify_map_eq.
Qed.

Lemma outcome_stdout w argv c :
  dict_get (if (returncode c =? 0)%Z then success_record argv c
            else failure_record w argv c) "stdout" (PStr "")
  = PStr (if (returncode c =? 0)%Z then stdout c else "").
Proof.
  unfold dict_get, success_record, failure_record.
  destruct (returncode c =? 0)%Z; by simplify_map_eq.
Qed.

Lemma record_outcome w argv c (pr result d r : gmap string PyVal) success
    (t t' : list Event) :
  pr = (if (returncode c =? 0)%Z then success_record argv c
        else failure_record w argv c) →
  pr !! "success" = Some success →
  result !! "result" = Some (PDict r) → result !! "success" = Some success →
  result !! "error" = None →
  (if negb (truthy success) then ret (with_failure pr result) else ret result) t
    = (Ok d, t') →
  t' = t
  ∧ d !! "result" = Some (PDict r)
  ∧ (returncode c = 0%Z →
       d !! "success" = Some (PBool true) ∧ d !! "error" = None)
  ∧ (returncode c ≠ 0%Z →
       d !! "success" = Some (PBool false)
       ∧ d !! "error" = Some (PStr (str_CalledProcessError w argv (returncode c)))
       ∧ d !! "stderr" = Some (PStr (stderr c))).
Proof.
  intros -> Hs Hres Hsucc Herr.
  destruct (returncode c =? 0)%Z eqn:Hrc.
  - rewrite success_record_success in Hs. injection Hs as <-. simpl.
    intros [= <- <-]. apply Z.eqb_eq in Hrc. done.
  - rewrite failure_record_success in Hs. injection Hs as <-. simpl.
    intros [= <- <-]. apply Z.eqb_neq in Hrc.
    unfold with_failure, dict_get, failure_record.
    split; [done|]. split; [by simplify_map_eq|]. split; [done|]. intros _.
    by simplify_map_eq.
Qed.

Lemma no_process_nil a : RunProcess a ∉ ([] : list Event).
Proof. apply not_elem_of_nil. Qed.

Ltac step H a t Ha := apply bind_ok in H as (a & t & Ha & H).

Lemma run_structure_prediction_ok w input_file sequence output_dir config kwargs
    t d t' :
  run_structure_prediction w input_file sequence output_dir config kwargs t
    = (Ok d, t') →
  ∃ argv c before after r,
    t' = t ++ before ++ [RunProcess argv] ++ after
    ∧ (∀ a, RunProcess a ∉ before ++ after)
    ∧ spawn w (t ++ before) argv = Ok c
    ∧ d !! "result" = Some (PDict r)
    ∧ r !! "command_used" = Some (PStr (String.concat " " argv))
    ∧ r !! "command_output"
      = Some (PStr (if (returncode c =? 0)%Z then stdout c else ""))
    ∧ (returncode c = 0%Z →
         d !! "success" = Some (PBool true) ∧ d !! "error" = None)
    ∧ (returncode c ≠ 0%Z →
         d !! "success" = Some (PBool false)
         ∧ d !! "error" = Some (PStr (str_CalledProcessError w argv (returncode c)))
         ∧ d !! "stderr" = Some (PStr (stderr c))).
Proof.
  unfold run_structure_prediction.
  destruct (negb (given input_file) && negb (given sequence)); [done|].
  destruct (given input_file && given sequence); [done|].
  intros H.
  step H u tu Hu. apply act_ok in Hu as [_ ->].
  step H inp tin Hin. destruct inp as [input_yaml_path cleanup_temp].
  assert (∃ evs, tin = (t ++ [Mkdir (path_str w
                          (or_else output_dir "./boltz_structure_output"))]) ++ evs
                 ∧ ∀ a, RunProcess a ∉ evs) as (evs & -> & Hevs).
  { destruct (if_given input_file) as [f|].
    - step Hin there tth Ht. apply ask_ok in Ht as [-> ->].
      destruct (path_exists w _ _); [|done]. injection Hin as _ _ <-.
      exists []. rewrite app_nil_r. split; [done|apply no_process_nil].
    - step Hin i1 ti1 Hi1. apply index_ok in Hi1 as [_ ->].
      step Hin i2 ti2 Hi2. apply index_ok in Hi2 as [_ ->].
      step Hin py tpy Hpy. unfold create_protein_yaml in Hpy.
      step Hpy u2 tu2 Hu2. apply act_ok in Hu2 as [_ ->].
      injection Hpy as _ <-. injection Hin as _ _ <-.
      eexists [_]. split; [reflexivity|]. intros a Ha.
      apply list_elem_of_singleton in Ha. done. }
  step H msa tm Hm. apply index_ok in Hm as [_ ->].
  step H pot tp Hp. apply index_ok in Hp as [_ ->].
  step H fmt tf Hfm. apply index_ok in Hfm as [_ ->].
  step H pr tpr Hrun.
  apply boltz_predict_ok in Hrun as (argv & c & _ & Hsp & -> & Hpr).
  step H ofs tofs Hofs. apply ask_or_raise_ok in Hofs as [_ ->].
  step H u3 tu3 Hu3. apply cleanup_ok in Hu3 as ->.
  step H success ts Hs. apply index_ok in Hs as [Hsucc ->].
  eapply (record_outcome w argv c) in H as (-> & Hres & Hok & Hfail);
    [|exact Hpr|exact Hsucc|by simplify_map_eq..].
  eexists argv, c, (_ :: evs), _, _.
  split; [by rewrite <- !app_assoc|].
  split.
  { intros a [Ha|Ha]%elem_of_app.
    - apply elem_of_cons in Ha as [|Ha]; [done|]. by apply (Hevs a).
    - destruct (cleanup_temp && _); [|by apply elem_of_nil in Ha].
      by apply list_elem_of_singleton in Ha. }
  split; [by rewrite <- !app_assoc in Hsp|].
  split; [exact Hres|].
  split; [rewrite <- (outcome_command w argv c); by simplify_map_eq|].
  split; [rewrite <- (outcome_stdout w argv c); by simplify_map_eq|].
  done.
Qed.

Lemma run_affinity_prediction_ok w input_file protein_sequence ligand_smiles
    ligand_ccd output_dir config kwargs t d t' :
  run_affinity_prediction w input_file protein_sequence ligand_smiles ligand_ccd
    output_dir config kwargs t = (Ok d, t') →
  ∃ argv c before after r,
    t' = t ++ before ++ [RunProcess argv] ++ after
    ∧ (∀ a, RunProcess a ∉ before ++ after)
    ∧ spawn w (t ++ before) argv = Ok c
    ∧ d !! "result" = Some (PDict r)
    ∧ r !! "command_used" = Some (PStr (String.concat " " argv))
    ∧ r !! "command_output"
      = Some (PStr (if (returncode c =? 0)%Z then stdout c else ""))
    ∧ (returncode c = 0%Z →
         d !! "success" = Some (PBool true) ∧ d !! "error" = None)
    ∧ (returncode c ≠ 0%Z →
         d !! "success" = Some (PBool false)
         ∧ d !! "error" = Some (PStr (str_CalledProcessError w argv (returncode c)))
         ∧ d !! "stderr" = Some (PStr (stderr c))).
Proof.
  unfold run_affinity_prediction.
  destruct (given input_file && _); [done|].
  destruct (negb (given input_file) && negb (given protein_sequence)); [done|].
  destruct (negb (given input_file) && _); [done|].
  intros H.
  step H u tu Hu. apply act_ok in Hu as [_ ->].
  step H inp tin Hin. destruct inp as [input_yaml_path cleanup_temp].
  assert (∃ evs, tin = (t ++ [Mkdir (path_str w
                          (or_else output_dir "./boltz_affinity_output"))]) ++ evs
                 ∧ ∀ a, RunProcess a ∉ evs) as (evs & -> & Hevs).
  { destruct (if_given input_file) as [f|].
    - step Hin there tth Ht. apply ask_ok in Ht as [-> ->].
      destruct (path_exists w _ _); [|done]. injection Hin as _ _ <-.
      exists []. rewrite app_nil_r. split; [done|apply no_process_nil].
    - step Hin i1 ti1 Hi1. apply index_ok in Hi1 as [_ ->].
      step Hin i2 ti2 Hi2. apply index_ok in Hi2 as [_ ->].
      step Hin i3 ti3 Hi3. apply index_ok in Hi3 as [_ ->].
      step Hin py tpy Hpy. unfold create_affinity_yaml in Hpy.
      step Hpy u2 tu2 Hu2. apply act_ok in Hu2 as [_ ->].
      injection Hpy as _ <-. injection Hin as _ _ <-.
      eexists [_]. split; [reflexivity|]. intros a Ha.
      apply list_elem_of_singleton in Ha. done. }
  step H msa tm Hm. apply index_ok in Hm as [_ ->].
  step H pot tp Hp. apply index_ok in Hp as [_ ->].
  step H fmt tf Hfm. apply index_ok in Hfm as [_ ->].
  step H pr tpr Hrun.
  apply boltz_predict_ok in Hrun as (argv & c & _ & Hsp & -> & Hpr).
  step H ar tar Har. apply ask_or_raise_ok in Har as [_ ->].
  step H ofs tofs Hofs. apply ask_or_raise_ok in Hofs as [_ ->].
  step H u3 tu3 Hu3. apply cleanup_ok in Hu3 as ->.
  step H success ts Hs. apply index_ok in Hs as [Hsucc ->].
  eapply (record_outcome w argv c) in H as (-> & Hres & Hok & Hfail);
    [|exact Hpr|exact Hsucc|by simplify_map_eq..].
  eexists argv, c, (_ :: evs), _, _.
  split; [by rewrite <- !app_assoc|].
  split.
  { intros a [Ha|Ha]%elem_of_app.
    - apply elem_of_cons in Ha as [|Ha]; [done|]. by apply (Hevs a).
    - destruct (cleanup_temp && _); [|by apply elem_of_nil in Ha].
      by apply list_elem_of_singleton in Ha. }
  split; [by rewrite <- !app_assoc in Hsp|].
  split; [exact Hres|].
  split; [rewrite <- (outcome_command w argv c); by simplify_map_eq|].
  split; [rewrite <- (outcome_stdout w argv c); by simplify_map_eq|].
  done.
Qed.

(** C8. A record returned by [run_structure_prediction] or by
    [run_affinity_prediction] comes from the one process the run has
    started and that ran to its end. The record always holds a result
    payload, a dictionary with the command that was run and the output
    captured from it; when the exit status is 0 its success field is true
    and it has no error field, and otherwise its success field is false
    and it holds the error text of that exit together with the captured
    stderr. *)
Theorem run_carries_result_or_error (w : World) (t t' : list Event)
    (d : gmap string PyVal) :
  (∀ input_file sequence output_dir config kwargs,
     run_structure_prediction w input_file sequence output_dir config kwargs t
       = (Ok d, t') →
     ∃ argv c before after r,
       t' = t ++ before ++ [RunProcess argv] ++ after
       ∧ (∀ a, RunProcess a ∉ before ++ after)
       ∧ spawn w (t ++ before) argv = Ok c
       ∧ d !! "result" = Some (PDict r)
       ∧ r !! "command_used" = Some (PStr (String.concat " " argv))
       ∧ r !! "command_output"
         = Some (PStr (if (returncode c =? 0)%Z then stdout c else ""))
       ∧ (returncode c = 0%Z →
            d !! "success" = Some (PBool true) ∧ d !! "error" = None)
       ∧ (returncode c ≠ 0%Z →
            d !! "success" = Some (PBool false)
            ∧ d !! "error"
              = Some (PStr (str_CalledProcessError w argv (returncode c)))
            ∧ d !! "stderr" = Some (PStr (stderr c))))
  ∧ (∀ input_file protein_sequence ligand_smiles ligand_ccd output_dir
       config kwargs,
     run_affinity_prediction w input_file protein_sequence ligand_smiles
       ligand_ccd output_dir config kwargs t = (Ok d, t') →
     ∃ argv c before after r,
       t' = t ++ before ++ [RunProcess argv] ++ after
       ∧ (∀ a, RunProcess a ∉ before ++ after)
       ∧ spawn w (t ++ before) argv = Ok c
       ∧ d !! "result" = Some (PDict r)
       ∧ r !! "command_used" = Some (PStr (String.concat " " argv))
       ∧ r !! "command_output"
         = Some (PStr (if (returncode c =? 0)%Z then stdout c else ""))
       ∧ (returncode c = 0%Z →
            d !! "success" = Some (PBool true) ∧ d !! "error" = None)
       ∧ (returncode c ≠ 0%Z →
            d !! "success" = Some (PBool false)
            ∧ d !! "error"
              = Some (PStr (str_CalledProcessError w argv (returncode c)))
            ∧ d !! "stderr" = Some (PStr (stderr c)))).
Proof.
  split; intros *.
  - apply run_structure_prediction_ok.
  - apply run_affinity_prediction_ok.
Qed.

End Predictions.

(* ===================================================================== *)
(** * Part VIII. Properties of validate_protein_sequence *)
(* ===================================================================== *)

Section Validation.
Import Py Server.
Context (fl : Floats).

Lemma count_char_le aa s : count_char aa s ≤ length s.
Proof.
  induction s as [|c s IH]; simpl; [lia|]. case_bool_decide; lia.
Qed.

Lemma divide_ok count s aa :
  count = count_char aa s → 0 < count →
  divide fl count (length s)
  = Ok (true_div fl (Z.of_nat count) (Z.of_nat (length s))).
Proof.
  intros -> Hpos. unfold divide.
  pose proof (count_char_le aa s).
  destruct (length s =? 0) eqn:Hz; [|done].
  apply Nat.eqb_eq in Hz. lia.
Qed.

Lemma compose_ok clean_seq letters : ∀ composition0,
  ∃ composition,
    compose fl clean_seq letters composition0 = Ok composition
    ∧ ∀ aa, composition !! aa
            = if bool_decide (aa ∈ letters ∧ 0 < count_char aa clean_seq)
              then Some (share_of fl clean_seq aa)
              else composition0 !! aa.
Proof.
  induction letters as [|x letters IH]; intros composition0; cbn [compose].
  - exists composition0. split; [done|]. intros aa.
    rewrite bool_decide_eq_false_2; [done|]. intros [Hin _]. by apply elem_of_nil in Hin.
  - destruct (0 <? count_char x clean_seq) eqn:Hpos.
    + apply Nat.ltb_lt in Hpos.
      rewrite (divide_ok _ clean_seq x eq_refl Hpos).
      destruct (IH (<[x := mkShare (count_char x clean_seq)
                             (round fl (mul_int fl
                                (true_div fl (Z.of_nat (count_char x clean_seq))
                                   (Z.of_nat (length clean_seq))) 100) 2)]>
                    composition0)) as (composition & -> & Hlook).
      exists composition. split; [done|]. intros aa. rewrite Hlook.
      destruct (decide (aa = x)) as [-> | Hne].
      * rewrite lookup_insert_eq.
        rewrite (bool_decide_eq_true_2 (x ∈ x :: letters ∧ _));
          [|split; [apply list_elem_of_here|done]].
        by case_bool_decide.
      * rewrite lookup_insert_ne by done.
        erewrite bool_decide_ext; [reflexivity|]. rewrite elem_of_cons.
        split; [intros [Hin Hc]; auto|]. intros [[? | Hin] Hc]; [done|auto].
    + apply Nat.ltb_ge in Hpos.
      destruct (IH composition0) as (composition & -> & Hlook).
      exists composition. split; [done|]. intros aa. rewrite Hlook.
      erewrite bool_decide_ext; [reflexivity|]. rewrite elem_of_cons.
      split; [intros [Hin Hc]; auto|]. intros [[-> | Hin] Hc]; [lia|done].
Qed.

(** Upper-casing keeps a whitespace character and makes none: without its
    whitespace, the upper-case form of a character is empty for a
    whitespace character and whole for any other. *)
Lemma remove_whitespace_upper_char c :
  remove_whitespace (upper_char c)
  = if is_space (N_of_ascii c) then [] else upper_char c.
Proof. destruct c as [[] [] [] [] [] [] [] []]; vm_compute; reflexivity. Qed.

Lemma remove_whitespace_app l1 l2 :
  remove_whitespace (l1 ++ l2) = remove_whitespace l1 ++ remove_whitespace l2.
Proof.
  induction l1 as [|c l1 IH]; simpl; [done|].
  destruct (is_space c); simpl; by rewrite IH.
Qed.



End Validation.

(* ===================================================================== *)
(** * Part IX. Worked runs *)
(* ===================================================================== *)

Section WorkedRuns.
Import Py Jobs Scripts Server Demo.

Example history_of_demo :
  history "job-0" empty demo_ops = [pending; running; failed; failed].
Proof. vm_compute. reflexivity. Qed.

Example refused_restart :
  markRunning "job-0" 9 4 (registry finished) = Fail InvalidTransition.
Proof. vm_compute. reflexivity. Qed.

Example command_line_of_demo :
  command_line demo_command
  = ["/srv/boltz/scripts/structure_prediction.py";
     "--output_format"; "pdb"; "--sequence"; "MVLS"; "--no-msa-server"].
Proof. reflexivity. Qed.

Example tail_of_demo :
  get_job_log "job-0" 2 finished = Ok (mkLogView ["predicting"; "failed"] 3).
Proof. vm_compute. reflexivity. Qed.

Example abbreviation_is_ambiguous :
  recognised structure_options "--out" = false
  ∧ recognised structure_options "--output" = true
  ∧ recognised structure_options "--seq" = true.
Proof. vm_compute. repeat split. Qed.

Example composition_of_demo :
  (λ r, (valid r, clean_sequence r, composition r !! N_of_ascii "A",
         composition r !! N_of_ascii "C"))
    <$> (match validate_protein_sequence symbolic "ac a x" with
         | Ok r => Some r
         | Fail _ => None
         end)
  = Some (false, code_points "ACAX",
          Some (mkShare (fl := symbolic) 2 (SRound (SMul (SDiv 2 4) 100) 2)),
          Some (mkShare (fl := symbolic) 1 (SRound (SMul (SDiv 1 4) 100) 2))).
Proof. vm_compute. reflexivity. Qed.

Example validation_beyond_ascii :
  (λ r, (valid r, sequence_length r, clean_sequence r))
    <$> (match validate_protein_sequence symbolic sharp_s with
         | Ok r => Some r
         | Fail _ => None
         end)
  = Some (true, 2, code_points "SS")
  ∧ (λ r, (valid r, sequence_length r, clean_sequence r))
      <$> (match validate_protein_sequence symbolic spaced with
           | Ok r => Some r
           | Fail _ => None
           end)
    = Some (true, 2, code_points "AC").
Proof. split; vm_compute; reflexivity. Qed.

(** C1, counterexample. A job whose process cannot be spawned is marked
    failed while it is pending, as section 4.3 (5) prescribes; the statuses
    it shows are pending and then failed, which is not a path of the
    machine pending -> running -> {completed | failed | cancelled} with
    pending -> cancelled. *)
Lemma job_lifecycle_counterexample :
  spawn_failed "job-0" "boltz: command not found" 1
    (snd (create demo_command "demo" 0 empty))
  = Ok (fold_left step spawn_failure_ops empty)
  ∧ history "job-0" empty spawn_failure_ops = [pending; failed]
  ∧ transition pending failed = false
  ∧ lifecycle transition (history "job-0" empty spawn_failure_ops) = false.
Proof. split_and!; vm_compute; reflexivity. Qed.

Lemma job_lifecycle_witness :
  lifecycle moves (history "job-0" empty demo_ops) = true
  ∧ lifecycle moves (history "job-0" empty spawn_failure_ops) = true
  ∧ ∀ s', s' ∈ [failed] → s' = failed ∧ s' ≠ pending ∧ s' ≠ running.
Proof.
  destruct (job_lifecycle demo_ops "job-0") as (H1 & _ & H2).
  split; [exact H1|].
  split; [exact (proj1 (job_lifecycle spawn_failure_ops "job-0"))|].
  apply (H2 [pending; running] failed [failed]);
    [vm_compute; reflexivity | reflexivity].
Defined.

Lemma cancel_job_idempotent_witness :
  jobs (registry finished) !! "job-0" = Some demo_job
  ∧ cancel_job "job-0" 5 finished = (Ok failed, finished)
  ∧ ∃ s o', is_terminal s = true
            ∧ cancel_job "job-0" 5 finished = (Ok s, o')
            ∧ cancel_job "job-0" 6 o' = (Ok s, o').
Proof.
  assert (jobs (registry finished) !! "job-0" = Some demo_job) as H
    by (vm_compute; reflexivity).
  destruct (cancel_job_idempotent "job-0" 5 6 finished demo_job H) as [H1 H2].
  split; [exact H|]. split; [exact (H1 eq_refl) | exact H2].
Defined.

Lemma get_job_result_cases_witness :
  get_job_result "job-1" finished = Fail NotFound
  ∧ get_job_result "job-0" submitted = Fail NotReady
  ∧ get_job_result "job-0" finished = Ok (StoredError (Some "exit status 1")).
Proof.
  destruct (get_job_result_cases "job-1" finished) as (_ & Hnone & _).
  destruct (get_job_result_cases "job-0" finished) as (_ & _ & Hdone).
  destruct (get_job_result_cases "job-0" submitted) as (_ & _ & Hlive).
  split.
  { apply (Hnone demo_ops eq_refl). intros k Hk Heq.
    change (issued (registry finished)) with 1 in Hk.
    assert (k = 0) as -> by lia. discriminate Heq. }
  split.
  - refine (proj1 (Hlive
      (mkJob "job-0" "demo"
         (mkCommand "/srv/boltz/scripts/structure_prediction.py"
            [("output_format", AStr "pdb"); ("sequence", AStr "MVLS")])
         pending 0 None None None None None None "job-0") _) _);
      [vm_compute; reflexivity | left; reflexivity].
  - refine (proj2 (Hdone demo_job _) _);
      [vm_compute; reflexivity | left; reflexivity].
Defined.

Lemma get_job_log_tail_witness :
  jobs (registry finished) !! "job-0" = Some demo_job
  ∧ ∃ ls,
      get_job_log "job-0" 0 finished
      = Ok (mkLogView ["loading"; "predicting"; "failed"] 3)
      ∧ get_job_log "job-0" 2 finished = Ok (mkLogView ls 3)
      ∧ length ls ≤ 2 ∧ length ls = 2
      ∧ ls `suffix_of` ["loading"; "predicting"; "failed"].
Proof.
  assert (jobs (registry finished) !! "job-0" = Some demo_job) as H
    by (vm_compute; reflexivity).
  split; [exact H|].
  destruct (get_job_log_tail "job-0" 2 finished demo_job H)
    as (ls & H0 & Hn & Hb & _).
  exists ls. split; [exact H0|]. split; [exact Hn|]. apply Hb. lia.
Defined.

Lemma malformed_submission_rejected_witness :
  given None = false
  ∧ submit_structure_prediction "/srv/boltz/scripts" None (Some "") None
      true false "pdb" None 0 submitted
    = (Ok (error_dict "Must provide either input_file or sequence"), submitted)
  ∧ submit_affinity_prediction "/srv/boltz/scripts" None (Some "MVLS")
      None (Some "") None true false "pdb" None 0 submitted
    = (Ok (error_dict
             "Must provide either input_file OR (protein_sequence + ligand)"),
       submitted).
Proof.
  split; [reflexivity|].
  destruct (malformed_submission_rejected "/srv/boltz/scripts"
              None (Some "") (Some "MVLS") None (Some "") None
              true false "pdb" None 0 submitted eq_refl) as [H1 H2].
  split; [exact (H1 eq_refl) | exact (H2 eq_refl)].
Defined.

Lemma both_inputs_given_witness :
  given (Some "in.yaml") = true ∧ given (Some "MVLS") = true
  ∧ (∃ j o',
       submit_structure_prediction "/srv/boltz/scripts" (Some "in.yaml")
         (Some "MVLS") None true false "pdb" None 0 fresh_orchestrator
       = (Ok {["job_id" := PStr (job_id j)]}, o')
       ∧ jobs (registry o') !! job_id j = Some j)
  ∧ simple_structure_prediction (world 0 "done" "") (Some "in.yaml")
      (Some "MVLS") None true "pdb" []
    = (error_dict "Invalid input: Provide either input_file OR sequence, not both",
       []).
Proof.
  destruct (both_inputs_given "/srv/boltz/scripts" (Some "in.yaml") (Some "MVLS")
              None true false "pdb" None 0 fresh_orchestrator eq_refl eq_refl)
    as [(f & args & j & o' & _ & Hsub & Hj & _) [_ Hsimple]].
  split; [reflexivity|]. split; [reflexivity|]. split.
  - exists j, o'. split; [exact Hsub | exact Hj].
  - apply Hsimple.
Defined.

Lemma process_exit_outcome_witness :
  as_strings (boltz_cmd "in.yaml" "out" (PBool true) (PBool false) (PStr "pdb"))
    = Some demo_argv
  ∧ spawn (world 1 "" "boom") [] demo_argv = Ok (mkCompleted 1 "" "boom")
  ∧ ∃ d,
      run_boltz_command (world 1 "" "boom") "in.yaml" "out" (PBool true)
        (PBool false) (PStr "pdb") [] = (Ok d, [RunProcess demo_argv])
      ∧ d !! "success" = Some (PBool false)
      ∧ d !! "error" = Some (PStr "Command returned non-zero exit status 1")
      ∧ d !! "stderr" = Some (PStr "boom").
Proof.
  split; [reflexivity|]. split; [reflexivity|].
  destruct (process_exit_outcome (world 1 "" "boom") "in.yaml" "out"
              (PBool true) (PBool false) (PStr "pdb") [] demo_argv
              (mkCompleted 1 "" "boom") eq_refl eq_refl)
    as (d & Hrun & _ & _ & Hfail).
  exists d. split; [exact Hrun|].
  destruct (Hfail ltac:(discriminate)) as (Hs & He & Herr & _).
  split; [exact Hs|]. split; [exact He | exact Herr].
Defined.

Lemma run_carries_result_or_error_witness :
  (∃ d t' r,
     run_structure_prediction (world 1 "" "boom") None (Some "MVLS") None None ∅ []
       = (Ok d, t')
     ∧ d !! "result" = Some (PDict r)
     ∧ r !! "command_output" = Some (PStr "")
     ∧ d !! "success" = Some (PBool false)
     ∧ d !! "error" = Some (PStr "Command returned non-zero exit status 1")
     ∧ d !! "stderr" = Some (PStr "boom"))
  ∧ (∃ d t' r,
       run_affinity_prediction (world 0 "done" "") None (Some "MVLS") (Some "CCO")
         None None None ∅ [] = (Ok d, t')
       ∧ d !! "result" = Some (PDict r)
       ∧ r !! "command_output" = Some (PStr "done")
       ∧ d !! "success" = Some (PBool true)
       ∧ d !! "error" = None).
Proof.
  split.
  - assert (∃ d t',
       run_structure_prediction (world 1 "" "boom") None (Some "MVLS") None None ∅ []
         = (Ok d, t')) as (d & t' & Hrun)
      by (eexists _, _; vm_compute; reflexivity).
    destruct (proj1 (run_carries_result_or_error (world 1 "" "boom") [] t' d)
                _ _ _ _ _ Hrun)
      as (argv & c & before & after & r & _ & _ & Hsp & Hres & _ & Hout & _ & Hfail).
    injection Hsp as <-.
    exists d, t', r. split; [exact Hrun|]. split; [exact Hres|].
    split; [exact Hout|]. exact (Hfail ltac:(discriminate)).
  - assert (∃ d t',
       run_affinity_prediction (world 0 "done" "") None (Some "MVLS") (Some "CCO")
         None None None ∅ [] = (Ok d, t')) as (d & t' & Hrun)
      by (eexists _, _; vm_compute; reflexivity).
    destruct (proj2 (run_carries_result_or_error (world 0 "done" "") [] t' d)
                _ _ _ _ _ _ _ Hrun)
      as (argv & c & before & after & r & _ & _ & Hsp & Hres & _ & Hout & Hok & _).
    injection Hsp as <-.
    exists d, t', r. split; [exact Hrun|]. split; [exact Hres|].
    split; [exact Hout|]. exact (Hok eq_refl).
Defined.


End WorkedRuns.

(* ===================================================================== *)
(** * Part X. Further properties of the submit tools *)
(* ===================================================================== *)

Section SubmittedArguments.
Import Py Jobs Server.

Lemma dict_set_fresh {V : Type} (k : string) (v : V) (d : list (string * V)) :
  k ∉ (d.*1) → dict_set k v d = d ++ [(k, v)].
Proof.
  induction d as [|[k0 v0] d IH]; simpl; [done|].
  intros [Hne Hd]%not_elem_of_cons.
  rewrite bool_decide_eq_false_2 by done. by rewrite IH.
Qed.

(** The entries [common_args] appends. *)
Lemma common_args_app od msa pot args :
  ("output" ∉ args.*1) → ("no-msa-server" ∉ args.*1) → ("use-potentials" ∉ args.*1) →
  common_args od msa pot args
  = args
    ++ match if_given od with Some d => [("output", AStr d)] | None => [] end
    ++ (if msa then [] else [("no-msa-server", AFlag)])
    ++ (if pot then [("use-potentials", AFlag)] else []).
Proof.
  intros H1 H2 H3. unfold common_args.
  assert (∀ k (l : list (string * ArgValue)) k' v',
            k ∉ l.*1 → k ≠ k' → k ∉ (l ++ [(k', v')]).*1) as Hkeep.
  { intros k l k' v' Hl Hne. rewrite fmap_app, elem_of_app. simpl.
    rewrite list_elem_of_singleton. tauto. }
  destruct (if_given od) as [d|], msa, pot; simpl;
    rewrite ?app_nil_r;
    rewrite ?(dict_set_fresh "output") by done;
    rewrite ?(dict_set_fresh "no-msa-server") by (repeat apply Hkeep; done);
    rewrite ?(dict_set_fresh "use-potentials") by (repeat apply Hkeep; done);
    by rewrite <- ?app_assoc.
Qed.

Lemma structure_args_exact inf seq od msa pot fmt :
  structure_args inf seq od msa pot fmt
  = match if_given inf, if_given seq with
    | Some f, _ =>
        Some ([("output_format", AStr fmt); ("input", AStr f)]
              ++ match if_given od with Some d => [("output", AStr d)] | None => [] end
              ++ (if msa then [] else [("no-msa-server", AFlag)])
              ++ (if pot then [("use-potentials", AFlag)] else []))
    | None, Some q =>
        Some ([("output_format", AStr fmt); ("sequence", AStr q)]
              ++ match if_given od with Some d => [("output", AStr d)] | None => [] end
              ++ (if msa then [] else [("no-msa-server", AFlag)])
              ++ (if pot then [("use-potentials", AFlag)] else []))
    | None, None => None
    end.
Proof.
  unfold structure_args.
  destruct (if_given inf) as [f|]; [|destruct (if_given seq) as [q|]; [|done]];
    simpl dict_set; rewrite common_args_app; try done;
    simpl; rewrite !not_elem_of_cons; split_and!; try done; apply not_elem_of_nil.
Qed.

Lemma affinity_args_exact inf pseq smiles ccd od msa pot fmt :
  affinity_args inf pseq smiles ccd od msa pot fmt
  = match if_given inf, if_given pseq with
    | Some f, _ =>
        Some ([("output_format", AStr fmt); ("input", AStr f)]
              ++ match if_given od with Some d => [("output", AStr d)] | None => [] end
              ++ (if msa then [] else [("no-msa-server", AFlag)])
              ++ (if pot then [("use-potentials", AFlag)] else []))
    | None, Some q =>
        if given smiles || given ccd then
          Some (([("output_format", AStr fmt); ("protein-seq", AStr q)]
                 ++ match if_given smiles with
                    | Some l => [("ligand-smiles", AStr l)]
                    | None => []
                    end
                 ++ match if_given ccd with
                    | Some l => [("ligand-ccd", AStr l)]
                    | None => []
                    end)
                ++ match if_given od with Some d => [("output", AStr d)] | None => [] end
                ++ (if msa then [] else [("no-msa-server", AFlag)])
                ++ (if pot then [("use-potentials", AFlag)] else []))
        else None
    | None, None => None
    end.
Proof.
  unfold affinity_args.
  destruct (if_given inf) as [f|].
  - simpl dict_set. rewrite common_args_app; try done;
      simpl; rewrite !not_elem_of_cons; split_and!; try done; apply not_elem_of_nil.
  - destruct (if_given pseq) as [q|]; [|done].
    destruct (given smiles || given ccd); [|done].
    destruct (if_given smiles) as [l1|], (if_given ccd) as [l2|];
      simpl dict_set; rewrite common_args_app; try done;
      simpl; rewrite !not_elem_of_cons; split_and!; try done; apply not_elem_of_nil.
Qed.

Lemma given_as_if_given o :
  given o = match if_given o with Some _ => true | None => false end.
Proof.
  destruct o as [s|]; simpl; [|done]. by destruct (bool_decide (s = "")).
Qed.

(** X1. Of all the keys the two submit tools can put into the args mapping,
    [output_format] is the only one whose flag the target script's parser
    does not take. *)
Theorem only_output_format_is_unknown (k : string) (v : ArgValue)
    (args : list (string * ArgValue)) :
  (k, v) ∈ args →
  (∀ input_file sequence output_dir use_msa_server use_potentials output_format,
     structure_args input_file sequence output_dir use_msa_server
       use_potentials output_format = Some args →
     (Scripts.recognised Scripts.structure_options ("--" +:+ k) = false
      ↔ k = "output_format"))
  ∧ (∀ input_file protein_sequence ligand_smiles ligand_ccd output_dir
       use_msa_server use_potentials output_format,
     affinity_args input_file protein_sequence ligand_smiles ligand_ccd
       output_dir use_msa_server use_potentials output_format = Some args →
     (Scripts.recognised Scripts.affinity_options ("--" +:+ k) = false
      ↔ k = "output_format")).
Proof.
  intros Hin. split.
  - intros inf seq od msa pot fmt. rewrite structure_args_exact.
    destruct (if_given inf) as [f|]; [|destruct (if_given seq) as [q|]; [|done]];
      destruct (if_given od) as [d|], msa, pot; intros [= <-];
      simpl in Hin; rewrite ?elem_of_cons, ?elem_of_nil in Hin;
      destruct_or!; try done; simplify_eq; by vm_compute.
  - intros inf pseq smiles ccd od msa pot fmt. rewrite affinity_args_exact.
    destruct (if_given inf) as [f|];
      [|destruct (if_given pseq) as [q|]; [|done];
        destruct (given smiles || given ccd); [|done];
        destruct (if_given smiles) as [l1|], (if_given ccd) as [l2|]];
      destruct (if_given od) as [d|], msa, pot; intros [= <-];
      simpl in Hin; rewrite ?elem_of_cons, ?elem_of_nil in Hin;
      destruct_or!; try done; simplify_eq; by vm_compute.
Qed.

End SubmittedArguments.

Section InputSources.
Import Py Jobs Server.

(** Decide a statement about the keys of a mapping that is known in full. *)
Ltac decided := apply (bool_decide_unpack _); vm_compute; exact I.

Ltac keys :=
  first [ decided
        | split; keys
        | left; keys
        | right; keys
        | let H := fresh in
          intro H; first [ keys | exfalso; revert H; decided ] ].

(** X2. The args mapping of a structure submission has no repeated key and
    names exactly one input source, [input] or [sequence]; that of an
    affinity submission has no repeated key, names exactly one of [input]
    and [protein-seq], carries a ligand whenever it carries [protein-seq],
    and carries no ligand when it carries [input]. *)
Theorem one_input_source (args : list (string * ArgValue)) :
  (∀ input_file sequence output_dir use_msa_server use_potentials output_format,
     structure_args input_file sequence output_dir use_msa_server
       use_potentials output_format = Some args →
     NoDup args.*1 ∧ ("input" ∈ (args.*1) ↔ ("sequence" ∉ args.*1)))
  ∧ (∀ input_file protein_sequence ligand_smiles ligand_ccd output_dir
       use_msa_server use_potentials output_format,
     affinity_args input_file protein_sequence ligand_smiles ligand_ccd
       output_dir use_msa_server use_potentials output_format = Some args →
     NoDup args.*1
     ∧ ("input" ∈ (args.*1) ↔ ("protein-seq" ∉ args.*1))
     ∧ ("protein-seq" ∈ (args.*1) →
          "ligand-smiles" ∈ (args.*1) ∨ "ligand-ccd" ∈ (args.*1))
     ∧ ("input" ∈ (args.*1) →
          ("ligand-smiles" ∉ args.*1) ∧ ("ligand-ccd" ∉ args.*1))).
Proof.
  split.
  - intros inf seq od msa pot fmt. rewrite structure_args_exact.
    destruct (if_given inf) as [f|]; [|destruct (if_given seq) as [q|]; [|done]];
      destruct (if_given od) as [d|], msa, pot; intros [= <-]; simpl; keys.
  - intros inf pseq smiles ccd od msa pot fmt. rewrite affinity_args_exact.
    rewrite !given_as_if_given.
    destruct (if_given inf) as [f|];
      [|destruct (if_given pseq) as [q|]; [|done];
        destruct (if_given smiles) as [l1|], (if_given ccd) as [l2|]; simpl orb; try done];
      destruct (if_given od) as [d|], msa, pot; intros [= <-]; simpl; keys.
Qed.

(** X3. With [input_file] given together with a protein sequence or a
    ligand, [submit_affinity_prediction] submits a job in which only the
    input file counts, exactly as if the other three had not been passed;
    [run_affinity_prediction] raises ValueError before doing anything, and
    [simple_affinity_prediction] returns that as an error dictionary. *)
Theorem affinity_file_and_sequence (SCRIPTS_DIR : string)
    (input_file protein_sequence ligand_smiles ligand_ccd output_dir : option string)
    (use_msa_server use_potentials : bool) (output_format : string)
    (job_name : option string) (now : nat) (o : Orchestrator) :
  given input_file = true →
  given protein_sequence || given ligand_smiles || given ligand_ccd = true →
  (∃ args,
      affinity_args input_file protein_sequence ligand_smiles ligand_ccd
        output_dir use_msa_server use_potentials output_format = Some args
      ∧ "input" ∈ (args.*1)
      ∧ ("protein-seq" ∉ args.*1) ∧ ("ligand-smiles" ∉ args.*1)
      ∧ ("ligand-ccd" ∉ args.*1)
      ∧ submit_affinity_prediction SCRIPTS_DIR input_file protein_sequence
          ligand_smiles ligand_ccd output_dir use_msa_server use_potentials
          output_format job_name now o
        = submit_affinity_prediction SCRIPTS_DIR input_file None None None
            output_dir use_msa_server use_potentials output_format job_name
            now o
      ∧ submit_affinity_prediction SCRIPTS_DIR input_file protein_sequence
          ligand_smiles ligand_ccd output_dir use_msa_server use_potentials
          output_format job_name now o
        = submit_job (script_in SCRIPTS_DIR "affinity_prediction.py") args
            (or_else job_name "affinity_prediction") now o)
  ∧ (∀ w config kwargs t,
       Scripts.run_affinity_prediction w input_file protein_sequence
         ligand_smiles ligand_ccd output_dir config kwargs t
       = (Fail (ValueError
            "Provide either input_file OR (protein_sequence + ligand), not both"),
          t))
  ∧ (∀ w t,
       simple_affinity_prediction w input_file protein_sequence ligand_smiles
         ligand_ccd output_dir use_msa_server output_format t
       = (error_dict
            "Invalid input: Provide either input_file OR (protein_sequence + ligand), not both",
          t)).
Proof.
  intros Hf Hother.
  assert (∀ w config kwargs t,
       Scripts.run_affinity_prediction w input_file protein_sequence
         ligand_smiles ligand_ccd output_dir config kwargs t
       = (Fail (ValueError
            "Provide either input_file OR (protein_sequence + ligand), not both"),
          t)) as Hsync.
  { intros. unfold Scripts.run_affinity_prediction. by rewrite Hf, Hother. }
  split; [|split; [done|]].
  - unfold submit_affinity_prediction. rewrite !affinity_args_exact.
    rewrite given_as_if_given in Hf.
    destruct (if_given input_file) as [f|]; [|done].
    eexists. split; [reflexivity|].
    destruct (if_given output_dir) as [d|], use_msa_server, use_potentials; simpl;
      split_and!; try done; decided.
  - intros w t. unfold simple_affinity_prediction. by rewrite Hsync.
Qed.

(** X4. Whatever a submit tool turns down for want of an input, the
    synchronous tool for the same prediction turns down as well, with an
    error dictionary and before touching the file system or starting a
    process. *)
Theorem rejected_by_both_paths
    (input_file sequence protein_sequence ligand_smiles ligand_ccd
       output_dir : option string)
    (use_msa_server use_potentials : bool) (output_format : string)
    (w : Scripts.World) (t : list Scripts.Event) :
  (structure_args input_file sequence output_dir use_msa_server use_potentials
     output_format = None →
   simple_structure_prediction w input_file sequence output_dir use_msa_server
     output_format t
   = (error_dict "Invalid input: Must provide either input_file or sequence", t))
  ∧ (affinity_args input_file protein_sequence ligand_smiles ligand_ccd
       output_dir use_msa_server use_potentials output_format = None →
     simple_affinity_prediction w input_file protein_sequence ligand_smiles
       ligand_ccd output_dir use_msa_server output_format t
     = (error_dict
          (if given protein_sequence
           then "Invalid input: Must provide either ligand_smiles or ligand_ccd when not using input_file"
           else "Invalid input: Must provide protein_sequence when not using input_file"),
        t)).
Proof.
  split.
  - rewrite structure_args_exact.
    destruct (if_given input_file) as [f|] eqn:Hf; [done|].
    destruct (if_given sequence) as [q|] eqn:Hq; [done|]. intros _.
    unfold simple_structure_prediction, Scripts.run_structure_prediction.
    by rewrite !given_as_if_given, Hf, Hq.
  - rewrite affinity_args_exact.
    destruct (if_given input_file) as [f|] eqn:Hf; [done|].
    unfold simple_affinity_prediction, Scripts.run_affinity_prediction.
    rewrite (given_as_if_given input_file), Hf. simpl.
    destruct (if_given protein_sequence) as [q|] eqn:Hq.
    + rewrite (given_as_if_given protein_sequence), Hq. simpl.
      destruct (given ligand_smiles || given ligand_ccd) eqn:Hl; [done|].
      intros _. apply orb_false_elim in Hl as [-> ->]. done.
    + intros _. by rewrite (given_as_if_given protein_sequence), Hq.
Qed.

End InputSources.

(* ===================================================================== *)
(** * Part XI. Further properties of the prediction scripts *)
(* ===================================================================== *)

Section FileMode.
Import Py Scripts Traces.

Lemma emits_ret {A} P (a : A) : emits P (ret a).
Proof. intros t r t' [= <- <-]. exists []. by rewrite app_nil_r. Qed.

Lemma emits_raise {A} P e : emits P (raise (A := A) e).
Proof. intros t r t' [= <- <-]. exists []. by rewrite app_nil_r. Qed.

Lemma emits_bind {A B} P (c : M A) (k : A → M B) :
  emits P c → (∀ a, emits P (k a)) → emits P (bind c k).
Proof.
  intros Hc Hk t r t'. unfold bind.
  destruct (c t) as [[a|e] t1] eqn:Hct.
  - intros Hka. destruct (Hc _ _ _ Hct) as (evs1 & -> & H1).
    destruct (Hk a _ _ _ Hka) as (evs2 & -> & H2).
    exists (evs1 ++ evs2). rewrite app_assoc. split; [done|]. by apply Forall_app.
  - intros [= <- <-]. by apply (Hc _ _ _ Hct).
Qed.

Lemma emits_bind_post {A B} P (Q : A → Prop) (c : M A) (k : A → M B) :
  emits P c → (∀ t a t', c t = (Ok a, t') → Q a) →
  (∀ a, Q a → emits P (k a)) → emits P (bind c k).
Proof.
  intros Hc HQ Hk t r t'. unfold bind.
  destruct (c t) as [[a|e] t1] eqn:Hct.
  - intros Hka. destruct (Hc _ _ _ Hct) as (evs1 & -> & H1).
    destruct (Hk a (HQ _ _ _ Hct) _ _ _ Hka) as (evs2 & -> & H2).
    exists (evs1 ++ evs2). rewrite app_assoc. split; [done|]. by apply Forall_app.
  - intros [= <- <-]. by apply (Hc _ _ _ Hct).
Qed.

Lemma emits_act P ev outcome : P ev → emits P (act ev outcome).
Proof.
  intros Hev t r t'. unfold act.
  destruct (outcome t); intros [= <- <-]; exists [ev]; split; auto.
Qed.

Lemma emits_ask {A} P (q : list Event → A) : emits P (ask q).
Proof. intros t r t' [= <- <-]. exists []. by rewrite app_nil_r. Qed.

Lemma emits_ask_or_raise {A} P (q : list Event → res PyExc A) :
  emits P (ask_or_raise q).
Proof. intros t r t' [= <- <-]. exists []. by rewrite app_nil_r. Qed.

Lemma emits_index P d k : emits P (index d k).
Proof. unfold index. destruct (d !! k); [apply emits_ret | apply emits_raise]. Qed.

Lemma emits_boltz_predict P w iy od msa pot fmt :
  (∀ argv, P (RunProcess argv)) → emits P (boltz_predict w iy od msa pot fmt).
Proof.
  intros HP. unfold boltz_predict. apply emits_bind.
  - unfold subprocess_run. destruct (as_strings _) as [argv|]; [|apply emits_raise].
    intros t r t'. destruct (spawn w t argv); intros [= <- <-];
      exists [RunProcess argv]; split; auto.
  - intros [argv c]. destruct (returncode c =? 0)%Z; apply emits_ret.
Qed.

Ltac emits_step :=
  first [ apply emits_ret | apply emits_raise | apply emits_ask
        | apply emits_ask_or_raise | apply emits_index
        | apply emits_boltz_predict; done
        | apply emits_act; done
        | apply emits_bind; [|intros ?]
        | match goal with
          | |- emits _ (if ?b then _ else _) => destruct b
          end ].

(** X5. When [input_file] is given, [run_structure_prediction] and
    [run_affinity_prediction], however they end, add to the trace only the
    creation of the output directory and the run of the process: no file is
    written and none is removed, so the input file is left as it was. *)
Theorem file_mode_leaves_files (w : World)
    (input_file sequence protein_sequence ligand_smiles ligand_ccd
       output_dir : option string)
    (config : option (gmap string PyVal)) (kwargs : gmap string PyVal) :
  given input_file = true →
  emits leaves_files
    (run_structure_prediction w input_file sequence output_dir config kwargs)
  ∧ emits leaves_files
      (run_affinity_prediction w input_file protein_sequence ligand_smiles
         ligand_ccd output_dir config kwargs).
Proof.
  intros Hf. destruct input_file as [f|]; [|done]. simpl in Hf.
  destruct (bool_decide (f = "")) eqn:Hfe; [done|].
  split.
  - unfold run_structure_prediction. simpl. rewrite Hfe. simpl.
    destruct (given sequence); [apply emits_raise|].
    emits_step; [emits_step|].
    apply (emits_bind_post _ (λ a, a.2 = false)).
    { emits_step; [emits_step|]. destruct a0; emits_step. }
    { intros t [p b] t' (there & t1 & _ & Hk)%bind_ok.
      destruct there; [|done]. by injection Hk as <- <- _. }
    intros [p cleanup] Hc. simpl in Hc. subst cleanup.
    repeat emits_step.
  - unfold run_affinity_prediction. simpl. rewrite Hfe. simpl.
    destruct (given protein_sequence || given ligand_smiles || given ligand_ccd);
      [apply emits_raise|].
    emits_step; [emits_step|].
    apply (emits_bind_post _ (λ a, a.2 = false)).
    { emits_step; [emits_step|]. destruct a0; emits_step. }
    { intros t [p b] t' (there & t1 & _ & Hk)%bind_ok.
      destruct there; [|done]. by injection Hk as <- <- _. }
    intros [p cleanup] Hc. simpl in Hc. subst cleanup.
    repeat emits_step.
Qed.

End FileMode.

Section SequenceMode.
Import Py Scripts.

Ltac unbind H :=
  let a := fresh "a" in
  let t := fresh "t" in
  let Hc := fresh "Hc" in
  apply bind_ok in H as (a & t & Hc & H).

Lemma as_strings_boltz_cmd iy od msa pot fmt argv :
  as_strings (boltz_cmd iy od msa pot fmt) = Some argv →
  ∃ f, fmt = PStr f
       ∧ argv = ["boltz"; "predict"; iy; "--out_dir"; od; "--output_format"; f]
                ++ (if truthy msa then ["--use_msa_server"] else [])
                ++ (if truthy pot then ["--use_potentials"] else []).
Proof.
  unfold boltz_cmd.
  destruct fmt as [| | |f| |]; try (destruct (truthy msa), (truthy pot); done).
  intros H. exists f. split; [done|].
  destruct (truthy msa), (truthy pot); by injection H as <-.
Qed.

Lemma run_structure_sequence_mode w input_file sequence output_dir config kwargs
    t d t' :
  given input_file = false →
  run_structure_prediction w input_file sequence output_dir config kwargs t
    = (Ok d, t') →
  ∃ prefix msa pot f c cleanup,
    let merged := dict_merge (dict_merge DEFAULT_CONFIG (default ∅ config)) kwargs in
    let od := path_str w (or_else output_dir "./boltz_structure_output") in
    let p := path_str w (path_join w od (py_str w prefix +:+ ".yaml")) in
    let protein : gmap string PyVal :=
      <["sequence" := of_option sequence]> {["id" := PStr "A"]} in
    let yaml :=
      PDict (<["sequences" :=
                 PList [PDict {["protein" :=
                   PDict (if truthy msa then protein
                          else <["msa" := PStr "empty"]> protein)]}]]>
             {["version" := PInt 1]}) in
    let argv := ["boltz"; "predict"; p; "--out_dir"; od; "--output_format"; f]
                ++ (if truthy msa then ["--use_msa_server"] else [])
                ++ (if truthy pot then ["--use_potentials"] else []) in
    given sequence = true
    ∧ merged !! "temp_prefix" = Some prefix
    ∧ merged !! "use_msa_server" = Some msa
    ∧ merged !! "use_potentials" = Some pot
    ∧ merged !! "output_format" = Some (PStr f)
    ∧ spawn w (t ++ [Mkdir od; WriteYaml p yaml]) argv = Ok c
    ∧ cleanup
      = (if path_exists w (t ++ [Mkdir od; WriteYaml p yaml; RunProcess argv]) p
         then [Unlink p] else [])
    ∧ t' = t ++ [Mkdir od; WriteYaml p yaml; RunProcess argv] ++ cleanup.
Proof.
  intros Hf. unfold run_structure_prediction. rewrite Hf. simpl.
  destruct (given sequence) eqn:Hs; [|done]. simpl.
  rewrite (given_if_given _ Hf).
  intros H.
  unbind H. apply act_ok in Hc as [_ ->].
  unbind H. destruct a0 as [input_yaml_path cleanup_temp].
  unbind Hc. apply index_ok in Hc0 as [Hprefix ->].
  unbind Hc. apply index_ok in Hc0 as [Hmsa ->].
  unbind Hc. unfold create_protein_yaml in Hc0.
  unbind Hc0. apply act_ok in Hc1 as [_ ->].
  injection Hc0 as <- <-. injection Hc as <- <- <-.
  unbind H. apply index_ok in Hc as [Hmsa' ->].
  unbind H. apply index_ok in Hc as [Hpot ->].
  unbind H. apply index_ok in Hc as [Hfmt ->].
  unbind H. apply boltz_predict_ok in Hc as (argv & c & Hcmd & Hsp & -> & _).
  unbind H. apply ask_or_raise_ok in Hc as [_ ->].
  unbind H. apply (cleanup_ok w _ true) in Hc as ->.
  unbind H. apply index_ok in Hc as [_ ->].
  match type of H with
  | (if ?b then _ else _) ?tt = _ =>
      assert (t' = tt) as -> by (destruct b; by injection H)
  end.
  clear H.
  apply as_strings_boltz_cmd in Hcmd as (f & -> & ->).
  rewrite Hmsa in Hmsa'. injection Hmsa' as <-.
  eexists a0, a1, a4, f, c, _. cbv zeta.
  rewrite <- !app_assoc in *. simpl in *.
  split_and!; try reflexivity; try done;
    destruct (truthy a1); simpl in *; done.
Qed.

Lemma truthy_of_option o : truthy (of_option o) = given o.
Proof. by destruct o. Qed.

Lemma run_affinity_sequence_mode w input_file protein_sequence ligand_smiles
    ligand_ccd output_dir config kwargs t d t' :
  given input_file = false →
  run_affinity_prediction w input_file protein_sequence ligand_smiles ligand_ccd
    output_dir config kwargs t = (Ok d, t') →
  ∃ prefix protein_id ligand_id msa pot f c cleanup r,
    let merged :=
      dict_merge (dict_merge AFFINITY_DEFAULT_CONFIG (default ∅ config)) kwargs in
    let od := path_str w (or_else output_dir "./boltz_affinity_output") in
    let p := path_str w (path_join w od (py_str w prefix +:+ ".yaml")) in
    let ligand : gmap string PyVal :=
      if given ligand_ccd
      then <["ccd" := of_option ligand_ccd]> {["id" := ligand_id]}
      else <["smiles" := of_option ligand_smiles]> {["id" := ligand_id]} in
    let yaml :=
      PDict (<["properties" :=
                 PList [PDict {["affinity" := PDict {["binder" := ligand_id]}]}]]>
            (<["sequences" :=
                 PList [PDict {["protein" :=
                                  PDict (<["sequence" := of_option protein_sequence]>
                                         {["id" := protein_id]})]};
                        PDict {["ligand" := PDict ligand]}]]>
            {["version" := PInt 1]})) in
    let argv := ["boltz"; "predict"; p; "--out_dir"; od; "--output_format"; f]
                ++ (if truthy msa then ["--use_msa_server"] else [])
                ++ (if truthy pot then ["--use_potentials"] else []) in
    given protein_sequence = true
    ∧ given ligand_smiles || given ligand_ccd = true
    ∧ merged !! "temp_prefix" = Some prefix
    ∧ merged !! "protein_id" = Some protein_id
    ∧ merged !! "ligand_id" = Some ligand_id
    ∧ merged !! "use_msa_server" = Some msa
    ∧ merged !! "use_potentials" = Some pot
    ∧ merged !! "output_format" = Some (PStr f)
    ∧ spawn w (t ++ [Mkdir od; WriteYaml p yaml]) argv = Ok c
    ∧ cleanup
      = (if path_exists w (t ++ [Mkdir od; WriteYaml p yaml; RunProcess argv]) p
         then [Unlink p] else [])
    ∧ t' = t ++ [Mkdir od; WriteYaml p yaml; RunProcess argv] ++ cleanup
    ∧ d !! "result" = Some (PDict r)
    ∧ r !! "ligand_type"
      = Some (if given ligand_smiles then PStr "smiles"
              else if given ligand_ccd then PStr "ccd" else PNone)
    ∧ r !! "ligand_input"
      = Some (if given ligand_smiles then of_option ligand_smiles
              else of_option ligand_ccd).
Proof.
  intros Hf. unfold run_affinity_prediction. rewrite Hf. simpl.
  destruct (given protein_sequence) eqn:Hs; [|done]. simpl.
  destruct (negb (given ligand_smiles) && negb (given ligand_ccd)) eqn:Hl; [done|].
  assert (given ligand_smiles || given ligand_ccd = true) as Hlig.
  { destruct (given ligand_smiles), (given ligand_ccd); done. }
  rewrite (given_if_given _ Hf).
  intros H.
  unbind H. apply act_ok in Hc as [_ ->].
  unbind H. destruct a0 as [input_yaml_path cleanup_temp].
  unbind Hc. apply index_ok in Hc0 as [Hprefix ->].
  unbind Hc. apply index_ok in Hc0 as [Hpid ->].
  unbind Hc. apply index_ok in Hc0 as [Hlid ->].
  unbind Hc. unfold create_affinity_yaml in Hc0.
  unbind Hc0. apply act_ok in Hc1 as [_ ->].
  injection Hc0 as <- <-. injection Hc as <- <- <-.
  unbind H. apply index_ok in Hc as [Hmsa ->].
  unbind H. apply index_ok in Hc as [Hpot ->].
  unbind H. apply index_ok in Hc as [Hfmt ->].
  unbind H. apply boltz_predict_ok in Hc as (argv & c & Hcmd & Hsp & -> & _).
  unbind H. apply ask_or_raise_ok in Hc as [_ ->].
  unbind H. apply ask_or_raise_ok in Hc as [_ ->].
  unbind H. apply (cleanup_ok w _ true) in Hc as ->.
  unbind H. apply index_ok in Hc as [_ ->].
  apply as_strings_boltz_cmd in Hcmd as (f & -> & ->).
  rewrite truthy_of_option in *.
  match type of H with
  | (if ?b then ret (with_failure ?pr (<["metadata" := ?m]> (<["output_files" := ?ofs]>
       (<["output_dir" := ?o]> (<["result" := PDict ?r]> ?rest))))) else _) ?tt = _ =>
      assert (t' = tt ∧ d !! "result" = Some (PDict r)) as [-> Hd]
        by (destruct b; injection H as <- <-;
            (split; [done|]); unfold with_failure; by simplify_map_eq)
  end.
  clear H.
  eexists a0, a1, a2, a3, a5, f, c, _, _. cbv zeta.
  rewrite <- !app_assoc in *. simpl in *.
  split_and!; try reflexivity; try done; try (by simplify_map_eq).
Qed.

(** X7. With a protein sequence and both [ligand_smiles] and [ligand_ccd]
    given, a run of [run_affinity_prediction] that returns has written a
    YAML file whose ligand is described by the CCD code only, and has run
    the process on that file, while the record it returns names the SMILES
    string as the ligand input and "smiles" as its type. *)
Theorem ligand_ccd_used_smiles_reported (w : World)
    (input_file protein_sequence ligand_smiles ligand_ccd output_dir : option string)
    (config : option (gmap string PyVal)) (kwargs : gmap string PyVal)
    (t t' : list Event) (d : gmap string PyVal) :
  given input_file = false →
  given ligand_smiles = true → given ligand_ccd = true →
  run_affinity_prediction w input_file protein_sequence ligand_smiles ligand_ccd
    output_dir config kwargs t = (Ok d, t') →
  ∃ od p protein ligand_id properties argv cleanup r,
    t' = t ++ [Mkdir od;
               WriteYaml p
                 (PDict (<["properties" := properties]>
                        (<["sequences" :=
                             PList [protein;
                                    PDict {["ligand" :=
                                      PDict (<["ccd" := of_option ligand_ccd]>
                                             {["id" := ligand_id]})]}]]>
                        {["version" := PInt 1]})));
               RunProcess argv] ++ cleanup
    ∧ argv !! 2 = Some p
    ∧ d !! "result" = Some (PDict r)
    ∧ r !! "ligand_type" = Some (PStr "smiles")
    ∧ r !! "ligand_input" = Some (of_option ligand_smiles).
Proof.
  intros Hf Hs Hc Hrun.
  destruct (run_affinity_sequence_mode _ _ _ _ _ _ _ _ _ _ _ Hf Hrun)
    as (prefix & pid & lid & msa & pot & f & c & cleanup & r & H).
  cbv zeta in H. rewrite Hs, Hc in H.
  destruct H as (_ & _ & _ & _ & _ & _ & _ & _ & _ & _ & -> & Hd & Hty & Hin).
  eexists _, _, _, _, _, _, cleanup, r. split; [reflexivity|].
  split; [done|]. done.
Qed.

End SequenceMode.

Section SequenceModeProperties.
Import Py Scripts Server.

(** X6. A run on a sequence that returns has created the output directory,
    written one YAML file, and run the process with that file as its input
    and that directory as its output. After the run it has asked whether
    the file is still there: if it is, the run has removed that same file
    as its last action, and if it is not, the run has done nothing more.
    This holds for [run_structure_prediction] and for
    [run_affinity_prediction]. *)
Theorem sequence_mode_trace (w : World)
    (input_file sequence protein_sequence ligand_smiles ligand_ccd
       output_dir : option string)
    (config : option (gmap string PyVal)) (kwargs : gmap string PyVal)
    (t t' : list Event) (d : gmap string PyVal) :
  given input_file = false →
  (run_structure_prediction w input_file sequence output_dir config kwargs t
     = (Ok d, t') →
   ∃ od p yaml argv,
     let ran := t ++ [Mkdir od; WriteYaml p yaml; RunProcess argv] in
     t' = ran ++ (if path_exists w ran p then [Unlink p] else [])
     ∧ argv !! 2 = Some p ∧ argv !! 4 = Some od)
  ∧ (run_affinity_prediction w input_file protein_sequence ligand_smiles
       ligand_ccd output_dir config kwargs t = (Ok d, t') →
     ∃ od p yaml argv,
       let ran := t ++ [Mkdir od; WriteYaml p yaml; RunProcess argv] in
       t' = ran ++ (if path_exists w ran p then [Unlink p] else [])
       ∧ argv !! 2 = Some p ∧ argv !! 4 = Some od).
Proof.
  intros Hf. split; intros Hrun.
  - destruct (run_structure_sequence_mode _ _ _ _ _ _ _ _ _ Hf Hrun)
      as (prefix & msa & pot & f & c & cleanup & H). cbv zeta in H.
    destruct H as (_ & _ & _ & _ & _ & _ & -> & ->).
    eexists _, _, _, _. cbv zeta. rewrite <- app_assoc.
    split; [reflexivity|]. done.
  - destruct (run_affinity_sequence_mode _ _ _ _ _ _ _ _ _ _ _ Hf Hrun)
      as (prefix & pid & lid & msa & pot & f & c & cleanup & r & H).
    cbv zeta in H.
    destruct H as (_ & _ & _ & _ & _ & _ & _ & _ & _ & -> & -> & _).
    eexists _, _, _, _. cbv zeta. rewrite <- app_assoc.
    split; [reflexivity|]. done.
Qed.

(** X8. In a structure run on a sequence, the YAML file says [msa: empty]
    exactly when the command line does not carry [--use_msa_server]. In an
    affinity run the protein entry of the YAML file holds the chain id and
    the sequence and nothing else, whether the MSA server is used or not. *)
Theorem msa_setting_in_yaml (w : World)
    (input_file sequence protein_sequence ligand_smiles ligand_ccd
       output_dir : option string)
    (config : option (gmap string PyVal)) (kwargs : gmap string PyVal)
    (t t' : list Event) (d : gmap string PyVal) :
  given input_file = false →
  (run_structure_prediction w input_file sequence output_dir config kwargs t
     = (Ok d, t') →
   ∃ od p protein argv cleanup,
     t' = t ++ [Mkdir od;
                WriteYaml p
                  (PDict (<["sequences" := PList [PDict {["protein" := PDict protein]}]]>
                          {["version" := PInt 1]}));
                RunProcess argv] ++ cleanup
     ∧ ((protein !! "msa" = Some (PStr "empty")
         ∧ argv !! 7 ≠ Some "--use_msa_server")
        ∨ (protein !! "msa" = None ∧ argv !! 7 = Some "--use_msa_server")))
  ∧ (run_affinity_prediction w input_file protein_sequence ligand_smiles
       ligand_ccd output_dir config kwargs t = (Ok d, t') →
     ∃ od p protein_id ligand properties argv cleanup,
       t' = t ++ [Mkdir od;
                  WriteYaml p
                    (PDict (<["properties" := properties]>
                           (<["sequences" :=
                                PList [PDict {["protein" :=
                                         PDict (<["sequence" := of_option protein_sequence]>
                                                {["id" := protein_id]})]};
                                       ligand]]>
                           {["version" := PInt 1]})));
                  RunProcess argv] ++ cleanup).
Proof.
  intros Hf. split; intros Hrun.
  - destruct (run_structure_sequence_mode _ _ _ _ _ _ _ _ _ Hf Hrun)
      as (prefix & msa & pot & f & c & cleanup & H). cbv zeta in H.
    destruct H as (_ & _ & _ & _ & _ & _ & Hcl & ->).
    eexists _, _, _, _, cleanup. split; [reflexivity|].
    destruct (truthy msa); [right | left]; simpl.
    + split; [by simplify_map_eq|done].
    + split; [by simplify_map_eq|]. by destruct (truthy pot).
  - destruct (run_affinity_sequence_mode _ _ _ _ _ _ _ _ _ _ _ Hf Hrun)
      as (prefix & pid & lid & msa & pot & f & c & cleanup & r & H).
    cbv zeta in H.
    destruct H as (_ & _ & _ & _ & _ & _ & _ & _ & _ & Hcl & -> & _).
    eexists _, _, _, _, _, _, cleanup. reflexivity.
Qed.

Lemma bind_ret {A B} (a : A) (k : A → M B) t : bind (ret a) k t = k a t.
Proof. done. Qed.

Lemma bind_assoc {A B C} (c : M A) (k1 : A → M B) (k2 : B → M C) t :
  bind (bind c k1) k2 t = bind c (λ a, bind (k1 a) k2) t.
Proof. unfold bind. by destruct (c t) as [[a|e] t1]. Qed.

Lemma bind_act {B} ev outcome (k : unit → M B) t :
  outcome t = None → bind (act ev outcome) k t = k () (t ++ [ev]).
Proof. intros H. unfold bind, act. by rewrite H. Qed.

Lemma bind_index {B} d key v (k : PyVal → M B) t :
  d !! key = Some v → bind (index d key) k t = k v t.
Proof. intros H. unfold bind, index. by rewrite H. Qed.

Lemma simple_kwargs_lookup (msa : bool) (fmt : string)
    (defaults : gmap string PyVal) k :
  dict_merge (dict_merge defaults (default ∅ None))
    (<["output_format" := PStr fmt]> {["use_msa_server" := PBool msa]}) !! k
  = if bool_decide (k = "output_format") then Some (PStr fmt)
    else if bool_decide (k = "use_msa_server") then Some (PBool msa)
    else defaults !! k.
Proof.
  unfold dict_merge. simpl. rewrite (left_id ∅ (∪)).
  repeat case_bool_decide; subst.
  - apply lookup_union_Some_l. by simplify_map_eq.
  - apply lookup_union_Some_l. by simplify_map_eq.
  - rewrite lookup_union_r; [done|]. by simplify_map_eq.
Qed.

(** X9. When the process cannot be started because the program is missing,
    while the directory and the YAML file can be written,
    [simple_structure_prediction] on a sequence returns the error
    dictionary "File not found: ..." and leaves the temporary YAML file
    behind: it is written and never removed. *)
Theorem missing_program_leaves_yaml (w : World)
    (input_file sequence output_dir : option string)
    (use_msa_server : bool) (output_format m : string) (t : list Event) :
  (∀ t0 p, mkdir w t0 p = None) →
  (∀ t0 p y, dump_yaml w t0 p y = None) →
  (∀ t0 argv, spawn w t0 argv = Fail (FileNotFoundError m)) →
  given input_file = false → given sequence = true →
  ∃ od p yaml argv,
    simple_structure_prediction w input_file sequence output_dir use_msa_server
      output_format t
    = (error_dict ("File not found: " +:+ m),
       t ++ [Mkdir od; WriteYaml p yaml; RunProcess argv])
    ∧ argv !! 2 = Some p.
Proof.
  intros Hmk Hdump Hsp Hf Hs.
  unfold simple_structure_prediction, run_structure_prediction.
  rewrite Hf, Hs. simpl. rewrite (given_if_given _ Hf).
  rewrite bind_act by apply Hmk.
  rewrite !bind_assoc.
  rewrite bind_index with (v := PStr "temp_input")
    by (by rewrite simple_kwargs_lookup).
  rewrite !bind_assoc.
  rewrite bind_index with (v := PBool use_msa_server)
    by (by rewrite simple_kwargs_lookup).
  unfold create_protein_yaml. rewrite !bind_assoc.
  rewrite bind_act by apply Hdump.
  rewrite !bind_ret.
  rewrite bind_index with (v := PBool use_msa_server)
    by (by rewrite simple_kwargs_lookup).
  rewrite bind_index with (v := PBool false)
    by (by rewrite simple_kwargs_lookup).
  rewrite bind_index with (v := PStr output_format)
    by (by rewrite simple_kwargs_lookup).
  unfold run_boltz_command, boltz_predict. rewrite !bind_assoc.
  unfold bind at 1, subprocess_run, boltz_cmd.
  destruct use_msa_server; simpl; rewrite Hsp; rewrite <- !app_assoc; simpl;
    eexists _, _, _, _; (split; [reflexivity|done]).
Qed.

Lemma bind_ask {A B} (q : list Event → A) (k : A → M B) t :
  bind (ask q) k t = k (q t) t.
Proof. done. Qed.

(** X19. When the input file does not exist, the synchronous tools return
    the error dictionary "File not found: Input file not found: <path>",
    having created the output directory and done nothing else. *)
Theorem missing_input_file (w : World) (f : string)
    (sequence protein_sequence ligand_smiles ligand_ccd output_dir : option string)
    (use_msa_server : bool) (output_format : string) (t : list Event) :
  f ≠ "" →
  (given sequence = false →
   let od := path_str w (or_else output_dir "./boltz_structure_output") in
   mkdir w t od = None →
   path_exists w (t ++ [Mkdir od]) (path_str w f) = false →
   simple_structure_prediction w (Some f) sequence output_dir use_msa_server
     output_format t
   = (error_dict ("File not found: Input file not found: " +:+ path_str w f),
      t ++ [Mkdir od]))
  ∧ (given protein_sequence || given ligand_smiles || given ligand_ccd = false →
     let od := path_str w (or_else output_dir "./boltz_affinity_output") in
     mkdir w t od = None →
     path_exists w (t ++ [Mkdir od]) (path_str w f) = false →
     simple_affinity_prediction w (Some f) protein_sequence ligand_smiles
       ligand_ccd output_dir use_msa_server output_format t
     = (error_dict ("File not found: Input file not found: " +:+ path_str w f),
        t ++ [Mkdir od])).
Proof.
  intros Hf. split.
  - intros Hs od Hmk Hex.
    unfold simple_structure_prediction, run_structure_prediction. simpl.
    rewrite bool_decide_eq_false_2 by done. rewrite Hs. simpl.
    rewrite bind_act by exact Hmk.
    rewrite !bind_assoc, bind_ask. fold od. rewrite Hex. done.
  - intros Hs od Hmk Hex.
    unfold simple_affinity_prediction, run_affinity_prediction. simpl.
    rewrite bool_decide_eq_false_2 by done. rewrite Hs. simpl.
    rewrite bind_act by exact Hmk.
    rewrite !bind_assoc, bind_ask. fold od. rewrite Hex. done.
Qed.

End SequenceModeProperties.

Section RunProperties.
Import Py Scripts Server.

Lemma merged_config_agree (defaults cfg1 cfg2 kwargs : gmap string PyVal) :
  (∀ k, kwargs !! k = None → cfg1 !! k = cfg2 !! k) →
  dict_merge (dict_merge defaults cfg1) kwargs
  = dict_merge (dict_merge defaults cfg2) kwargs.
Proof.
  intros Hagree. unfold dict_merge. apply map_eq. intros k.
  destruct (kwargs !! k) as [v|] eqn:Hk.
  - by rewrite !(lookup_union_Some_l _ _ _ _ Hk).
  - rewrite !(lookup_union_r kwargs) by done.
    specialize (Hagree k Hk).
    destruct (cfg1 !! k) as [v|] eqn:H1.
    + rewrite (lookup_union_Some_l _ _ _ _ H1). symmetry in Hagree.
      by rewrite (lookup_union_Some_l _ _ _ _ Hagree).
    + symmetry in Hagree. by rewrite !lookup_union_r.
Qed.

(** X10. A keyword argument wins over the configuration: two
    configurations that differ only on keys passed as keyword arguments
    give the same run of [run_structure_prediction] and of
    [run_affinity_prediction], in outcome and in trace. *)
Theorem keyword_overrides_config (w : World)
    (input_file sequence protein_sequence ligand_smiles ligand_ccd
       output_dir : option string)
    (config1 config2 kwargs : gmap string PyVal) (t : list Event) :
  (∀ k, kwargs !! k = None → config1 !! k = config2 !! k) →
  run_structure_prediction w input_file sequence output_dir (Some config1) kwargs t
  = run_structure_prediction w input_file sequence output_dir (Some config2) kwargs t
  ∧ run_affinity_prediction w input_file protein_sequence ligand_smiles ligand_ccd
      output_dir (Some config1) kwargs t
    = run_affinity_prediction w input_file protein_sequence ligand_smiles ligand_ccd
        output_dir (Some config2) kwargs t.
Proof.
  intros Hagree. split.
  - unfold run_structure_prediction. simpl (default _ _).
    by rewrite (merged_config_agree DEFAULT_CONFIG config1 config2 kwargs Hagree).
  - unfold run_affinity_prediction. simpl (default _ _).
    by rewrite (merged_config_agree AFFINITY_DEFAULT_CONFIG config1 config2 kwargs
                  Hagree).
Qed.

Ltac unbind H :=
  let a := fresh "a" in
  let t := fresh "t" in
  let Hc := fresh "Hc" in
  apply bind_ok in H as (a & t & Hc & H).

Lemma run_structure_no_status w input_file sequence output_dir config kwargs
    t d t' :
  run_structure_prediction w input_file sequence output_dir config kwargs t
    = (Ok d, t') → d !! "status" = None.
Proof.
  unfold run_structure_prediction.
  destruct (negb (given input_file) && negb (given sequence)); [done|].
  destruct (given input_file && given sequence); [done|].
  intros H. unbind H. unbind H. destruct a0 as [p cleanup]. do 7 unbind H.
  match type of H with
  | (if ?b then _ else _) _ = _ => destruct b
  end; injection H as <- _; unfold with_failure; by simplify_map_eq.
Qed.

Lemma run_affinity_no_status w input_file protein_sequence ligand_smiles
    ligand_ccd output_dir config kwargs t d t' :
  run_affinity_prediction w input_file protein_sequence ligand_smiles ligand_ccd
    output_dir config kwargs t = (Ok d, t') → d !! "status" = None.
Proof.
  unfold run_affinity_prediction.
  destruct (given input_file && _); [done|].
  destruct (negb (given input_file) && negb (given protein_sequence)); [done|].
  destruct (negb (given input_file) && _); [done|].
  intros H. unbind H. unbind H. destruct a0 as [p cleanup]. do 8 unbind H.
  match type of H with
  | (if ?b then _ else _) _ = _ => destruct b
  end; injection H as <- _; unfold with_failure; by simplify_map_eq.
Qed.

Lemma error_dict_no_success msg : error_dict msg !! "success" = None.
Proof. unfold error_dict. by simplify_map_eq. Qed.

Lemma success_status (d : gmap string PyVal) :
  d !! "status" = None →
  dict_merge {["status" := PStr "success"]} d !! "status" = Some (PStr "success").
Proof.
  intros H. unfold dict_merge. rewrite lookup_union_r by done.
  by simplify_map_eq.
Qed.

Lemma merged_other (d : gmap string PyVal) k :
  k ≠ "status" → dict_merge {["status" := PStr "success"]} d !! k = d !! k.
Proof.
  intros H. unfold dict_merge.
  destruct (d !! k) as [v|] eqn:Hd.
  - by apply lookup_union_Some_l.
  - rewrite lookup_union_r by done. by simplify_map_eq.
Qed.

(** X11. The synchronous tools report the status "success" whenever the run
    function returns, whatever the exit status of the process: a dictionary
    returned by [simple_structure_prediction] or
    [simple_affinity_prediction] whose [success] field is false has the
    status "success", and holds the error text and the captured stderr. *)
Theorem failed_process_has_status_success (w : World)
    (input_file sequence protein_sequence ligand_smiles ligand_ccd
       output_dir : option string)
    (use_msa_server : bool) (output_format : string)
    (t t' : list Event) (d : gmap string PyVal) :
  d !! "success" = Some (PBool false) →
  (simple_structure_prediction w input_file sequence output_dir use_msa_server
     output_format t = (d, t') →
   d !! "status" = Some (PStr "success")
   ∧ is_Some (d !! "error") ∧ is_Some (d !! "stderr"))
  ∧ (simple_affinity_prediction w input_file protein_sequence ligand_smiles
       ligand_ccd output_dir use_msa_server output_format t = (d, t') →
     d !! "status" = Some (PStr "success")
     ∧ is_Some (d !! "error") ∧ is_Some (d !! "stderr")).
Proof.
  intros Hfalse. split.
  - unfold simple_structure_prediction.
    destruct (run_structure_prediction _ _ _ _ _ _ _) as [[r|e] t1] eqn:Hrun.
    + intros [= <- <-].
      pose proof (run_structure_no_status _ _ _ _ _ _ _ _ _ Hrun) as Hst.
      destruct (run_structure_prediction_ok _ _ _ _ _ _ _ _ _ Hrun)
        as (argv & c & before & after & r0 & _ & _ & _ & _ & _ & _ & Hok & Hfail).
      rewrite merged_other in Hfalse by done.
      destruct (decide (returncode c = 0%Z)) as [Hz|Hnz].
      { rewrite (proj1 (Hok Hz)) in Hfalse. done. }
      destruct (Hfail Hnz) as (_ & He & Herr).
      rewrite success_status, !merged_other by done.
      rewrite He, Herr. eauto.
    + destruct e; intros [= <- <-]; by rewrite error_dict_no_success in Hfalse.
  - unfold simple_affinity_prediction.
    destruct (run_affinity_prediction _ _ _ _ _ _ _ _ _) as [[r|e] t1] eqn:Hrun.
    + intros [= <- <-].
      pose proof (run_affinity_no_status _ _ _ _ _ _ _ _ _ _ _ Hrun) as Hst.
      destruct (run_affinity_prediction_ok _ _ _ _ _ _ _ _ _ _ _ Hrun)
        as (argv & c & before & after & r0 & _ & _ & _ & _ & _ & _ & Hok & Hfail).
      rewrite merged_other in Hfalse by done.
      destruct (decide (returncode c = 0%Z)) as [Hz|Hnz].
      { rewrite (proj1 (Hok Hz)) in Hfalse. done. }
      destruct (Hfail Hnz) as (_ & He & Herr).
      rewrite success_status, !merged_other by done.
      rewrite He, Herr. eauto.
    + destruct e; intros [= <- <-]; by rewrite error_dict_no_success in Hfalse.
Qed.

Lemma length_append (a b : string) :
  String.length (a +:+ b) = String.length a + String.length b.
Proof. induction a as [|c a IH]; simpl; [done|]. by rewrite IH. Qed.

Lemma length_substring_0 (s : string) : ∀ n,
  n ≤ String.length s → String.length (substring 0 n s) = n.
Proof.
  induction s as [|c s IH]; intros [|n] Hn; simpl in *; try done; try lia.
  rewrite IH; [done|lia].
Qed.

Lemma abbreviated_bounded (sequence : option string) :
  match abbreviated sequence with
  | PStr s =>
      String.length s < 100
      ∧ ∃ q, sequence = Some q ∧ q ≠ ""
             ∧ (String.length q < 100 → s = q)
             ∧ (100 ≤ String.length q →
                  s = substring 0 50 q +:+ "..." ∧ String.length s = 53)
  | PNone => given sequence = false
  | _ => False
  end.
Proof.
  unfold abbreviated. destruct sequence as [q|]; simpl; [|done].
  case_bool_decide as Hq; simpl; [done|].
  destruct (String.length q <? 100) eqn:Hlen.
  - apply Nat.ltb_lt in Hlen. split; [done|]. exists q.
    split_and!; try done. lia.
  - apply Nat.ltb_ge in Hlen.
    assert (String.length (substring 0 50 q +:+ "...") = 53) as H53.
    { rewrite length_append, length_substring_0 by lia. done. }
    split; [lia|]. exists q. split_and!; try done. lia.
Qed.

Lemma run_structure_metadata w input_file sequence output_dir config kwargs
    t d t' :
  run_structure_prediction w input_file sequence output_dir config kwargs t
    = (Ok d, t') →
  ∃ m, d !! "metadata" = Some (PDict m)
       ∧ m !! "sequence" = Some (abbreviated sequence).
Proof.
  unfold run_structure_prediction.
  destruct (negb (given input_file) && negb (given sequence)); [done|].
  destruct (given input_file && given sequence); [done|].
  intros H. unbind H. unbind H. destruct a0 as [p cleanup]. do 7 unbind H.
  match type of H with
  | (if ?b then _ else _) _ = _ => destruct b
  end; injection H as <- _; unfold with_failure;
    (eexists; split; [by simplify_map_eq|]); by simplify_map_eq.
Qed.

Lemma run_affinity_metadata w input_file protein_sequence ligand_smiles
    ligand_ccd output_dir config kwargs t d t' :
  run_affinity_prediction w input_file protein_sequence ligand_smiles ligand_ccd
    output_dir config kwargs t = (Ok d, t') →
  ∃ m, d !! "metadata" = Some (PDict m)
       ∧ m !! "protein_sequence" = Some (abbreviated protein_sequence).
Proof.
  unfold run_affinity_prediction.
  destruct (given input_file && _); [done|].
  destruct (negb (given input_file) && negb (given protein_sequence)); [done|].
  destruct (negb (given input_file) && _); [done|].
  intros H. unbind H. unbind H. destruct a0 as [p cleanup]. do 8 unbind H.
  match type of H with
  | (if ?b then _ else _) _ = _ => destruct b
  end; injection H as <- _; unfold with_failure;
    (eexists; split; [by simplify_map_eq|]); by simplify_map_eq.
Qed.

(** X12. Every record returned by [run_structure_prediction] has a
    metadata dictionary whose [sequence] entry is the sequence itself when
    it has fewer than 100 characters, its first 50 characters followed by
    three dots, 53 characters in all, when it has 100 or more, and None
    when no sequence was given; so the metadata never holds 100 characters
    or more. The same holds for the [protein_sequence] entry of the
    metadata that [run_affinity_prediction] returns. *)
Theorem metadata_sequence_bounded (w : World)
    (input_file sequence protein_sequence ligand_smiles ligand_ccd
       output_dir : option string)
    (config : option (gmap string PyVal)) (kwargs : gmap string PyVal)
    (t t' : list Event) (d : gmap string PyVal) :
  (run_structure_prediction w input_file sequence output_dir config kwargs t
     = (Ok d, t') →
   ∃ m v,
     d !! "metadata" = Some (PDict m) ∧ m !! "sequence" = Some v
     ∧ match v with
       | PStr s =>
           String.length s < 100
           ∧ ∃ q, sequence = Some q ∧ q ≠ ""
                  ∧ (String.length q < 100 → s = q)
                  ∧ (100 ≤ String.length q →
                       s = substring 0 50 q +:+ "..." ∧ String.length s = 53)
       | PNone => given sequence = false
       | _ => False
       end)
  ∧ (run_affinity_prediction w input_file protein_sequence ligand_smiles
       ligand_ccd output_dir config kwargs t = (Ok d, t') →
     ∃ m v,
       d !! "metadata" = Some (PDict m) ∧ m !! "protein_sequence" = Some v
       ∧ match v with
         | PStr s =>
             String.length s < 100
             ∧ ∃ q, protein_sequence = Some q ∧ q ≠ ""
                    ∧ (String.length q < 100 → s = q)
                    ∧ (100 ≤ String.length q →
                         s = substring 0 50 q +:+ "..." ∧ String.length s = 53)
         | PNone => given protein_sequence = false
         | _ => False
         end).
Proof.
  split; intros Hrun.
  - destruct (run_structure_metadata _ _ _ _ _ _ _ _ _ Hrun) as (m & Hm & Hs).
    exists m, (abbreviated sequence). split; [done|]. split; [done|].
    apply abbreviated_bounded.
  - destruct (run_affinity_metadata _ _ _ _ _ _ _ _ _ _ _ Hrun) as (m & Hm & Hs).
    exists m, (abbreviated protein_sequence). split; [done|]. split; [done|].
    apply abbreviated_bounded.
Qed.

End RunProperties.

(* ===================================================================== *)
(** * Part XII. Further properties of validate_protein_sequence *)
(* ===================================================================== *)

Section ValidationProperties.
Import Py Server.
Context (fl : Floats).

(** Upper-casing a second time changes nothing: every code point that
    [upper_char] produces and that is a character of an argument (below
    256) is its own upper-case form. *)
Lemma upper_char_settled c :
  Forall (λ n, (n < 256)%N → upper_char (ascii_of_N n) = [n]) (upper_char c).
Proof.
  destruct c as [[] [] [] [] [] [] [] []];
    apply (bool_decide_unpack _); vm_compute; exact I.
Qed.

Lemma upper_settled s :
  Forall (λ n, (n < 256)%N → upper_char (ascii_of_N n) = [n]) (upper s).
Proof.
  induction s as [|c s IH]; simpl; [constructor|].
  apply Forall_app. split; [apply upper_char_settled | exact IH].
Qed.

Lemma remove_whitespace_Forall (P : N → Prop) l :
  Forall P l → Forall P (remove_whitespace l).
Proof.
  induction 1 as [|c l Hc Hl IH]; simpl; [constructor|].
  destruct (is_space c); [done|by constructor].
Qed.

Lemma remove_whitespace_idem l :
  remove_whitespace (remove_whitespace l) = remove_whitespace l.
Proof.
  induction l as [|c l IH]; simpl; [done|].
  destruct (is_space c) eqn:Hc; simpl; [done|]. by rewrite Hc, IH.
Qed.

Lemma upper_of_settled s' : ∀ l,
  code_points s' = l →
  Forall (λ n, (n < 256)%N → upper_char (ascii_of_N n) = [n]) l →
  upper s' = l.
Proof.
  unfold code_points.
  induction s' as [|a s' IH]; intros l; simpl; [by intros <-|].
  intros <- [Ha Hl]%Forall_cons.
  rewrite ascii_N_embedding in Ha. rewrite Ha by apply N_ascii_bounded.
  simpl. f_equal. by apply IH.
Qed.

Lemma N_of_ascii_inj a b : N_of_ascii a = N_of_ascii b → a = b.
Proof.
  intros H. rewrite <- (ascii_N_embedding a), <- (ascii_N_embedding b).
  by rewrite H.
Qed.

Lemma upper_without_whitespace s : ∀ s',
  code_points s' = remove_whitespace (code_points s) →
  remove_whitespace (upper s') = remove_whitespace (upper s).
Proof.
  unfold code_points.
  induction s as [|c s IH]; intros s'; simpl.
  - destruct s'; [done|discriminate].
  - rewrite remove_whitespace_app, remove_whitespace_upper_char.
    destruct (is_space (N_of_ascii c)) eqn:Hc; simpl; [apply IH|].
    destruct s' as [|a s']; simpl; [discriminate|].
    intros [= ->%N_of_ascii_inj Hrest].
    rewrite remove_whitespace_app, remove_whitespace_upper_char, Hc.
    f_equal. by apply IH.
Qed.

Lemma validate_by_clean s1 s2 :
  remove_whitespace (upper s1) = remove_whitespace (upper s2) →
  validate_protein_sequence fl s1 = validate_protein_sequence fl s2.
Proof. intros H. unfold validate_protein_sequence. by rewrite H. Qed.

Lemma validate_ok_inv s r :
  validate_protein_sequence fl s = Ok r →
  clean_sequence r = remove_whitespace (upper s)
  ∧ sequence_length r = length (clean_sequence r)
  ∧ (valid r = true ↔ ∀ c, c ∈ clean_sequence r → c ∈ valid_aa)
  ∧ ∀ aa, composition r !! aa
          = if bool_decide (aa ∈ valid_aa ∧ 0 < count_char aa (clean_sequence r))
            then Some (share_of fl (clean_sequence r) aa)
            else None.
Proof.
  unfold validate_protein_sequence.
  destruct (compose_ok fl (remove_whitespace (upper s)) valid_aa ∅)
    as (comp & -> & Hlook).
  intros Heq.
  pose proof (f_equal (λ x, match x with Ok v => v | Fail _ => r end) Heq) as Hr.
  cbn beta iota in Hr. subst r. clear Heq.
  cbn [clean_sequence sequence_length valid composition].
  split; [done|]. split; [done|]. split.
  - rewrite Nat.eqb_eq, size_empty_iff, elem_of_equiv_empty.
    split; intros H c.
    + intros Hin. destruct (decide (c ∈ valid_aa)) as [|Hn]; [done|].
      exfalso. apply (H c), elem_of_difference.
      by rewrite !elem_of_list_to_set.
    + rewrite elem_of_difference, !elem_of_list_to_set.
      intros [Hin Hn]. by apply Hn, H.
  - intros aa. rewrite Hlook. by rewrite lookup_empty.
Qed.

(** X13. The validation does not depend on the case of the letters nor on
    whitespace. An argument made of the code points of [sequence.upper()]
    (there is one when these are all below 256) gives the same dictionary
    as [sequence]; so does the argument that is [sequence] with its
    whitespace characters left out; and an argument made of the clean
    sequence of a result gives that result again. *)
Theorem validation_ignores_case_and_whitespace (sequence s' : string) :
  (code_points s' = upper sequence →
     validate_protein_sequence fl s' = validate_protein_sequence fl sequence)
  ∧ (code_points s' = remove_whitespace (code_points sequence) →
       validate_protein_sequence fl s' = validate_protein_sequence fl sequence)
  ∧ (∀ r, validate_protein_sequence fl sequence = Ok r →
          code_points s' = clean_sequence r →
          validate_protein_sequence fl s' = Ok r).
Proof.
  split; [|split].
  - intros Hs. apply validate_by_clean.
    by rewrite (upper_of_settled s' _ Hs (upper_settled sequence)).
  - intros Hs. apply validate_by_clean. by apply upper_without_whitespace.
  - intros r Hr Hs. rewrite <- Hr. apply validate_by_clean.
    destruct (validate_ok_inv _ _ Hr) as (Hclean & _).
    rewrite Hclean in Hs.
    rewrite (upper_of_settled s' _ Hs
               (remove_whitespace_Forall _ _ (upper_settled sequence))).
    apply remove_whitespace_idem.
Qed.

Lemma list_sum_add {A} (f g : A → nat) (l : list A) :
  list_sum ((λ x, f x + g x) <$> l) = list_sum (f <$> l) + list_sum (g <$> l).
Proof. induction l as [|x l IH]; csimpl; [done|]. rewrite IH. lia. Qed.

Lemma list_sum_indicator (c : N) (l : list N) :
  NoDup l →
  list_sum ((λ aa, if bool_decide (c = aa) then 1 else 0) <$> l)
  = if bool_decide (c ∈ l) then 1 else 0.
Proof.
  induction 1 as [|x l Hx Hl IH]; csimpl; [done|].
  rewrite IH. clear IH.
  repeat case_bool_decide; subst; try done; exfalso;
    rewrite ?elem_of_cons in *; tauto.
Qed.

Lemma count_char_sum (l : list N) (s : list N) :
  NoDup l →
  list_sum ((λ aa, count_char aa s) <$> l) = length (filter (λ c, c ∈ l) s).
Proof.
  intros Hl. induction s as [|c s IH]; csimpl.
  - clear Hl. induction l as [|x l IHl]; csimpl; [done|]. by rewrite IHl.
  - rewrite (list_sum_add (λ aa, if bool_decide (c = aa) then 1 else 0)
               (λ aa, count_char aa s)).
    rewrite IH, list_sum_indicator by done.
    rewrite filter_cons. case_bool_decide; case_decide; try done.
Qed.

Lemma filter_all {A} (P : A → Prop) `{∀ x, Decision (P x)} (l : list A) :
  length (filter P l) ≤ length l
  ∧ (length (filter P l) = length l ↔ ∀ x, x ∈ l → P x).
Proof.
  induction l as [|x l [IH1 IH2]]; simpl.
  - split; [done|]. split; [by intros _ x ?%elem_of_nil|done].
  - rewrite filter_cons. case_decide as Hx; simpl.
    + split; [lia|]. split.
      * intros Heq y [->|Hin]%elem_of_cons; [done|]. apply IH2; [lia|done].
      * intros Hall. f_equal. apply IH2. intros y Hy. apply Hall.
        by apply list_elem_of_further.
    + split; [lia|]. split; [lia|]. intros Hall. exfalso. apply Hx, Hall.
      apply list_elem_of_here.
Qed.

Lemma valid_aa_NoDup : NoDup valid_aa.
Proof. apply (bool_decide_unpack _). vm_compute. exact I. Qed.

(** X14. The counts reported in the composition never add up to more than
    the length of the clean sequence, and they add up to exactly that
    length if and only if the sequence is reported valid. *)
Theorem composition_counts_add_up (sequence : string) (r : Validation fl) :
  validate_protein_sequence fl sequence = Ok r →
  let total :=
    list_sum ((λ aa, from_option count 0 (composition r !! aa)) <$> valid_aa) in
  total ≤ sequence_length r ∧ (valid r = true ↔ total = sequence_length r).
Proof.
  intros (Hclean & Hlen & Hvalid & Hcomp)%validate_ok_inv. cbv zeta.
  assert (list_sum ((λ aa, from_option count 0 (composition r !! aa)) <$> valid_aa)
          = length (filter (λ c, c ∈ valid_aa) (clean_sequence r))) as ->.
  { rewrite <- (count_char_sum valid_aa (clean_sequence r) valid_aa_NoDup).
    f_equal. apply list_fmap_ext. intros i aa Hi. rewrite Hcomp.
    case_bool_decide as Hc; simpl; [done|].
    apply list_elem_of_lookup_2 in Hi.
    destruct (count_char aa (clean_sequence r)); [done|]. exfalso. apply Hc.
    split; [done|lia]. }
  rewrite Hlen.
  destruct (filter_all (λ c, c ∈ valid_aa) (clean_sequence r)) as [Hle Heq].
  split; [done|]. by rewrite Hvalid, Heq.
Qed.

End ValidationProperties.

(* ===================================================================== *)
(** * Part XIII. Output scans and batch submission *)
(* ===================================================================== *)

Section OutputFiles.
Import Outputs.
Context {F : Type}.
Implicit Types (e : Entry F) (l : list (Entry F)).

Lemma structure_fold l : ∀ acc : Structure.Files,
  fold_left Structure.add l acc
  = Structure.mkFiles
      (Structure.structures acc
         ++ (rel_path <$> filter (λ e, is_file e && is_structure e = true) l))
      (Structure.confidence acc
         ++ (rel_path <$>
               filter (λ e, is_file e && negb (is_structure e)
                            && (contains "confidence" (name e)
                                && bool_decide (suffix e = ".json")) = true) l))
      (Structure.other acc
         ++ (rel_path <$>
               filter (λ e, is_file e && negb (is_structure e)
                            && negb (contains "confidence" (name e)
                                     && bool_decide (suffix e = ".json")) = true) l)).
Proof.
  induction l as [|e l IH]; intros acc; simpl.
  - rewrite !app_nil_r. by destruct acc.
  - rewrite IH. unfold Structure.add. rewrite !filter_cons.
    destruct (is_file e), (is_structure e),
      (contains "confidence" (name e) && bool_decide (suffix e = ".json"));
      simpl; repeat case_decide; try done; simpl;
      by rewrite <- ?app_assoc.
Qed.

Lemma affinity_fold l : ∀ acc : Affinity.Files,
  fold_left Affinity.add l acc
  = Affinity.mkFiles
      (Affinity.structures acc
         ++ (rel_path <$> filter (λ e, is_file e && is_structure e = true) l))
      (Affinity.affinity acc
         ++ (rel_path <$>
               filter (λ e, is_file e && negb (is_structure e)
                            && (contains "affinity" (name e)
                                && bool_decide (suffix e = ".json")) = true) l))
      (Affinity.confidence acc
         ++ (rel_path <$>
               filter (λ e, is_file e && negb (is_structure e)
                            && negb (contains "affinity" (name e)
                                     && bool_decide (suffix e = ".json"))
                            && (contains "confidence" (name e)
                                && bool_decide (suffix e = ".json")) = true) l))
      (Affinity.other acc
         ++ (rel_path <$>
               filter (λ e, is_file e && negb (is_structure e)
                            && negb (contains "affinity" (name e)
                                     && bool_decide (suffix e = ".json"))
                            && negb (contains "confidence" (name e)
                                     && bool_decide (suffix e = ".json")) = true) l)).
Proof.
  induction l as [|e l IH]; intros acc; simpl.
  - rewrite !app_nil_r. by destruct acc.
  - rewrite IH. unfold Affinity.add. rewrite !filter_cons.
    destruct (is_file e), (is_structure e),
      (contains "affinity" (name e) && bool_decide (suffix e = ".json")),
      (contains "confidence" (name e) && bool_decide (suffix e = ".json"));
      simpl; repeat case_decide; try done; simpl;
      by rewrite <- ?app_assoc.
Qed.

Lemma json_is_no_structure e : suffix e = ".json" → is_structure e = false.
Proof. unfold is_structure. by intros ->. Qed.

Lemma parse_fold l : ∀ acc : Affinity.Results F,
  let r := fold_left Affinity.record l acc in
  Affinity.affinity_files r
  = Affinity.affinity_files acc
    ++ (rel_path <$>
          filter (λ e, is_file e && bool_decide (suffix e = ".json")
                       && (contains "affinity" (name e)
                           && negb (contains "confidence" (name e))) = true) l)
  ∧ Affinity.confidence_files r
    = Affinity.confidence_files acc
      ++ (rel_path <$>
            filter (λ e, is_file e && bool_decide (suffix e = ".json")
                         && contains "confidence" (name e) = true) l)
  ∧ Affinity.structure_files r
    = Affinity.structure_files acc
      ++ (rel_path <$> filter (λ e, is_file e && is_structure e = true) l).
Proof.
  induction l as [|e l IH]; intros acc; simpl.
  - by rewrite !app_nil_r.
  - destruct (IH (Affinity.record acc e)) as (-> & -> & ->).
    unfold Affinity.record. rewrite !filter_cons.
    destruct (is_file e); simpl; [|by repeat case_decide].
    case_bool_decide as Hj; simpl.
    + rewrite (json_is_no_structure _ Hj).
      destruct (contains "affinity" (name e)), (contains "confidence" (name e));
        simpl; repeat case_decide; try done; simpl; by rewrite <- ?app_assoc.
    + destruct (is_structure e); simpl; repeat case_decide; try done; simpl;
        by rewrite <- ?app_assoc.
Qed.

Lemma filter_partition (P Q R : Entry F → Prop)
    `{∀ e, Decision (P e)} `{∀ e, Decision (Q e)} `{∀ e, Decision (R e)} l :
  (∀ e, R e ↔ (P e ∨ Q e)) → (∀ e, P e → Q e → False) →
  (rel_path <$> filter P l) ++ (rel_path <$> filter Q l)
  ≡ₚ rel_path <$> filter R l.
Proof.
  intros HR Hdisj. induction l as [|e l IH]; [done|].
  rewrite !filter_cons.
  destruct (decide (P e)) as [HP|HP], (decide (Q e)) as [HQ|HQ],
    (decide (R e)) as [Hr|Hr]; csimpl; rewrite <- ?IH;
    first [ by solve_Permutation
          | exfalso; by eauto
          | exfalso; apply Hr, HR; by auto
          | exfalso; apply HR in Hr; tauto ].
Qed.

(** X15. [find_output_files] of structure_prediction.py puts every regular
    file of the listing into exactly one of its three lists and nothing
    else: together the lists are a rearrangement of the paths of the
    regular files. The same holds for the four lists of [find_output_files]
    of affinity_prediction.py. When the predictions directory does not
    exist all lists are empty. *)
Theorem output_files_partition (pred_dir_exists : bool) (l : list (Entry F)) :
  let s := Structure.find_output_files pred_dir_exists l in
  let a := Affinity.find_output_files pred_dir_exists l in
  let files := if pred_dir_exists
               then rel_path <$> filter (λ e, is_file e = true) l
               else [] in
  Structure.structures s ++ Structure.confidence s ++ Structure.other s ≡ₚ files
  ∧ Affinity.structures a ++ Affinity.affinity a ++ Affinity.confidence a
      ++ Affinity.other a ≡ₚ files.
Proof.
  cbv zeta. unfold Structure.find_output_files, Affinity.find_output_files.
  destruct pred_dir_exists; [|done].
  rewrite structure_fold, affinity_fold. simpl. split.
  - rewrite (filter_partition _ _
               (λ e, is_file e && negb (is_structure e) = true));
      [apply filter_partition|..]; intros e;
      destruct (is_file e), (is_structure e),
        (contains "confidence" (name e) && bool_decide (suffix e = ".json"));
      simpl; intuition discriminate.
  - rewrite (filter_partition _ _
               (λ e, is_file e && negb (is_structure e)
                     && negb (contains "affinity" (name e)
                              && bool_decide (suffix e = ".json")) = true));
      [rewrite (filter_partition _ _
                  (λ e, is_file e && negb (is_structure e) = true));
         [apply filter_partition|..]|..]; intros e;
      destruct (is_file e), (is_structure e),
        (contains "affinity" (name e) && bool_decide (suffix e = ".json")),
        (contains "confidence" (name e) && bool_decide (suffix e = ".json"));
      simpl; intuition discriminate.
Qed.

Lemma filter_weaken (P Q : Entry F → Prop)
    `{∀ e, Decision (P e)} `{∀ e, Decision (Q e)} l :
  (∀ e, P e → Q e) → filter P l `sublist_of` filter Q l.
Proof.
  intros HPQ. induction l as [|e l IH]; [done|].
  rewrite !filter_cons.
  destruct (decide (P e)) as [HP|HP], (decide (Q e)) as [HQ|HQ].
  - by apply sublist_skip.
  - exfalso. auto.
  - by apply sublist_cons.
  - done.
Qed.

Lemma same_path_same_entry l e e' :
  NoDup (rel_path <$> l) → e ∈ l → e' ∈ l → rel_path e = rel_path e' → e = e'.
Proof.
  induction l as [|x l IH]; csimpl; [by intros _ ?%elem_of_nil|].
  intros [Hx Hl]%NoDup_cons [-> | He]%elem_of_cons [-> | He']%elem_of_cons Heq;
    try done.
  - exfalso. apply Hx. rewrite Heq. by apply list_elem_of_fmap_2.
  - exfalso. apply Hx. rewrite <- Heq. by apply list_elem_of_fmap_2.
  - by apply IH.
Qed.

Lemma path_of_filtered (P : Entry F → Prop) `{∀ e, Decision (P e)} l x :
  x ∈ rel_path <$> filter P l ↔ ∃ e, e ∈ l ∧ P e ∧ rel_path e = x.
Proof.
  rewrite list_elem_of_fmap. setoid_rewrite list_elem_of_filter.
  split.
  - intros (e & -> & HP & He). eauto.
  - intros (e & He & HP & <-). eauto.
Qed.

(** X16. The two scans of affinity_prediction.py agree on the structure
    files; every affinity file of [parse_affinity_results] is an affinity
    file of [find_output_files], and every confidence file of
    [find_output_files] is one of [parse_affinity_results]; but a JSON file
    whose name contains both "affinity" and "confidence" is an affinity
    file for [find_output_files] and a confidence file for
    [parse_affinity_results]. *)
Theorem scans_differ_on_confidence (pred_dir_exists : bool) (l : list (Entry F)) :
  let f := Affinity.find_output_files pred_dir_exists l in
  let p := Affinity.parse_affinity_results pred_dir_exists l in
  Affinity.structure_files p = Affinity.structures f
  ∧ Affinity.affinity_files p `sublist_of` Affinity.affinity f
  ∧ Affinity.confidence f `sublist_of` Affinity.confidence_files p
  ∧ (pred_dir_exists = true → NoDup (rel_path <$> l) →
     ∀ e, e ∈ l → is_file e = true → suffix e = ".json" →
          contains "affinity" (name e) = true →
          contains "confidence" (name e) = true →
          rel_path e ∈ Affinity.affinity f
          ∧ (rel_path e ∉ Affinity.affinity_files p)
          ∧ rel_path e ∈ Affinity.confidence_files p
          ∧ (rel_path e ∉ Affinity.confidence f)).
Proof.
  cbv zeta. unfold Affinity.find_output_files, Affinity.parse_affinity_results.
  destruct pred_dir_exists; simpl; [|done].
  rewrite affinity_fold.
  destruct (parse_fold l (Affinity.mkResults [] ∅ [] [])) as (-> & -> & ->).
  simpl. split; [done|]. split; [|split].
  - apply fmap_sublist, filter_weaken. intros e.
    destruct (is_file e); simpl; [|done].
    case_bool_decide as Hj; simpl; [|done].
    rewrite (json_is_no_structure _ Hj). simpl.
    by destruct (contains "affinity" (name e)), (contains "confidence" (name e)).
  - apply fmap_sublist, filter_weaken. intros e.
    destruct (is_file e), (is_structure e),
      (contains "affinity" (name e)), (contains "confidence" (name e)),
      (bool_decide (suffix e = ".json")); done.
  - intros _ Hnd e He Hfile Hj Ha Hc.
    pose proof (json_is_no_structure _ Hj) as Hs.
    rewrite !path_of_filtered. split_and!.
    + exists e. by rewrite Hfile, Hs, Ha, Hj.
    + intros (e' & He' & HP & Heq).
      rewrite (same_path_same_entry l e' e Hnd He' He Heq) in HP.
      by rewrite Hfile, Hj, Ha, Hc in HP.
    + exists e. by rewrite Hfile, Hj, Hc.
    + intros (e' & He' & HP & Heq).
      rewrite (same_path_same_entry l e' e Hnd He' He Heq) in HP.
      by rewrite Hfile, Hs, Ha, Hj in HP.
Qed.

Lemma read_values_lookup (values : gmap string (Json F)) e key v :
  Affinity.read_values values e !! key = Some v ↔
  (∃ d, content e = Some (JDict d) ∧ d !! key = Some v ∧ is_number v = true)
  ∨ ((∀ d v', content e = Some (JDict d) → d !! key = Some v' →
              is_number v' = false)
     ∧ values !! key = Some v).
Proof.
  unfold Affinity.read_values.
  destruct (content e) as [[| | | | | |d]|];
    try (split; [intros H; right; split; [done|exact H]
                |intros [(d' & ? & _)|[_ H]]; [done|exact H]]).
  rewrite lookup_union_Some_raw, map_lookup_filter_Some, map_lookup_filter_None.
  simpl. split.
  - intros [[Hd Hn] | [[Hd | Hd] Hv]].
    + left. eauto.
    + right. split; [|done]. intros d' v' [= <-] Hv'. by rewrite Hd in Hv'.
    + right. split; [|done]. intros d' v' [= <-] Hv'.
      specialize (Hd v' Hv'). by destruct (is_number v').
  - intros [(d' & [= <-] & Hd & Hn) | [Hnone Hv]]; [by left|].
    right. split; [|done].
    destruct (d !! key) as [v'|] eqn:Hd; [|by left]. right.
    intros x [= <-]. rewrite (Hnone d v' eq_refl Hd). done.
Qed.

Lemma parse_values_fold l : ∀ (acc : Affinity.Results F) key,
  is_Some (Affinity.affinity_values (fold_left Affinity.record l acc) !! key) ↔
  is_Some (Affinity.affinity_values acc !! key)
  ∨ ∃ e d v, e ∈ l ∧ is_file e = true ∧ suffix e = ".json"
             ∧ contains "affinity" (name e) = true
             ∧ contains "confidence" (name e) = false
             ∧ content e = Some (JDict d) ∧ d !! key = Some v
             ∧ is_number v = true.
Proof.
  induction l as [|e l IH]; intros acc key; simpl.
  - split; [auto|]. intros [?|(e & d & v & ?%elem_of_nil & _)]; done.
  - rewrite IH. setoid_rewrite elem_of_cons.
    assert (is_Some (Affinity.affinity_values (Affinity.record acc e) !! key) ↔
            is_Some (Affinity.affinity_values acc !! key)
            ∨ ∃ d v, is_file e = true ∧ suffix e = ".json"
                     ∧ contains "affinity" (name e) = true
                     ∧ contains "confidence" (name e) = false
                     ∧ content e = Some (JDict d) ∧ d !! key = Some v
                     ∧ is_number v = true) as ->.
    { unfold Affinity.record.
      destruct (is_file e); simpl;
        [|split; [auto|intros [?|(d & v & ? & _)]; done]].
      case_bool_decide as Hj; simpl;
        [|destruct (is_structure e); simpl;
          (split; [auto|intros [?|(d & v & _ & ? & _)]; done])].
      destruct (contains "affinity" (name e)); simpl;
        [|destruct (contains "confidence" (name e)); simpl;
          (split; [auto|intros [?|(d & v & _ & _ & ? & _)]; done])].
      destruct (contains "confidence" (name e)); simpl;
        [split; [auto|intros [?|(d & v & _ & _ & _ & ? & _)]; done]|].
      unfold is_Some. setoid_rewrite read_values_lookup. split.
      - intros (x & [(d & Hc & Hd & Hn) | [_ Hv]]); [right|left]; eauto 10.
      - intros [(x & Hx) | (d & v & _ & _ & _ & _ & Hc & Hd & Hn)].
        + destruct (content e) as [[| | | | | |d]|] eqn:Hc;
            try (exists x; right; split; [done|exact Hx]).
          destruct (d !! key) as [v'|] eqn:Hd.
          * destruct (is_number v') eqn:Hn.
            -- exists v'. left. eauto.
            -- exists x. right. split; [|done].
               intros d' v'' [= <-] Hv''. rewrite Hd in Hv''. by injection Hv'' as <-.
          * exists x. right. split; [|done].
            intros d' v'' [= <-] Hv''. by rewrite Hd in Hv''.
        + exists v. left. eauto. }
    split.
    + intros [[?|(d & v & ?)] | (e' & d & v & ? & ?)]; [by left|right..].
      * exists e, d, v. tauto.
      * exists e', d, v. tauto.
    + intros [? | (e' & d & v & [-> | ?] & ?)]; [by left; left|left; right|right].
      * exists d, v. tauto.
      * exists e', d, v. tauto.
Qed.

(** X17. A key is among the affinity values returned by
    [parse_affinity_results] exactly when some regular JSON file with
    "affinity" and without "confidence" in its name loads as a dictionary
    that holds the key with an integer, float or boolean value. *)
Theorem affinity_values_origin (pred_dir_exists : bool) (l : list (Entry F))
    (key : string) :
  is_Some (Affinity.affinity_values
             (Affinity.parse_affinity_results pred_dir_exists l) !! key) ↔
  pred_dir_exists = true
  ∧ ∃ e d v, e ∈ l ∧ is_file e = true ∧ suffix e = ".json"
             ∧ contains "affinity" (name e) = true
             ∧ contains "confidence" (name e) = false
             ∧ content e = Some (JDict d) ∧ d !! key = Some v
             ∧ is_number v = true.
Proof.
  unfold Affinity.parse_affinity_results. destruct pred_dir_exists; simpl.
  - rewrite parse_values_fold. simpl. rewrite lookup_empty. split.
    + intros [[? ?] | ?]; [done|]. split; [done|]. done.
    + intros [_ ?]. by right.
  - rewrite lookup_empty. split; [by intros [? ?]|by intros [? _]].
Qed.

End OutputFiles.

Section BatchSubmission.
Import Py Jobs Server Batch.

(** X18. Without sequences [submit_batch_structure_prediction] returns an
    error dictionary, writes no file and leaves the job manager alone. With
    sequences it writes them, in order, to one JSON file and submits a job
    for structure_prediction.py whose arguments name that file under
    [batch-sequences-file] and carry neither [input] nor [sequence]; the
    parser of that script takes no flag [--batch-sequences-file]. *)
Theorem batch_submission (SCRIPTS_DIR : string)
    (generate_temp_id : Orchestrator → string * Orchestrator)
    (write_json : string → PyVal → option PyExc)
    (sequences : list string) (output_dir : option string)
    (use_msa_server use_potentials : bool) (output_format : string)
    (job_name : option string) (now : nat) (o : Orchestrator) :
  (sequences = [] →
     submit_batch_structure_prediction SCRIPTS_DIR generate_temp_id write_json
       sequences output_dir use_msa_server use_potentials output_format
       job_name now o
     = (Ok (Ok (error_dict "No sequences provided")), o, []))
  ∧ (sequences ≠ [] →
     let file := "/tmp/batch_sequences_" +:+ (generate_temp_id o).1 +:+ ".json" in
     let content := PDict {["sequences" := PList (PStr <$> sequences)]} in
     write_json file content = None →
     ∃ args,
       submit_batch_structure_prediction SCRIPTS_DIR generate_temp_id write_json
         sequences output_dir use_msa_server use_potentials output_format
         job_name now o
       = (let '(r, o') :=
            submit_job (script_in SCRIPTS_DIR "structure_prediction.py") args
              (or_else job_name
                 ("batch_structure_" +:+ pretty (length sequences) +:+ "_sequences"))
              now (generate_temp_id o).2 in
          (Ok r, o', [(file, content)]))
       ∧ ("batch-sequences-file", AStr file) ∈ args
       ∧ ("input" ∉ args.*1) ∧ ("sequence" ∉ args.*1)
       ∧ Scripts.recognised Scripts.structure_options "--batch-sequences-file"
         = false).
Proof.
  split.
  - by intros ->.
  - intros Hne. cbv zeta. intros Hw.
    unfold submit_batch_structure_prediction.
    destruct sequences as [|q qs]; [done|].
    destruct (generate_temp_id o) as [temp_id o1]. simpl in Hw |- *.
    rewrite Hw. eexists. split; [reflexivity|].
    unfold batch_args. rewrite common_args_app;
      [|simpl; rewrite !not_elem_of_cons; split_and!; try done; apply not_elem_of_nil..].
    split; [apply elem_of_app; left; apply list_elem_of_here|].
    destruct (if_given output_dir) as [d|], use_msa_server, use_potentials; simpl;
      split_and!; try done;
      rewrite ?not_elem_of_cons; split_and?; try done; apply not_elem_of_nil.
Qed.

End BatchSubmission.

(* ===================================================================== *)
(** * Part XIV. Further worked runs *)
(* ===================================================================== *)

Import Py Jobs Scripts Server Traces Outputs Batch Demo Demo2.

Example scan_of_listing :
  Affinity.find_output_files true listing
  = Affinity.mkFiles ["predictions/x/x_model_0.pdb"]
      ["predictions/x/affinity_x.json"; "predictions/x/confidence_affinity_x.json"]
      [] []
  ∧ Affinity.affinity_files (Affinity.parse_affinity_results true listing)
    = ["predictions/x/affinity_x.json"]
  ∧ Affinity.confidence_files (Affinity.parse_affinity_results true listing)
    = ["predictions/x/confidence_affinity_x.json"]
  ∧ Affinity.affinity_values (Affinity.parse_affinity_results true listing)
    = <["affinity_pred_value" := JFloat 2%Z]> {["converged" := JBool true]}.
Proof. split_and!; vm_compute; reflexivity. Qed.

Lemma only_output_format_is_unknown_witness :
  ("no-msa-server", AFlag) ∈ sequence_args
  ∧ (recognised structure_options "--no-msa-server" = false
     ↔ "no-msa-server" = "output_format").
Proof.
  assert (("no-msa-server", AFlag) ∈ sequence_args) as Hin.
  { do 2 apply list_elem_of_further. apply list_elem_of_here. }
  split; [exact Hin|].
  destruct (only_output_format_is_unknown "no-msa-server" AFlag sequence_args Hin)
    as [Hs _].
  exact (Hs None (Some "MVLS") None false true "pdb" eq_refl).
Defined.

Lemma one_input_source_witness :
  structure_args None (Some "MVLS") None false true "pdb" = Some sequence_args
  ∧ NoDup (sequence_args.*1)
  ∧ ("input" ∈ sequence_args.*1 ↔ ("sequence" ∉ sequence_args.*1))
  ∧ affinity_args None (Some "MVLS") (Some "CCO") None (Some "out") true false
      "pdb" = Some ligand_args
  ∧ ("protein-seq" ∈ ligand_args.*1 →
       "ligand-smiles" ∈ ligand_args.*1 ∨ "ligand-ccd" ∈ ligand_args.*1).
Proof.
  destruct (one_input_source sequence_args) as [Hs _].
  destruct (one_input_source ligand_args) as [_ Ha].
  destruct (Hs None (Some "MVLS") None false true "pdb" eq_refl) as [H1 H2].
  destruct (Ha None (Some "MVLS") (Some "CCO") None (Some "out") true false
              "pdb" eq_refl) as (_ & _ & H3 & _).
  split; [reflexivity|]. split; [exact H1|]. split; [exact H2|].
  split; [reflexivity|exact H3].
Defined.

Lemma affinity_file_and_sequence_witness :
  given (Some "in.yaml") = true
  ∧ given (Some "MVLS") || given None || given None = true
  ∧ submit_affinity_prediction "/srv/boltz/scripts" (Some "in.yaml")
      (Some "MVLS") None None None true false "pdb" None 0 fresh_orchestrator
    = submit_affinity_prediction "/srv/boltz/scripts" (Some "in.yaml")
        None None None None true false "pdb" None 0 fresh_orchestrator
  ∧ simple_affinity_prediction (world 0 "done" "") (Some "in.yaml")
      (Some "MVLS") None None None true "pdb" []
    = (error_dict
         "Invalid input: Provide either input_file OR (protein_sequence + ligand), not both",
       []).
Proof.
  destruct (affinity_file_and_sequence "/srv/boltz/scripts" (Some "in.yaml")
              (Some "MVLS") None None None true false "pdb" None 0
              fresh_orchestrator eq_refl eq_refl)
    as [(args & _ & _ & _ & _ & _ & Hsame & _) [_ Hsimple]].
  split; [reflexivity|]. split; [reflexivity|]. split; [exact Hsame|].
  apply Hsimple.
Defined.

Lemma rejected_by_both_paths_witness :
  structure_args None (Some "") None true false "pdb" = None
  ∧ simple_structure_prediction (world 0 "done" "") None (Some "") None true
      "pdb" []
    = (error_dict "Invalid input: Must provide either input_file or sequence", [])
  ∧ affinity_args None (Some "MVLS") None None None true false "pdb" = None
  ∧ simple_affinity_prediction (world 0 "done" "") None (Some "MVLS") None None
      None true "pdb" []
    = (error_dict
         "Invalid input: Must provide either ligand_smiles or ligand_ccd when not using input_file",
       []).
Proof.
  destruct (rejected_by_both_paths None (Some "") (Some "MVLS") None None None
              true false "pdb" (world 0 "done" "") []) as [Hs Ha].
  split; [reflexivity|]. split; [exact (Hs eq_refl)|].
  split; [reflexivity|exact (Ha eq_refl)].
Defined.

Lemma file_mode_leaves_files_witness :
  given (Some "in.yaml") = true
  ∧ ∃ r t',
      run_structure_prediction (world 1 "" "boom") (Some "in.yaml") None None
        None ∅ [] = (r, t')
      ∧ ∃ evs, t' = [] ++ evs ∧ Forall leaves_files evs.
Proof.
  split; [reflexivity|].
  destruct (file_mode_leaves_files (world 1 "" "boom") (Some "in.yaml") None
              None None None None None ∅ eq_refl) as [Hs _].
  destruct (run_structure_prediction (world 1 "" "boom") (Some "in.yaml") None
              None None ∅ []) as [r t'] eqn:Hrun.
  exists r, t'. split; [reflexivity|]. exact (Hs [] r t' Hrun).
Defined.

Lemma sequence_mode_trace_witness :
  given None = false
  ∧ (∃ d od p yaml argv,
       run_structure_prediction (world 0 "done" "") None (Some "MVLS") None None
         ∅ [] = (Ok d, [Mkdir od; WriteYaml p yaml; RunProcess argv; Unlink p])
       ∧ argv !! 2 = Some p ∧ argv !! 4 = Some od)
  ∧ (∃ d od p yaml argv,
       run_structure_prediction empty_disk None (Some "MVLS") None None
         ∅ [] = (Ok d, [Mkdir od; WriteYaml p yaml; RunProcess argv])
       ∧ argv !! 2 = Some p ∧ argv !! 4 = Some od).
Proof.
  split; [reflexivity|]. split.
  - assert (∃ d t',
        run_structure_prediction (world 0 "done" "") None (Some "MVLS") None None
          ∅ [] = (Ok d, t')) as (d & t' & Hrun)
      by (eexists _, _; vm_compute; reflexivity).
    destruct (proj1 (sequence_mode_trace (world 0 "done" "") None (Some "MVLS")
                       None None None None None ∅ [] t' d eq_refl) Hrun)
      as (od & p & yaml & argv & Ht & Hargv).
    change (t' = [Mkdir od; WriteYaml p yaml; RunProcess argv; Unlink p]) in Ht.
    rewrite Ht in Hrun.
    exists d, od, p, yaml, argv. split; [exact Hrun | exact Hargv].
  - assert (∃ d t',
        run_structure_prediction empty_disk None (Some "MVLS") None None
          ∅ [] = (Ok d, t')) as (d & t' & Hrun)
      by (eexists _, _; vm_compute; reflexivity).
    destruct (proj1 (sequence_mode_trace empty_disk None (Some "MVLS")
                       None None None None None ∅ [] t' d eq_refl) Hrun)
      as (od & p & yaml & argv & Ht & Hargv).
    change (t' = [Mkdir od; WriteYaml p yaml; RunProcess argv]) in Ht.
    rewrite Ht in Hrun.
    exists d, od, p, yaml, argv. split; [exact Hrun | exact Hargv].
Defined.

Lemma ligand_ccd_used_smiles_reported_witness :
  ∃ d t' r,
    run_affinity_prediction (world 0 "done" "") None (Some "MVLS") (Some "CCO")
      (Some "ETH") None None ∅ [] = (Ok d, t')
    ∧ d !! "result" = Some (PDict r)
    ∧ r !! "ligand_type" = Some (PStr "smiles")
    ∧ ∃ p protein properties ligand_id,
        WriteYaml p
          (PDict (<["properties" := properties]>
                 (<["sequences" :=
                      PList [protein;
                             PDict {["ligand" :=
                               PDict (<["ccd" := PStr "ETH"]>
                                      {["id" := ligand_id]})]}]]>
                 {["version" := PInt 1]}))) ∈ t'.
Proof.
  assert (∃ d t',
      run_affinity_prediction (world 0 "done" "") None (Some "MVLS") (Some "CCO")
        (Some "ETH") None None ∅ [] = (Ok d, t')) as (d & t' & Hrun)
    by (eexists _, _; vm_compute; reflexivity).
  destruct (ligand_ccd_used_smiles_reported (world 0 "done" "") None
              (Some "MVLS") (Some "CCO") (Some "ETH") None None ∅ [] t' d
              eq_refl eq_refl eq_refl Hrun)
    as (od & p & protein & lid & props & argv & cleanup & r & -> & _ & Hd & Hty & _).
  eexists d, _, r. split; [exact Hrun|]. split; [exact Hd|]. split; [exact Hty|].
  exists p, protein, props, lid. simpl.
  apply list_elem_of_further, list_elem_of_here.
Defined.

Lemma msa_setting_in_yaml_witness :
  given None = false
  ∧ ∃ d t' od p protein argv cleanup,
      run_structure_prediction (world 0 "done" "") None (Some "MVLS") None None
        {["use_msa_server" := PBool false]} [] = (Ok d, t')
      ∧ t' = [] ++ [Mkdir od;
                    WriteYaml p
                      (PDict (<["sequences" :=
                                  PList [PDict {["protein" := PDict protein]}]]>
                              {["version" := PInt 1]}));
                    RunProcess argv] ++ cleanup
      ∧ ((protein !! "msa" = Some (PStr "empty")
          ∧ argv !! 7 ≠ Some "--use_msa_server")
         ∨ (protein !! "msa" = None ∧ argv !! 7 = Some "--use_msa_server")).
Proof.
  split; [reflexivity|].
  assert (∃ d t',
      run_structure_prediction (world 0 "done" "") None (Some "MVLS") None None
        {["use_msa_server" := PBool false]} [] = (Ok d, t')) as (d & t' & Hrun)
    by (eexists _, _; vm_compute; reflexivity).
  destruct (proj1 (msa_setting_in_yaml (world 0 "done" "") None (Some "MVLS")
                     None None None None None
                     {["use_msa_server" := PBool false]} [] t' d eq_refl) Hrun)
    as (od & p & protein & argv & cleanup & Ht & Hmsa).
  exists d, t', od, p, protein, argv, cleanup.
  split; [exact Hrun|]. split; [exact Ht|exact Hmsa].
Defined.

Lemma missing_program_leaves_yaml_witness :
  ∃ od p yaml argv,
    simple_structure_prediction no_program None (Some "MVLS") None true "pdb" []
    = (error_dict
         "File not found: [Errno 2] No such file or directory: 'boltz'",
       [] ++ [Mkdir od; WriteYaml p yaml; RunProcess argv])
    ∧ argv !! 2 = Some p.
Proof.
  exact (missing_program_leaves_yaml no_program None (Some "MVLS") None true
           "pdb" "[Errno 2] No such file or directory: 'boltz'" []
           (fun _ _ => eq_refl) (fun _ _ _ => eq_refl) (fun _ _ => eq_refl)
           eq_refl eq_refl).
Defined.

Lemma keyword_overrides_config_witness :
  run_structure_prediction (world 0 "done" "") None (Some "MVLS") None
    (Some {["output_format" := PStr "cif"]}) {["output_format" := PStr "pdb"]} []
  = run_structure_prediction (world 0 "done" "") None (Some "MVLS") None
      (Some ∅) {["output_format" := PStr "pdb"]} [].
Proof.
  refine (proj1 (keyword_overrides_config (world 0 "done" "") None (Some "MVLS")
                   None None None None
                   {["output_format" := PStr "cif"]} ∅
                   {["output_format" := PStr "pdb"]} [] _)).
  intros k Hk. destruct (decide (k = "output_format")) as [-> | Hne].
  - discriminate Hk.
  - rewrite lookup_empty. apply lookup_singleton_ne. congruence.
Defined.

Lemma failed_process_has_status_success_witness :
  ∃ d t',
    simple_structure_prediction (world 1 "" "boom") None (Some "MVLS") None true
      "pdb" [] = (d, t')
    ∧ d !! "success" = Some (PBool false)
    ∧ d !! "status" = Some (PStr "success")
    ∧ is_Some (d !! "error") ∧ is_Some (d !! "stderr").
Proof.
  assert (∃ d t',
      simple_structure_prediction (world 1 "" "boom") None (Some "MVLS") None
        true "pdb" [] = (d, t')
      ∧ d !! "success" = Some (PBool false)) as (d & t' & Hrun & Hfalse)
    by (eexists _, _; split; vm_compute; reflexivity).
  exists d, t'. split; [exact Hrun|]. split; [exact Hfalse|].
  exact (proj1 (failed_process_has_status_success (world 1 "" "boom") None
                  (Some "MVLS") None None None None true "pdb" [] t' d Hfalse)
           Hrun).
Defined.

Lemma metadata_sequence_bounded_witness :
  ∃ d t' m s,
    run_structure_prediction (world 0 "done" "") None (Some long_sequence) None
      None ∅ [] = (Ok d, t')
    ∧ d !! "metadata" = Some (PDict m)
    ∧ m !! "sequence" = Some (PStr s)
    ∧ s = substring 0 50 long_sequence +:+ "..." ∧ String.length s = 53.
Proof.
  assert (∃ d t',
      run_structure_prediction (world 0 "done" "") None (Some long_sequence)
        None None ∅ [] = (Ok d, t')) as (d & t' & Hrun)
    by (eexists _, _; vm_compute; reflexivity).
  destruct (proj1 (metadata_sequence_bounded (world 0 "done" "") None
                     (Some long_sequence) None None None None None ∅ [] t' d)
              Hrun) as (m & v & Hm & Hv & Hshape).
  exists d, t', m.
  destruct v as [| | |s| |]; try (exfalso; exact Hshape);
    [discriminate Hshape|].
  destruct Hshape as (_ & q & [= <-] & _ & _ & Hlong).
  exists s. split; [exact Hrun|]. split; [exact Hm|]. split; [exact Hv|].
  apply Hlong. apply Nat.leb_le. reflexivity.
Defined.

Lemma validation_ignores_case_and_whitespace_witness :
  validate_protein_sequence symbolic "MV L S"
  = validate_protein_sequence symbolic "mv l s"
  ∧ validate_protein_sequence symbolic "mvls"
    = validate_protein_sequence symbolic "mv l s"
  ∧ ∃ r, validate_protein_sequence symbolic "mv l s" = Ok r
         ∧ validate_protein_sequence symbolic "MVLS" = Ok r.
Proof.
  split.
  { apply (proj1 (validation_ignores_case_and_whitespace symbolic "mv l s"
                    "MV L S")).
    vm_compute. reflexivity. }
  split.
  { apply (proj1 (proj2 (validation_ignores_case_and_whitespace symbolic
                           "mv l s" "mvls"))).
    vm_compute. reflexivity. }
  assert (∃ r, validate_protein_sequence symbolic "mv l s" = Ok r
               ∧ code_points "MVLS" = clean_sequence r) as (r & Hr & Hc)
    by (eexists; split; vm_compute; reflexivity).
  exists r. split; [exact Hr|].
  exact (proj2 (proj2 (validation_ignores_case_and_whitespace symbolic "mv l s"
                         "MVLS")) r Hr Hc).
Defined.

Lemma composition_counts_add_up_witness :
  ∃ r, validate_protein_sequence symbolic "ac a x" = Ok r
       ∧ list_sum ((λ aa, from_option count 0 (composition r !! aa)) <$> valid_aa)
         ≤ sequence_length r
       ∧ valid r = false.
Proof.
  assert (∃ r, validate_protein_sequence symbolic "ac a x" = Ok r
               ∧ valid r = false) as (r & Hr & Hv)
    by (eexists; split; vm_compute; reflexivity).
  exists r. split; [exact Hr|].
  destruct (composition_counts_add_up symbolic "ac a x" r Hr) as [Hle _].
  split; [exact Hle|exact Hv].
Defined.

Lemma scans_differ_on_confidence_witness :
  "predictions/x/confidence_affinity_x.json"
    ∈ Affinity.affinity (Affinity.find_output_files true listing)
  ∧ "predictions/x/confidence_affinity_x.json"
      ∉ Affinity.affinity_files (Affinity.parse_affinity_results true listing).
Proof.
  destruct (scans_differ_on_confidence true listing) as (_ & _ & _ & H).
  assert (NoDup (rel_path <$> listing)) as Hnd.
  { apply (bool_decide_unpack _). vm_compute. exact I. }
  destruct (H eq_refl Hnd
              (mkEntry true "predictions/x/confidence_affinity_x.json"
                 "confidence_affinity_x.json" ".json"
                 (Some (JDict {["score" := JInt 1]}))))
    as (H1 & H2 & _); try reflexivity.
  - apply list_elem_of_further, list_elem_of_further, list_elem_of_here.
  - split; [exact H1|exact H2].
Defined.

Lemma affinity_values_origin_witness :
  is_Some (Affinity.affinity_values (Affinity.parse_affinity_results true listing)
             !! "converged")
  ∧ ¬ is_Some (Affinity.affinity_values
                 (Affinity.parse_affinity_results true listing) !! "score").
Proof.
  split.
  - apply (affinity_values_origin true listing "converged"). split; [done|].
    eexists _, _, (JBool true). split.
    { apply list_elem_of_further, list_elem_of_here. }
    simpl. split_and!; try reflexivity.
  - intros H. apply (affinity_values_origin true listing "score") in H
      as [_ (e & d & v & He & _ & _ & Ha & Hc & Hcont & Hd & _)].
    unfold listing in He. rewrite !elem_of_cons, elem_of_nil in He.
    destruct He as [-> | [-> | [-> | [-> | []]]]]; simpl in *; try discriminate.
    injection Hcont as <-. vm_compute in Hd. discriminate.
Defined.

Lemma batch_submission_witness :
  ∃ args r o',
    submit_batch_structure_prediction "/srv/boltz/scripts"
      (λ o, ("7f3a", o)) (λ _ _, None) ["MVLS"; "ACDE"] None true false "pdb"
      None 0 fresh_orchestrator
    = (Ok r, o',
       [("/tmp/batch_sequences_7f3a.json",
         PDict {["sequences" := PList [PStr "MVLS"; PStr "ACDE"]]})])
    ∧ ("batch-sequences-file", AStr "/tmp/batch_sequences_7f3a.json") ∈ args
    ∧ (command <$> jobs (registry o') !! "job-0")
      = Some (mkCommand "/srv/boltz/scripts/structure_prediction.py" args)
    ∧ recognised structure_options "--batch-sequences-file" = false.
Proof.
  destruct (batch_submission "/srv/boltz/scripts" (λ o, ("7f3a", o))
              (λ _ _, None) ["MVLS"; "ACDE"] None true false "pdb" None 0
              fresh_orchestrator) as [_ H].
  destruct (H ltac:(discriminate) eq_refl) as (args & Hrun & Hin & _ & _ & Hrec).
  exists args. eexists _, _. split; [exact Hrun|]. split; [exact Hin|].
  split; [|exact Hrec]. vm_compute. reflexivity.
Defined.

Lemma missing_input_file_witness :
  "in.yaml" ≠ ""
  ∧ simple_structure_prediction empty_disk (Some "in.yaml") None (Some "out")
      true "pdb" []
    = (error_dict "File not found: Input file not found: in.yaml",
       [] ++ [Mkdir "out"]).
Proof.
  assert ("in.yaml" ≠ "") as Hne by discriminate.
  split; [exact Hne|].
  exact (proj1 (missing_input_file empty_disk "in.yaml" None None None None
                  (Some "out") true "pdb" [] Hne) eq_refl eq_refl eq_refl).
Defined.
